(** * skill-manager: source parsing, acquisition strategies, install and uninstall

    A shallow embedding of
      - [scripts/detect_agents.py]  (agent registry and detection),
      - [scripts/install.py]        (source parsing, the three acquisition
                                     strategies, the installer and its exit status),
      - [scripts/uninstall.py]      (the uninstaller and its exit status),
    of the [skill-manager] skill, followed by the properties of these
    functions.

    Python values are modelled as follows.
      - [str] is [string]; the [str] methods used by the scripts are written
        out in [Module PyStr].
      - [pathlib.Path] is the record [Path] (an absolute flag and the list of
        parts); the file system is a finite map from absolute, normalised
        paths to nodes ([Module Fs]).
      - Exceptions are values of [exn]; a Python function that can raise and
        that reads or writes the file system is a function
        [World -> result A * World].
      - Everything the scripts obtain from outside (sub-processes, the
        network, the archive library, [urllib.parse.urlparse], the
        environment) is a field of the record [Env]. *)

From stdpp Require Import gmap strings list fin_maps pretty.
From Stdlib Require Import ZArith Ascii String Sorted.

Open Scope string_scope.
Open Scope Z_scope.

(** ** Python strings *)

Module PyStr.

(** [s.split(sep)] for a one-character separator: never returns the empty
    list, [''.split('/') == ['']]. *)
Fixpoint split (sep : ascii) (s : string) : list string :=
  match s with
  | EmptyString => [EmptyString]
  | String c s' =>
      if Ascii.eqb c sep then EmptyString :: split sep s'
      else match split sep s' with
           | [] => [String c EmptyString]
           | h :: t => String c h :: t
           end
  end.

(** [sep.join(l)]. *)
Definition join (sep : string) (l : list string) : string := String.concat sep l.

(** [c in s] for a character [c]. *)
Fixpoint contains (c : ascii) (s : string) : bool :=
  match s with
  | EmptyString => false
  | String d s' => Ascii.eqb d c || contains c s'
  end.

(** [s.startswith(p)]. *)
Definition startswith (p s : string) : bool := String.prefix p s.

(** Truthiness of a string: [bool(s)]. *)
Definition nonempty (s : string) : bool :=
  match s with EmptyString => false | _ => true end.

(** [s.rstrip(chars)] for a one-character [chars]. *)
Fixpoint rstrip (c : ascii) (s : string) : string :=
  match s with
  | EmptyString => EmptyString
  | String d s' =>
      match rstrip c s' with
      | EmptyString => if Ascii.eqb d c then EmptyString else String d EmptyString
      | r => String d r
      end
  end.

(** [str.isspace] on one ASCII character: TAB, LF, VT, FF, CR, FS, GS, RS,
    US and the space. *)
Definition is_space (c : ascii) : bool :=
  let n := nat_of_ascii c in
  ((9 <=? n)%nat && (n <=? 13)%nat) || ((28 <=? n)%nat && (n <=? 32)%nat).

(** The number of bytes of the blank character a string starts with, and 0
    when it does not start with one.  Strings hold text in UTF-8, and the
    blank characters are those of [str.isspace]: the ASCII ones above,
    U+0085, U+00A0, U+1680, U+2000 to U+200A, U+2028, U+2029, U+202F,
    U+205F and U+3000. *)
Definition blank_len (s : string) : nat :=
  match s with
  | EmptyString => 0
  | String a s1 =>
      if is_space a then 1
      else
        match s1 with
        | EmptyString => 0
        | String b s2 =>
            let x := nat_of_ascii a in
            let y := nat_of_ascii b in
            if ((x =? 194) && ((y =? 133) || (y =? 160)))%nat then 2
            else
              match s2 with
              | EmptyString => 0
              | String c _ =>
                  let z := nat_of_ascii c in
                  if (((x =? 225) && (y =? 154) && (z =? 128))
                      || ((x =? 226) && (y =? 128)
                          && (((128 <=? z) && (z <=? 138))
                              || (z =? 168) || (z =? 169) || (z =? 175)))
                      || ((x =? 226) && (y =? 129) && (z =? 159))
                      || ((x =? 227) && (y =? 128) && (z =? 128)))%nat
                  then 3 else 0
              end
        end
  end.

(** [s.lstrip()], [s.rstrip()] and [s.strip()] without argument.  [skip]
    counts the bytes of a blank character that are still to be dropped. *)
Fixpoint lstrip_ws_aux (skip : nat) (s : string) : string :=
  match s with
  | EmptyString => EmptyString
  | String _ s' =>
      match skip with
      | S k => lstrip_ws_aux k s'
      | O =>
          match blank_len s with
          | O => s
          | S k => lstrip_ws_aux k s'
          end
      end
  end.

Definition lstrip_ws (s : string) : string := lstrip_ws_aux 0 s.

(** Whether a string is made of blank characters only. *)
Definition all_blank (s : string) : bool := negb (nonempty (lstrip_ws s)).

Fixpoint rstrip_ws (s : string) : string :=
  match s with
  | EmptyString => EmptyString
  | String c s' => if all_blank s then EmptyString else String c (rstrip_ws s')
  end.

Definition strip (s : string) : string := rstrip_ws (lstrip_ws s).

(** [s.split()] without argument: the maximal runs of characters that are
    not blank.  [cur] is the run being read, most recent character last,
    and [skip] counts the bytes of a blank character still to be dropped. *)
Fixpoint split_ws_aux (skip : nat) (cur : string) (s : string) : list string :=
  match s with
  | EmptyString => if nonempty cur then [cur] else []
  | String c s' =>
      match skip with
      | S k => split_ws_aux k cur s'
      | O =>
          match blank_len s with
          | S k =>
              if nonempty cur then cur :: split_ws_aux k EmptyString s'
              else split_ws_aux k EmptyString s'
          | O => split_ws_aux O (cur ++ String c EmptyString) s'
          end
      end
  end.

Definition split_ws (s : string) : list string := split_ws_aux 0 EmptyString s.

(** [s.replace(old, new)]: the occurrences of [old] are replaced from
    left to right, without overlap.  [skip] counts the characters of an
    occurrence that are still to be dropped. *)
Fixpoint replace_aux (old new : string) (skip : nat) (s : string) : string :=
  match s with
  | EmptyString =>
      match old with EmptyString => new | _ => EmptyString end
  | String c s' =>
      match skip with
      | S k => replace_aux old new k s'
      | O =>
          if String.prefix old s
          then new ++ (match old with
                       | EmptyString => String c (replace_aux old new O s')
                       | _ => replace_aux old new (Nat.pred (String.length old)) s'
                       end)
          else String c (replace_aux old new O s')
      end
  end.

Definition replace (old new s : string) : string := replace_aux old new O s.

(** The line feed. *)
Definition LF : ascii := ascii_of_nat 10.

(** [l[-1]] on a list of strings that is known not to be empty. *)
Definition last_part (l : list string) : string := List.last l EmptyString.

End PyStr.

(** ** Exceptions and results *)

(** The exceptions the three scripts raise, catch or let through.  [Blocked]
    stands for a call that never returns (a sub-process started without a
    timeout that does not exit); nothing catches it. *)
Inductive exn : Type :=
| InstallError (msg : string)
| HTTPError (code : Z) (reason : string)
| URLError
| CalledProcessError (cmd : list string) (returncode : Z)
| TimeoutExpired (cmd : list string)
| FileNotFoundError
| FileExistsError
| NotADirectoryError
| IsADirectoryError
| BadZipFile
| OSError (msg : string)
| Blocked.

Inductive result (A : Type) : Type :=
| Ok (a : A)
| Raise (e : exn).

Arguments Ok {A} a.
Arguments Raise {A} e.

(** ** [install.py]: the parsed source *)

(** [@dataclass class Source]. *)
Record Source : Type := mkSource {
  owner : string;
  repo : string;
  ref : string;
  path : string;
  skill_name : string
}.

(** The two fields of [urllib.parse.urlparse(url)] that [parse_github_url]
    reads.  [urlparse] is taken to return: the [ValueError] it raises on
    some strings (a host with an unbalanced bracket) is outside the model. *)
Record ParseResult : Type := mkParseResult {
  netloc : string;
  url_path : string
}.

Definition default_ref : string := "main".

(** [parse_github_url], lines 39-70, on the result of [urlparse]. *)
Definition parse_github_parsed (parsed : ParseResult) (dref : string) : result Source :=
  if negb (String.eqb (netloc parsed) "github.com"
           || String.eqb (netloc parsed) "www.github.com")
  then Raise (InstallError "Only GitHub URLs are supported.")
  else
    let parts := List.filter PyStr.nonempty (PyStr.split "/" (url_path parsed)) in
    if (List.length parts <? 2)%nat
    then Raise (InstallError "Invalid GitHub URL.")
    else
      let owner := nth 0 parts EmptyString in
      let repo := nth 1 parts EmptyString in
      let finish (ref subpath : string) :=
        let skill_name :=
          if PyStr.nonempty subpath
          then PyStr.last_part (PyStr.split "/" (PyStr.rstrip "/" subpath))
          else repo in
        Ok (mkSource owner repo ref subpath skill_name) in
      if (2 <? List.length parts)%nat
      then
        if String.eqb (nth 2 parts EmptyString) "tree" || String.eqb (nth 2 parts EmptyString) "blob"
        then
          if (List.length parts <? 4)%nat
          then Raise (InstallError "GitHub URL missing ref or path.")
          else finish (nth 3 parts EmptyString) (PyStr.join "/" (drop 4 parts))
        else finish dref (PyStr.join "/" (drop 2 parts))
      else finish dref EmptyString.

Definition parse_github_url (urlparse : string -> ParseResult)
    (url : string) (dref : string) : result Source :=
  parse_github_parsed (urlparse url) dref.

(** [parse_shorthand], lines 73-90. *)
Definition parse_shorthand (shorthand : string) (dref : string) : result Source :=
  let parts := PyStr.split "/" shorthand in
  if (List.length parts <? 2)%nat
  then Raise (InstallError "Invalid shorthand. Use: owner/repo[/path/to/skill]")
  else
    let owner := nth 0 parts EmptyString in
    let repo := nth 1 parts EmptyString in
    let path := if (2 <? List.length parts)%nat then PyStr.join "/" (drop 2 parts) else EmptyString in
    let skill_name := if (2 <? List.length parts)%nat then PyStr.last_part parts else repo in
    Ok (mkSource owner repo dref path skill_name).

(** ** [pathlib.Path] *)

(** A pure path: whether it starts at the root, and its parts.  As in
    [pathlib], empty parts and [.] parts are dropped when a path is built
    from a string, and [..] parts are kept. *)
Record Path : Type := mkPath {
  absolute : bool;
  parts : list string
}.

(** [Path(s)].  (POSIX keeps exactly two leading slashes as a root of its
    own; that case is not told apart here.) *)
Definition Path_of (s : string) : Path :=
  mkPath (PyStr.startswith "/" s)
         (List.filter (fun p => PyStr.nonempty p && negb (String.eqb p "."))
                      (PyStr.split "/" s)).

(** [p / q] for two paths: an absolute right operand replaces the left one. *)
Definition Path_join (p q : Path) : Path :=
  if absolute q then q else mkPath (absolute p) (parts p ++ parts q).

(** [p / s] for a string [s]. *)
Definition Path_div (p : Path) (s : string) : Path := Path_join p (Path_of s).

(** [p.name]. *)
Definition Path_name (p : Path) : string := List.last (parts p) EmptyString.

(** [p.parent]. *)
Definition Path_parent (p : Path) : Path := mkPath (absolute p) (removelast (parts p)).

(** [str(p)]. *)
Definition Path_str (p : Path) : string :=
  if absolute p then "/" ++ PyStr.join "/" (parts p)
  else match parts p with
       | [] => "."
       | _ => PyStr.join "/" (parts p)
       end.

(** ** The file system *)

Module Fs.

(** What a path can name: a directory, a regular file with its content, or
    a symbolic link with its (absolute, normalised) target. *)
Inductive node : Type :=
| Dir
| File (data : string)
| Link (target : list string).

(** The file system maps absolute paths, given as the list of their parts
    from the root, to nodes.  Symbolic links are followed at the last
    component of a path only: aliasing through a link in the middle of a
    path is outside the model. *)
Abbreviation fsmap := (gmap (list string) node).

(** Lexical normalisation of [..]; [acc] is the path so far, reversed. *)
Fixpoint norm (acc : list string) (l : list string) : list string :=
  match l with
  | [] => rev acc
  | x :: l' => if String.eqb x ".." then norm (tail acc) l' else norm (x :: acc) l'
  end.

(** The key of a path, relative paths being taken from [cwd]. *)
Definition locate (cwd : list string) (p : Path) : list string :=
  if absolute p then norm [] (parts p) else norm [] (cwd ++ parts p).

(** The node a path leads to after following at most [n] links. *)
Fixpoint follow (n : nat) (m : fsmap) (k : list string) : option (list string) :=
  match m !! k with
  | None => None
  | Some (Link t) => match n with O => None | S n' => follow n' m t end
  | Some _ => Some k
  end.

Definition max_links : nat := 40.

(** [os.path.exists]: false for a dangling link. *)
Definition exists_ (m : fsmap) (k : list string) : bool :=
  match follow max_links m k with Some _ => true | None => false end.

(** [os.path.islink]. *)
Definition is_symlink (m : fsmap) (k : list string) : bool :=
  match m !! k with Some (Link _) => true | _ => false end.

(** [os.path.isdir]. *)
Definition is_dir (m : fsmap) (k : list string) : bool :=
  match follow max_links m k with
  | Some k' => match m !! k' with Some Dir => true | _ => false end
  | None => false
  end.

(** [Path.resolve()]: the end of the chain of links, or the path itself. *)
Definition realpath (m : fsmap) (k : list string) : list string :=
  match follow max_links m k with Some k' => k' | None => k end.

(** One step of [mkdir(parents=True, exist_ok=True)]: [k] must be, or
    become, a directory.  [last] tells whether [k] is the path asked for
    or one of its ancestors. *)
Definition ensure_dir (last : bool) (m : fsmap) (k : list string) : result fsmap :=
  match m !! k with
  | None => Ok (<[k := Dir]> m)
  | Some _ =>
      if is_dir m k then Ok m
      else Raise (if last then FileExistsError else NotADirectoryError)
  end.

Fixpoint mkdirs (m : fsmap) (done todo : list string) : result fsmap :=
  match todo with
  | [] => ensure_dir true m done
  | c :: todo' =>
      match ensure_dir false m done with
      | Ok m1 => mkdirs m1 (done ++ [c]) todo'
      | Raise e => Raise e
      end
  end.

(** [Path.mkdir(parents=True, exist_ok=True)]. *)
Definition mkdir_p (m : fsmap) (k : list string) : result fsmap := mkdirs m [] k.

(** [k] without the leading [p], when [p] is a prefix of [k]. *)
Fixpoint strip_prefix (p k : list string) : option (list string) :=
  match p, k with
  | [], _ => Some k
  | a :: p', b :: k' => if String.eqb a b then strip_prefix p' k' else None
  | _ :: _, [] => None
  end.

Definition under (p k : list string) : bool :=
  match strip_prefix p k with Some _ => true | None => false end.

(** The entries strictly below [s], with their paths relative to [s]. *)
Definition subtree (m : fsmap) (s : list string) : list (list string * node) :=
  omap (fun kn : list string * node =>
          match strip_prefix s kn.1 with
          | Some (c :: suf) => Some (c :: suf, kn.2)
          | _ => None
          end) (map_to_list m).

(** Writes the entries below [d], over what is there. *)
Definition graft (d : list string) (es : list (list string * node)) (m : fsmap) : fsmap :=
  foldr (fun e acc => <[(d ++ e.1)%list := e.2]> acc) m es.

(** [shutil.copytree(src, dst, dirs_exist_ok=True)]: [src] must lead to a
    directory; [dst] is created with its parents; the entries below [src]
    are written below [dst], merging over what is there.  Two
    simplifications: a link below [src] is copied as a link, and an entry
    replaces whatever has its name below [dst]. *)
Definition copytree (m : fsmap) (src dst : list string) : result fsmap :=
  match follow max_links m src with
  | None => Raise FileNotFoundError
  | Some s =>
      match m !! s with
      | Some Dir =>
          match mkdir_p m dst with
          | Ok m1 => Ok (graft dst (subtree m s) m1)
          | Raise e => Raise e
          end
      | _ => Raise NotADirectoryError
      end
  end.

(** Removal of [k] and of everything below it. *)
Definition prune (m : fsmap) (k : list string) : fsmap :=
  filter (fun kn : list string * node => under k kn.1 = false) m.

(** [shutil.rmtree(k)]: refuses a symbolic link and anything that is not a
    directory. *)
Definition rmtree (m : fsmap) (k : list string) : result fsmap :=
  match m !! k with
  | None => Raise FileNotFoundError
  | Some Dir => Ok (prune m k)
  | Some (File _) => Raise NotADirectoryError
  | Some (Link _) => Raise (OSError "Cannot call rmtree on a symbolic link")
  end.

(** [Path.unlink()]: removes a file or a link, not a directory. *)
Definition unlink (m : fsmap) (k : list string) : result fsmap :=
  match m !! k with
  | None => Raise FileNotFoundError
  | Some Dir => Raise IsADirectoryError
  | Some _ => Ok (delete k m)
  end.

(** [Path.symlink_to(target)]: the path must be free and its parent a
    directory. *)
Definition symlink_to (m : fsmap) (k target : list string) : result fsmap :=
  match m !! k with
  | Some _ => Raise FileExistsError
  | None =>
      if is_dir m (removelast k) then Ok (<[k := Link target]> m)
      else Raise FileNotFoundError
  end.

(** [Path.write_bytes(data)] on a path that is free or a regular file. *)
Definition write_bytes (m : fsmap) (k : list string) (data : string) : result fsmap :=
  match m !! k with
  | Some Dir => Raise IsADirectoryError
  | _ =>
      if is_dir m (removelast k) then Ok (<[k := File data]> m)
      else Raise FileNotFoundError
  end.

(** The first entry directly in [d] whose name starts with [pre]:
    [next(Path(d).glob(pre + "*"), None)], for a [pre] without pattern
    characters.  The order is that of the map. *)
Definition glob_prefix (m : fsmap) (d : list string) (pre : string) : option (list string) :=
  List.find (fun k => match strip_prefix d k with
                      | Some [name] => PyStr.startswith pre name
                      | _ => false
                      end) (map_to_list m).*1.

End Fs.

Abbreviation fsmap := (gmap (list string) Fs.node).

(** ** The outside world *)

(** How a sub-process ends: it exits with a return code and an output
    ([result.stdout], the text as Python decodes it) after some seconds, it
    never exits, or its program is not found. *)
Inductive proc : Type :=
| Exits (returncode : Z) (stdout : string) (seconds : Z)
| NeverExits
| NoSuchProgram.

(** What an HTTP request meets: a final response, or no connection. *)
Inductive http : Type :=
| Response (status : Z) (reason : string) (body : string)
| Unreachable.

(** Everything the scripts obtain from outside.  A sub-process may change
    the file system; [unzip] is the archive library ([None] for a payload
    that is not an archive); [mkdtemp] names the fresh directory of
    [tempfile.TemporaryDirectory()]. *)
Record Env : Type := mkEnv {
  cwd : list string;
  home : list string;
  environ : string -> option string;
  which : string -> bool;
  spawn : list string -> fsmap -> proc * fsmap;
  http_get : string -> option string -> http;
  unzip : string -> option (list (list string * Fs.node));
  mkdtemp : fsmap -> list string;
  urlparse : string -> ParseResult
}.

(** One entry of the call log: which acquisition or removal function was
    entered, with its arguments.  The log is not part of the scripts; it
    records what a test double counting the calls would see. *)
Inductive Call : Type :=
| CallBuiltin (source : Source) (agent_cmd : string)
| CallGitSparse (source : Source) (dest : Path)
| CallDownload (source : Source) (dest : Path)
| CallLocal (local_path dest : Path) (symlink : bool)
| CallUninstallBuiltin (skill : string) (agent_cmd : string).

Record World : Type := mkWorld {
  fs : fsmap;
  calls : list Call
}.

Definition set_fs (w : World) (m : fsmap) : World := mkWorld m (calls w).

(** ** Computations that read and write the world and may raise *)

Definition M (A : Type) : Type := World -> result A * World.

Definition ret {A : Type} (a : A) : M A := fun w => (Ok a, w).

Definition raise {A : Type} (e : exn) : M A := fun w => (Raise e, w).

Definition bind {A B : Type} (c : M A) (k : A -> M B) : M B :=
  fun w => match c w with
           | (Ok a, w1) => k a w1
           | (Raise e, w1) => (Raise e, w1)
           end.

Declare Scope py_scope.
Delimit Scope py_scope with py.
Notation "x <- c ;; k" := (bind c (fun x => k))
  (at level 100, c at next level, right associativity) : py_scope.
Notation "c ;;; k" := (bind c (fun _ => k))
  (at level 100, right associativity) : py_scope.
Open Scope py_scope.

(** [try: c  except <the exceptions h maps to Some>: handler]. *)
Definition try_except {A : Type} (c : M A) (h : exn -> option (M A)) : M A :=
  fun w => match c w with
           | (Ok a, w1) => (Ok a, w1)
           | (Raise e, w1) =>
               match h e with
               | Some k => k w1
               | None => (Raise e, w1)
               end
           end.

Definition log (c : Call) : M unit :=
  fun w => (Ok tt, mkWorld (fs w) (calls w ++ [c])).

(** A file-system operation as a computation. *)
Definition fs_do (f : fsmap -> result fsmap) : M unit :=
  fun w => match f (fs w) with
           | Ok m => (Ok tt, set_fs w m)
           | Raise e => (Raise e, w)
           end.

Definition fs_ask {A : Type} (f : fsmap -> A) : M A := fun w => (Ok (f (fs w)), w).

Section Scripts.

Variable env : Env.

(** [Path.cwd()] and [Path.home()]. *)
Definition Path_cwd : Path := mkPath true (cwd env).
Definition Path_home : Path := mkPath true (home env).

Definition key (p : Path) : list string := Fs.locate (cwd env) p.

Definition path_exists (p : Path) : M bool := fs_ask (fun m => Fs.exists_ m (key p)).
Definition path_is_symlink (p : Path) : M bool := fs_ask (fun m => Fs.is_symlink m (key p)).
Definition path_mkdir_p (p : Path) : M unit := fs_do (fun m => Fs.mkdir_p m (key p)).
Definition path_unlink (p : Path) : M unit := fs_do (fun m => Fs.unlink m (key p)).
Definition shutil_rmtree (p : Path) : M unit := fs_do (fun m => Fs.rmtree m (key p)).
Definition shutil_copytree (src dst : Path) : M unit :=
  fs_do (fun m => Fs.copytree m (key src) (key dst)).

(** [dest.symlink_to(target.resolve())]. *)
Definition path_symlink_to_resolved (dest target : Path) : M unit :=
  fs_do (fun m => Fs.symlink_to m (key dest) (Fs.realpath m (key target))).

(** [subprocess.run(cmd, capture_output=True, check=check, timeout=timeout)]:
    the return code and the output.  What the sub-process did to the file
    system stays done when the call raises.  The outcomes are those of
    [proc]: the command exits, it does not exit, or its program is missing.
    The other exceptions [subprocess.run] can raise ([PermissionError],
    [UnicodeDecodeError] under [text=True], [ValueError]) are outside the
    model. *)
Definition subprocess_run (cmd : list string) (timeout : option Z) (check : bool)
  : M (Z * string) :=
  fun w =>
    let (p, m) := spawn env cmd (fs w) in
    match p with
    | NoSuchProgram => (Raise FileNotFoundError, w)
    | NeverExits =>
        (Raise (match timeout with Some _ => TimeoutExpired cmd | None => Blocked end),
         set_fs w m)
    | Exits code out secs =>
        if match timeout with Some t => t <? secs | None => false end
        then (Raise (TimeoutExpired cmd), set_fs w m)
        else if check && negb (code =? 0)
             then (Raise (CalledProcessError cmd code), set_fs w m)
             else (Ok (code, out), set_fs w m)
    end.

(** [with tempfile.TemporaryDirectory() as tmp: body]: the directory is
    removed again however the body ends. *)
Definition with_TemporaryDirectory {A : Type} (body : Path -> M A) : M A :=
  fun w =>
    let t := mkdtemp env (fs w) in
    let (r, w1) := body (mkPath true t) (set_fs w (<[t := Fs.Dir]> (fs w))) in
    (r, set_fs w1 (Fs.prune (fs w1) t)).

(** *** [detect_agents.py] *)

(** [@dataclass class Agent]. *)
Record Agent : Type := mkAgent {
  name : string;
  display_name : string;
  skills_path : Path;
  local_skills_dir : string;
  detect_cmd : option (list string);
  detect_path : option Path;
  builtin_install : option string
}.

(** The dictionary [detect_agent] returns. *)
Record Detected : Type := mkDetected {
  d_name : string;
  d_display_name : string;
  d_version : string;
  d_skills_path : string;
  d_local_skills_dir : string;
  d_builtin_install : option string
}.

(** [AGENTS], lines 28-73. *)
Definition AGENTS : list Agent :=
  [ mkAgent "claude" "Claude Code"
      (Path_div (Path_div Path_home ".claude") "skills")
      ".claude/skills" (Some ["claude"; "--version"]) None
      (Some "claude skill install");
    mkAgent "codex" "Codex"
      (Path_div (match environ env "CODEX_HOME" with
                 | Some c => Path_of c
                 | None => Path_div Path_home ".codex"
                 end) "skills")
      ".codex/skills" (Some ["codex"; "--version"]) None
      (Some "codex skill install");
    mkAgent "opencode" "OpenCode"
      (Path_div (Path_div (Path_div Path_home ".config") "opencode") "skills")
      ".opencode/skills" (Some ["opencode"; "--version"]) None None;
    mkAgent "cursor" "Cursor"
      (Path_div (Path_div Path_home ".cursor") "skills")
      ".cursor/skills" None (Some (Path_div Path_home ".cursor")) None;
    mkAgent "windsurf" "Windsurf"
      (Path_div (Path_div Path_home ".windsurf") "skills")
      ".windsurf/skills" None (Some (Path_div Path_home ".windsurf")) None;
    mkAgent "antigravity" "Antigravity"
      (Path_div (Path_div (Path_div Path_home ".gemini") "antigravity") "skills")
      ".agent/skills" None
      (Some (Path_div (Path_div Path_home ".gemini") "antigravity")) None ].

(** Truthiness of an optional string ([None] and [''] are false). *)
Definition truthy (o : option string) : bool :=
  match o with Some s => PyStr.nonempty s | None => false end.

(** [detect_agent], lines 76-108. *)
Definition detect_agent (agent : Agent) : M (option Detected) :=
  version <-
    match detect_cmd agent with
    | Some (c0 :: rest) =>
        if which env c0
        then try_except
               (r <- subprocess_run (c0 :: rest) (Some 5) false ;;
                if r.1 =? 0
                then ret (Some (nth 0 (PyStr.split PyStr.LF (PyStr.strip r.2)) EmptyString))
                else ret None)
               (fun e => match e with
                         | TimeoutExpired _ | FileNotFoundError => Some (ret None)
                         | _ => None
                         end)
        else ret None
    | _ => ret None
    end ;;
  version <-
    match detect_path agent with
    | Some p =>
        ex <- path_exists p ;;
        if ex then ret (if truthy version then version else Some "detected")
        else ret version
    | None => ret version
    end ;;
  match version with
  | Some v =>
      if PyStr.nonempty v
      then ret (Some (mkDetected (name agent) (display_name agent) v
                        (Path_str (skills_path agent)) (local_skills_dir agent)
                        (builtin_install agent)))
      else ret None
  | None => ret None
  end.

(** The registry the detection runs over: [AGENTS] in the scripts.  The
    functions below take it as a parameter, so that what is proved of them
    holds for every registry. *)
Variable registry : list Agent.

(** [detect_all], lines 111-118. *)
Fixpoint detect_each (agents : list Agent) (detected : list Detected) : M (list Detected) :=
  match agents with
  | [] => ret detected
  | agent :: rest =>
      r <- detect_agent agent ;;
      match r with
      | Some d => detect_each rest (detected ++ [d])
      | None => detect_each rest detected
      end
  end.

Definition detect_all : M (list Detected) := detect_each registry [].

(** *** [install.py]: the acquisition strategies *)

Definition lift {A : Type} (r : result A) : M A := fun w => (r, w).

(** [a or b] on two optional strings. *)
Definition py_or (a b : option string) : option string :=
  if truthy a then a else b.

(** [urllib.request.urlopen(req, timeout=30)] followed by [resp.read()]:
    a final status outside 200-299 raises [HTTPError]. *)
Definition urlopen_read (url : string) (authorization : option string) : M string :=
  fun w =>
    match http_get env url authorization with
    | Unreachable => (Raise URLError, w)
    | Response status reason body =>
        if (200 <=? status) && (status <? 300) then (Ok body, w)
        else (Raise (HTTPError status reason), w)
    end.

(** The [Authorization] header of [github_request], lines 96-98. *)
Definition authorization : option string :=
  let token := py_or (environ env "GITHUB_TOKEN") (environ env "GH_TOKEN") in
  match token with
  | Some t => if PyStr.nonempty t then Some ("token " ++ t) else None
  | None => None
  end.

(** [github_request], lines 93-105. *)
Definition github_request (url : string) : M string :=
  try_except (urlopen_read url authorization)
    (fun e => match e with
              | HTTPError code reason =>
                  Some (raise (InstallError ("HTTP " ++ pretty code ++ ": " ++ reason)))
              | _ => None
              end).

(** [install_builtin], lines 108-120. *)
Definition install_builtin (source : Source) (agent_cmd : string) : M bool :=
  log (CallBuiltin source agent_cmd) ;;;
  let cmd_parts := PyStr.split_ws agent_cmd in
  let skill_ref := owner source ++ "/" ++ repo source in
  let skill_ref :=
    if PyStr.nonempty (path source) then skill_ref ++ "/" ++ path source
    else skill_ref in
  let cmd := (cmd_parts ++ [skill_ref])%list in
  try_except
    (r <- subprocess_run cmd (Some 60) false ;; ret (r.1 =? 0))
    (fun e => match e with
              | TimeoutExpired _ | FileNotFoundError => Some (ret false)
              | _ => None
              end).

Definition clone_cmd (source : Source) (repo_dir : Path) : list string :=
  [ "git"; "clone"; "--filter=blob:none"; "--depth"; "1"; "--sparse";
    "--single-branch"; "--branch"; ref source;
    "https://github.com/" ++ owner source ++ "/" ++ repo source ++ ".git";
    Path_str repo_dir ].

Definition sparse_cmd (source : Source) (repo_dir : Path) : list string :=
  [ "git"; "-C"; Path_str repo_dir; "sparse-checkout"; "set"; path source ].

(** [install_git_sparse], lines 123-167. *)
Definition install_git_sparse (source : Source) (dest : Path) : M bool :=
  log (CallGitSparse source dest) ;;;
  if negb (which env "git") then ret false
  else
    with_TemporaryDirectory (fun tmp =>
      let repo_dir := Path_div tmp "repo" in
      cloned <- try_except
                  (subprocess_run (clone_cmd source repo_dir) (Some 60) true ;;; ret true)
                  (fun e => match e with
                            | CalledProcessError _ _ => Some (ret false)
                            | _ => None
                            end) ;;
      if negb cloned then ret false
      else
        (if PyStr.nonempty (path source)
         then subprocess_run (sparse_cmd source repo_dir) None true ;;; ret tt
         else ret tt) ;;;
        let src_path :=
          if PyStr.nonempty (path source) then Path_div repo_dir (path source)
          else repo_dir in
        ex <- path_exists src_path ;;
        if negb ex then ret false
        else
          path_mkdir_p dest ;;;
          shutil_copytree src_path dest ;;;
          let git_dir := Path_div dest ".git" in
          gex <- path_exists git_dir ;;
          (if gex then shutil_rmtree git_dir else ret tt) ;;;
          ret true).

Definition zip_url (source : Source) : string :=
  "https://codeload.github.com/" ++ owner source ++ "/" ++ repo source
    ++ "/zip/" ++ ref source.

(** [zipfile.ZipFile(zip_path).extractall(tmp)]. *)
Definition zip_extractall (payload : string) (tmp : Path) : M unit :=
  match unzip env payload with
  | None => raise BadZipFile
  | Some entries => fs_do (fun m => Ok (Fs.graft (key tmp) entries m))
  end.

(** [install_download], lines 170-197. *)
Definition install_download (source : Source) (dest : Path) : M bool :=
  log (CallDownload source dest) ;;;
  fetched <- try_except
               (payload <- github_request (zip_url source) ;; ret (Some payload))
               (fun e => match e with
                         | InstallError _ => Some (ret None)
                         | _ => None
                         end) ;;
  match fetched with
  | None => ret false
  | Some payload =>
      with_TemporaryDirectory (fun tmp =>
        let zip_path := Path_div tmp "repo.zip" in
        fs_do (fun m => Fs.write_bytes m (key zip_path) payload) ;;;
        zip_extractall payload tmp ;;;
        extracted <- fs_ask (fun m => Fs.glob_prefix m (key tmp) (repo source ++ "-")) ;;
        match extracted with
        | None => ret false
        | Some ek =>
            let extracted := mkPath true ek in
            let src_path :=
              if PyStr.nonempty (path source) then Path_div extracted (path source)
              else extracted in
            ex <- path_exists src_path ;;
            if negb ex then ret false
            else
              path_mkdir_p dest ;;;
              shutil_copytree src_path dest ;;;
              ret true
        end)
  end.

(** [install_local], lines 200-215. *)
Definition install_local (local_path dest : Path) (symlink : bool) : M bool :=
  log (CallLocal local_path dest symlink) ;;;
  ex <- path_exists local_path ;;
  if negb ex then ret false
  else
    path_mkdir_p (Path_parent dest) ;;;
    (if symlink
     then
       dex <- path_exists dest ;;
       (if dex
        then
          lnk <- path_is_symlink dest ;;
          if lnk then path_unlink dest else shutil_rmtree dest
        else ret tt) ;;;
       path_symlink_to_resolved dest local_path
     else
       path_mkdir_p dest ;;;
       shutil_copytree local_path dest) ;;;
    ret true.

(** *** [install.py]: the installer *)

(** The entries of [results["installed"]], [results["failed"]] and
    [results["skipped"]]. *)
Record InstalledItem : Type := mkInstalled {
  i_agent : string;
  i_path : string;
  i_method : option string
}.

Record FailedItem : Type := mkFailed {
  f_agent : string;
  f_path : string
}.

Record SkippedItem : Type := mkSkipped {
  s_agent : string;
  s_reason : string;
  s_path : string
}.

Record Results : Type := mkResults {
  installed : list InstalledItem;
  failed : list FailedItem;
  skipped : list SkippedItem
}.

(** [d[k] = v] on a dictionary kept as the list of its items in insertion
    order: a key that is present keeps its place. *)
Fixpoint dict_set {V : Type} (k : string) (v : V) (d : list (string * V)) : list (string * V) :=
  match d with
  | [] => [(k, v)]
  | (k', v') :: d' =>
      if String.eqb k' k then (k, v) :: d' else (k', v') :: dict_set k v d'
  end.

(** [{a["name"]: a for a in l}]. *)
Definition by_name (l : list Detected) : list (string * Detected) :=
  fold_left (fun d a => dict_set (d_name a) a d) l [].

(** [k in agents]. *)
Definition mem (k : string) (agents : list string) : bool :=
  existsb (String.eqb k) agents.

(** [agents and agents != ["all"]]. *)
Definition selects (agents : option (list string)) : option (list string) :=
  match agents with
  | Some (a :: rest) =>
      if String.eqb a "all" && match rest with [] => true | _ => false end
      then None else Some (a :: rest)
  | _ => None
  end.

Definition is_method (method : string) (a b : string) : bool :=
  String.eqb method a || String.eqb method b.

(** Lines 280-297: the repository strategies for one agent, in the order
    of the script. *)
Definition install_from_github (source : Source) (agent : Detected) (dest : Path)
    (method : string) : M (bool * option string) :=
  st <-
    (if is_method method "auto" "builtin" && truthy (d_builtin_install agent)
     then
       success <- install_builtin source (default EmptyString (d_builtin_install agent)) ;;
       ret (success, if success then Some "builtin" else None)
     else ret (false, None)) ;;
  st <-
    (if negb st.1 && is_method method "auto" "git"
     then
       success <- install_git_sparse source dest ;;
       ret (success, if success then Some "git" else st.2)
     else ret st) ;;
  if negb st.1 && is_method method "auto" "download"
  then
    success <- install_download source dest ;;
    ret (success, if success then Some "download" else st.2)
  else ret st.

(** Lines 256-261: the destination for one agent. *)
Definition dest_of (agent : Detected) (skill_name : string) (local : bool) : Path :=
  if local
  then Path_div (Path_div Path_cwd (d_local_skills_dir agent)) skill_name
  else Path_div (Path_of (d_skills_path agent)) skill_name.

(** Lines 299-309: the outcome for one agent goes to [installed] or to
    [failed]. *)
Definition record_outcome (results : Results) (agent_name : string) (dest : Path)
    (st : bool * option string) : Results :=
  if st.1
  then mkResults (installed results ++ [mkInstalled agent_name (Path_str dest) st.2])
         (failed results) (skipped results)
  else mkResults (installed results)
         (failed results ++ [mkFailed agent_name (Path_str dest)])
         (skipped results).

(** Lines 263-269: the entry for a target that is skipped. *)
Definition record_skipped (results : Results) (agent_name : string) (dest : Path)
  : Results :=
  mkResults (installed results) (failed results)
    (skipped results ++ [mkSkipped agent_name "Already exists" (Path_str dest)]).

(** Lines 255-309: the body of the loop over the target agents. *)
Definition install_to_agent (local_path : Path) (source : option Source)
    (skill_name : string) (symlink : bool) (method : string) (local : bool)
    (results : Results) (agent_name : string) (agent : Detected) : M Results :=
  let dest := dest_of agent skill_name local in
  dex <- path_exists dest ;;
  if dex && negb symlink
  then ret (record_skipped results agent_name dest)
  else
    lex <- path_exists local_path ;;
    st <-
      (if lex
       then
         success <- install_local local_path dest symlink ;;
         ret (success, Some (if symlink then "symlink" else "copy"))
       else
         match source with
         | Some src => install_from_github src agent dest method
         | None => ret (false, None)
         end) ;;
    ret (record_outcome results agent_name dest st).

Fixpoint install_to_agents (local_path : Path) (source : option Source)
    (skill_name : string) (symlink : bool) (method : string) (local : bool)
    (results : Results) (targets : list (string * Detected)) : M Results :=
  match targets with
  | [] => ret results
  | (agent_name, agent) :: rest =>
      results <- install_to_agent local_path source skill_name symlink method local
                   results agent_name agent ;;
      install_to_agents local_path source skill_name symlink method local results rest
  end.

(** Lines 228-238: the source string as a local path, a URL or a shorthand. *)
Definition parse_source (source_str : string) : M (option Source * string) :=
  let local_path := Path_of source_str in
  lex <- path_exists local_path ;;
  if lex then ret (None, Path_name local_path)
  else if PyStr.startswith "http" source_str
       then source <- lift (parse_github_url (urlparse env) source_str default_ref) ;;
            ret (Some source, skill_name source)
       else source <- lift (parse_shorthand source_str default_ref) ;;
            ret (Some source, skill_name source).

(** [install_skill], lines 218-311. *)
Definition install_skill (source_str : string) (agents : option (list string))
    (symlink : bool) (method : string) (local : bool) : M Results :=
  let results := mkResults [] [] [] in
  let local_path := Path_of source_str in
  parsed <- parse_source source_str ;;
  all <- detect_all ;;
  let detected := by_name all in
  match detected with
  | [] => raise (InstallError "No AI agents detected on this system.")
  | _ =>
      target_agents <-
        match selects agents with
        | Some wanted =>
            let target_agents := List.filter (fun kv => mem kv.1 wanted) detected in
            match target_agents with
            | [] => raise (InstallError "None of the specified agents found")
                (* the message of the script also lists [agents] *)
            | _ => ret target_agents
            end
        | None => ret detected
        end ;;
      install_to_agents local_path parsed.1 parsed.2 symlink method local
        results target_agents
  end.

(** The command line after [argparse]. *)
Record Args : Type := mkArgs {
  a_source : string;
  a_agents : string;
  a_symlink : bool;
  a_local : bool;
  a_method : string;
  a_format : string
}.

(** [args.agents.split(",") if args.agents != "all" else ["all"]]. *)
Definition agents_of (agents : string) : list string :=
  if negb (String.eqb agents "all") then PyStr.split "," agents else ["all"].

(** The value [main] returns, line 352. *)
Definition exit_status (results : Results) : Z :=
  match failed results, installed results with
  | _ :: _, [] => 1
  | _, _ => 0
  end.

(** [main], lines 314-352, from the parsed arguments on; the printing of
    the report is left out. *)
Definition main (args : Args) : M Z :=
  r <- try_except
         (results <- install_skill (a_source args) (Some (agents_of (a_agents args)))
                       (a_symlink args) (a_method args) (a_local args) ;;
          ret (Some results))
         (fun e => match e with
                   | InstallError _ => Some (ret None)
                   | _ => None
                   end) ;;
  match r with
  | None => ret 1
  | Some results => ret (exit_status results)
  end.

(** *** [uninstall.py] *)

Record RemovedItem : Type := mkRemoved {
  r_agent : string;
  r_path : string;
  r_method : option string
}.

Record NotFoundItem : Type := mkNotFound {
  n_agent : string;
  n_path : string
}.

Record UResults : Type := mkUResults {
  removed : list RemovedItem;
  not_found : list NotFoundItem
}.

(** Lines 23-24: the remove command derived from the install command. *)
Definition remove_cmd (agent_cmd skill : string) : list string :=
  let cmd_parts := PyStr.split_ws (PyStr.replace "install" "remove" agent_cmd) in
  (cmd_parts ++ [skill])%list.

(** [uninstall_builtin], lines 16-30. *)
Definition uninstall_builtin (skill : string) (agent : Detected) : M bool :=
  log (CallUninstallBuiltin skill (default EmptyString (d_builtin_install agent))) ;;;
  if negb (truthy (d_builtin_install agent)) then ret false
  else
    let cmd := remove_cmd (default EmptyString (d_builtin_install agent)) skill in
    try_except
      (r <- subprocess_run cmd (Some 30) false ;; ret (r.1 =? 0))
      (fun e => match e with
                | TimeoutExpired _ | FileNotFoundError => Some (ret false)
                | _ => None
                end).

(** Lines 71-81: the outcome for one agent goes to [removed] or to
    [not_found]. *)
Definition record_removal (results : UResults) (agent_name : string)
    (skill_path : Path) (st : bool * option string) : UResults :=
  if st.1
  then mkUResults (removed results ++ [mkRemoved agent_name (Path_str skill_path) st.2])
         (not_found results)
  else mkUResults (removed results)
         (not_found results ++ [mkNotFound agent_name (Path_str skill_path)]).

(** Lines 51-81: the body of the loop over the target agents. *)
Definition uninstall_from_agent (skill : string) (results : UResults)
    (agent_name : string) (agent : Detected) : M UResults :=
  let skill_path := Path_div (Path_of (d_skills_path agent)) skill in
  st <-
    (if truthy (d_builtin_install agent)
     then
       ok <- uninstall_builtin skill agent ;;
       ret (if ok then (true, Some "builtin") else (false, None))
     else ret (false, None)) ;;
  ex <- path_exists skill_path ;;
  st <-
    (if negb st.1 && ex
     then
       lnk <- path_is_symlink skill_path ;;
       (if lnk then path_unlink skill_path else shutil_rmtree skill_path) ;;;
       ret (true, Some "file")
     else ret st) ;;
  ret (record_removal results agent_name skill_path st).

Fixpoint uninstall_from_agents (skill : string) (results : UResults)
    (targets : list (string * Detected)) : M UResults :=
  match targets with
  | [] => ret results
  | (agent_name, agent) :: rest =>
      results <- uninstall_from_agent skill results agent_name agent ;;
      uninstall_from_agents skill results rest
  end.

(** [uninstall_skill], lines 33-83. *)
Definition uninstall_skill (skill : string) (agents : option (list string)) : M UResults :=
  let results := mkUResults [] [] in
  all <- detect_all ;;
  let detected := by_name all in
  match detected with
  | [] => ret results
  | _ =>
      let target_agents :=
        match selects agents with
        | Some wanted => List.filter (fun kv => mem kv.1 wanted) detected
        | None => detected
        end in
      uninstall_from_agents skill results target_agents
  end.

(** The value [main] of [uninstall.py] returns, line 109. *)
Definition uninstall_exit_status (results : UResults) : Z :=
  match removed results with
  | [] => 1
  | _ => 0
  end.

(** [main] of [uninstall.py], lines 86-109, from the parsed arguments on. *)
Definition uninstall_main (skill : string) (agents : string) : M Z :=
  results <- uninstall_skill skill (Some (agents_of agents)) ;;
  ret (uninstall_exit_status results).

(** *** The strategy order, as the specification words it

    Written from the specification, sections 4.2 and 4.3 (step 4d), to be
    compared with [install_from_github]: the strategies have a fixed
    order; the mode [auto] selects all of them and any other mode the one
    it names; native delegation is there only for a target that has a
    native install command; the strategies selected are attempted in
    order up to the first success, whose name is recorded. *)

Inductive Strategy : Type :=
| Native
| SparseCheckout
| ArchiveDownload.

(** The name the script records for a strategy. *)
Definition strategy_name (s : Strategy) : string :=
  match s with
  | Native => "builtin"
  | SparseCheckout => "git"
  | ArchiveDownload => "download"
  end.

Definition fixed_order : list Strategy := [Native; SparseCheckout; ArchiveDownload].

Definition selected (method : string) (s : Strategy) : bool :=
  String.eqb method "auto" || String.eqb method (strategy_name s).

Definition available (agent : Detected) (s : Strategy) : bool :=
  match s with
  | Native => truthy (d_builtin_install agent)
  | _ => true
  end.

Definition strategies_for (method : string) (agent : Detected) : list Strategy :=
  List.filter (fun s => selected method s && available agent s) fixed_order.

Definition attempt (source : Source) (agent : Detected) (dest : Path) (s : Strategy)
  : M bool :=
  match s with
  | Native => install_builtin source (default EmptyString (d_builtin_install agent))
  | SparseCheckout => install_git_sparse source dest
  | ArchiveDownload => install_download source dest
  end.

Fixpoint first_success (source : Source) (agent : Detected) (dest : Path)
    (l : list Strategy) : M (bool * option string) :=
  match l with
  | [] => ret (false, None)
  | s :: rest =>
      ok <- attempt source agent dest s ;;
      if ok then ret (true, Some (strategy_name s))
      else first_success source agent dest rest
  end.

End Scripts.

(** Whether a logged call is a call of one of the three acquisition
    strategies. *)
Definition acquisition_call (c : Call) : bool :=
  match c with
  | CallBuiltin _ _ | CallGitSparse _ _ | CallDownload _ _ => true
  | _ => false
  end.

(** ** [detect_agents.py]: [main], and [list.py] *)

Section MoreScripts.

Variable env : Env.
Variable registry : list Agent.

(** [main] of [detect_agents.py], lines 121-152, from the parsed arguments
    on: [agent] is the value of [--agent]; the printing is left out. *)
Definition detect_main (agent : option string) : M Z :=
  if truthy agent
  then
    match List.find (fun a => String.eqb (name a) (default EmptyString agent)) registry with
    | None => ret 1
    | Some a => detect_agent env a ;;; ret 0
    end
  else detect_all env registry ;;; ret 0.

(** One entry of the list of skills of an agent, and the entry of an agent
    in the dictionary [list_skills] returns. *)
Record Skill : Type := mkSkill {
  k_name : string;
  k_path : string;
  k_symlink : bool
}.

Record Listing : Type := mkListing {
  l_display_name : string;
  l_skills_path : string;
  l_skills : list Skill
}.

(** The names of the entries of the directory [d]: [os.listdir(d)], in the
    order of the map. *)
Definition listdir (m : fsmap) (d : list string) : list string :=
  omap (fun k => match Fs.strip_prefix d k with
                 | Some [entry] => Some entry
                 | _ => None
                 end) (map_to_list m).*1.

(** The child [p / entry] that [Path.iterdir] yields: the entry is taken as
    it is. *)
Definition Path_child (p : Path) (entry : string) : Path :=
  mkPath (absolute p) (parts p ++ [entry]).

(** Lines 28-33 for one entry of the skills directory [b] (already
    resolved): the entry is listed when it leads to a directory that holds
    a [SKILL.md].  An entry that is a symbolic link is followed to its
    directory, and [SKILL.md] is looked up there. *)
Definition skill_entry (m : fsmap) (skills_path : Path) (b : list string)
    (entry : string) : option Skill :=
  match Fs.follow Fs.max_links m (b ++ [entry]) with
  | Some d =>
      match m !! d with
      | Some Fs.Dir =>
          if Fs.exists_ m (d ++ ["SKILL.md"])
          then Some (mkSkill entry (Path_str (Path_child skills_path entry))
                       (Fs.is_symlink m (b ++ [entry])))
          else None
      | _ => None
      end
  | None => None
  end.

(** [sorted(skills, key=lambda x: x["name"])]: a stable sort, by insertion
    after the entries that are not greater. *)
Fixpoint insert_by_name (x : Skill) (l : list Skill) : list Skill :=
  match l with
  | [] => [x]
  | y :: l' =>
      if String.ltb (k_name x) (k_name y) then x :: y :: l'
      else y :: insert_by_name x l'
  end.

Definition sorted_by_name (l : list Skill) : list Skill :=
  fold_left (fun acc x => insert_by_name x acc) l [].

(** Lines 23-33 and 38: the skills of one agent.  A skills path that does
    not exist gives no skill; one that is not a directory makes [iterdir]
    raise. *)
Definition skills_of (agent : Detected) : M (list Skill) :=
  fun w =>
    let skills_path := Path_of (d_skills_path agent) in
    match Fs.follow Fs.max_links (fs w) (key env skills_path) with
    | None => (Ok [], w)
    | Some b =>
        match fs w !! b with
        | Some Fs.Dir =>
            (Ok (sorted_by_name
                   (omap (skill_entry (fs w) skills_path b) (listdir (fs w) b))), w)
        | _ => (Raise NotADirectoryError, w)
        end
    end.

(** Lines 22-39: the loop over the agents. *)
Fixpoint list_each (agents : list Detected) (results : list (string * Listing))
  : M (list (string * Listing)) :=
  match agents with
  | [] => ret results
  | agent :: rest =>
      skills <- skills_of agent ;;
      list_each rest
        (dict_set (d_name agent)
           (mkListing (d_display_name agent) (d_skills_path agent) skills) results)
  end.

(** [list_skills], lines 14-41. *)
Definition list_skills (agent_filter : option string) : M (list (string * Listing)) :=
  detected <- detect_all env registry ;;
  let detected :=
    if truthy agent_filter
    then List.filter (fun a => String.eqb (d_name a) (default EmptyString agent_filter))
           detected
    else detected in
  list_each detected [].

End MoreScripts.

(** ** Notions used to state the properties *)

(** A string is free of a character when the character does not occur in it. *)
Definition free (sep : ascii) (s : string) : Prop := PyStr.contains sep s = false.

(** A segment of a path: a string that is not empty and free of the
    separator. *)
Definition segment (sep : ascii) (s : string) : Prop :=
  PyStr.nonempty s = true /\ free sep s.

(** A computation returns when it ends without raising, in every world. *)
Definition returns {A : Type} (c : M A) : Prop :=
  forall w, exists a w1, c w = (Ok a, w1).

(** A computation is quiet when it leaves the call log as it is. *)
Definition quiet {A : Type} (c : M A) : Prop :=
  forall w, calls (c w).2 = calls w.

(** A computation emits [l] when it appends exactly [l] to the call log. *)
Definition emits {A : Type} (c : M A) (l : list Call) : Prop :=
  forall w, calls (c w).2 = (calls w ++ l)%list.

(** A computation logs only calls in [P] when what it appends to the call
    log is made of such calls. *)
Definition logs_only {A : Type} (P : Call -> Prop) (c : M A) : Prop :=
  forall w, exists l, calls (c w).2 = (calls w ++ l)%list /\ Forall P l.

Definition not_acquisition (c : Call) : Prop := acquisition_call c = false.

(** Every installed target of a report was installed by [symlink], or every
    one by [copy], as the flag says. *)
Definition by_copy_or_symlink (symlink : bool) (results : Results) : Prop :=
  Forall (fun it => i_method it = Some (if symlink then "symlink" else "copy"))
         (installed results).

(** When the remove command counts as a success: it exits with 0 within
    the 30 seconds it is given. *)
Definition removes (p : proc) : bool :=
  match p with
  | Exits code _ secs => negb (30 <? secs) && (code =? 0)
  | _ => false
  end.

(** What a path that was made a directory can name: a directory, or a
    link (that led to one). *)
Definition dir_or_link (o : option Fs.node) : Prop :=
  match o with
  | Some Fs.Dir | Some (Fs.Link _) => True
  | _ => False
  end.

(** The targets a run works on: the agents detected, by name, narrowed to
    those asked for unless all are. *)
Definition targets_of (agents : option (list string)) (all : list Detected)
  : list (string * Detected) :=
  match selects agents with
  | Some wanted => List.filter (fun kv : string * Detected => mem kv.1 wanted) (by_name all)
  | None => by_name all
  end.

(** The agents an install report names, list by list. *)
Definition reported (r : Results) : list string :=
  (List.map i_agent (installed r) ++ List.map f_agent (failed r)
   ++ List.map s_agent (skipped r))%list.

(** A report has one outcome for each of [names]: it names them all, each
    once, and each of its lists keeps their order. *)
Definition one_outcome_each (r : Results) (names : list string) : Prop :=
  reported r ≡ₚ names
  /\ List.map i_agent (installed r) `sublist_of` names
  /\ List.map f_agent (failed r) `sublist_of` names
  /\ List.map s_agent (skipped r) `sublist_of` names.

(** The same for an uninstall report. *)
Definition one_removal_each (r : UResults) (names : list string) : Prop :=
  (List.map r_agent (removed r) ++ List.map n_agent (not_found r))%list ≡ₚ names
  /\ List.map r_agent (removed r) `sublist_of` names
  /\ List.map n_agent (not_found r) `sublist_of` names.

(** The segment of a GitHub URL that announces a ref: [tree] or [blob]. *)
Definition is_marker (s : string) : bool := String.eqb s "tree" || String.eqb s "blob".

(** The command [install_builtin] runs: the words of the agent's command,
    then [owner/repo] or [owner/repo/path]. *)
Definition native_install_cmd (agent_cmd : string) (source : Source) : list string :=
  let skill_ref := owner source ++ "/" ++ repo source in
  let skill_ref :=
    if PyStr.nonempty (path source) then skill_ref ++ "/" ++ path source
    else skill_ref in
  (PyStr.split_ws agent_cmd ++ [skill_ref])%list.

(** What [detect_agent] reports of an agent of the registry: its fields,
    the skills path as a string, and a version that is not empty. *)
Definition reports (agent : Agent) (d : Detected) : Prop :=
  d_name d = name agent /\ d_display_name d = display_name agent
  /\ d_skills_path d = Path_str (skills_path agent)
  /\ d_local_skills_dir d = local_skills_dir agent
  /\ d_builtin_install d = builtin_install agent
  /\ PyStr.nonempty (d_version d) = true.

(** The order of a listing: by name. *)
Definition name_le (x y : Skill) : Prop := String.leb (k_name x) (k_name y) = true.

(** A file system grows into another when the second has everything the
    first has, and new directories only. *)
Definition grows (m m1 : fsmap) : Prop :=
  forall k, m1 !! k = m !! k \/ (m !! k = None /\ m1 !! k = Some Fs.Dir).

(** What a successful [install_local] leaves: what was outside the
    destination is kept; in symlink mode the destination is a new link to
    the resolved local path; in copy mode it is a directory, and every
    entry below the local directory is there below it. *)
Definition placed (env : Env) (symlink : bool) (local_path dest : Path)
    (wa wb : World) : Prop :=
  (forall k n, Fs.under (key env dest) k = false ->
               fs wa !! k = Some n -> fs wb !! k = Some n)
  /\ if symlink
     then exists m,
            fs wb = <[key env dest := Fs.Link (Fs.realpath m (key env local_path))]> m
            /\ m !! key env dest = None
     else dir_or_link (fs wb !! key env dest)
          /\ exists s,
               Fs.follow Fs.max_links (fs wa) (key env local_path) = Some s
               /\ forall c suf n,
                    fs wa !! (s ++ c :: suf)%list = Some n ->
                    fs wb !! (key env dest ++ c :: suf)%list = Some n.

(** A call of [install_local] on a local path, in a mode. *)
Definition local_call (local_path : Path) (symlink : bool) (c : Call) : Prop :=
  exists dest, c = CallLocal local_path dest symlink.

(** An installed target of a report for which [install_local] was called
    on its destination. *)
Definition installed_by (local_path : Path) (symlink : bool) (l : list Call)
    (it : InstalledItem) : Prop :=
  exists dest, i_path it = Path_str dest /\ In (CallLocal local_path dest symlink) l.

(** An installed target of a report whose destination is there. *)
Definition present_in (env : Env) (m : fsmap) (it : InstalledItem) : Prop :=
  exists dest, i_path it = Path_str dest /\ is_Some (m !! key env dest).

(** The path operations that are plain reads and writes of the file system. *)
Create HintDb quiet.

#[local] Hint Unfold path_exists path_is_symlink path_mkdir_p path_unlink
  shutil_rmtree shutil_copytree path_symlink_to_resolved zip_extractall : quiet.

(** ** A small concrete world

    One home directory, the registry of the scripts, and an outside world
    given by a few switches; used to run the definitions above. *)

Module Demo.

(** A [urlparse] for URLs of the shape [scheme://netloc/path]. *)
Definition urlparse_simple (url : string) : ParseResult :=
  match PyStr.split "/" url with
  | _ :: _ :: host :: rest => mkParseResult host ("/" ++ PyStr.join "/" rest)
  | _ => mkParseResult EmptyString url
  end.

(** What the switches say: which programs exist, how [git clone], [git
    sparse-checkout], the agent's own install and remove commands end,
    what the archive host answers. *)
Record Switches : Type := mkSwitches {
  sw_environ : list (string * string);
  sw_programs : list string;
  sw_clone : proc;
  sw_sparse : proc;
  sw_native : proc;
  sw_http : http
}.

Definition tmp : list string := ["tmp"; "tmpq1w2e3"].

(** The tree a successful clone leaves in the temporary directory. *)
Definition cloned_tree : list (list string * Fs.node) :=
  [ (["repo"], Fs.Dir);
    (["repo"; ".git"], Fs.Dir);
    (["repo"; ".git"; "HEAD"], Fs.File "ref: refs/heads/main");
    (["repo"; "packs"], Fs.Dir);
    (["repo"; "packs"; "search"], Fs.Dir);
    (["repo"; "packs"; "search"; "SKILL.md"], Fs.File "name: search") ].

(** The content of the archive. *)
Definition archive_tree : list (list string * Fs.node) :=
  [ (["toolkit-main"], Fs.Dir);
    (["toolkit-main"; "packs"], Fs.Dir);
    (["toolkit-main"; "packs"; "search"], Fs.Dir);
    (["toolkit-main"; "packs"; "search"; "SKILL.md"], Fs.File "name: search") ].

Definition spawn_of (sw : Switches) (cmd : list string) (m : fsmap) : proc * fsmap :=
  match cmd with
  | [prog; "--version"] =>
      if mem prog (sw_programs sw) then (Exits 0 "1.0.0" 1, m) else (NoSuchProgram, m)
  | "git" :: "clone" :: _ =>
      match sw_clone sw with
      | Exits 0 out secs => (Exits 0 out secs, Fs.graft tmp cloned_tree m)
      | p => (p, m)
      end
  | "git" :: "-C" :: _ => (sw_sparse sw, m)
  | prog :: "skill" :: _ =>
      if mem prog (sw_programs sw) then (sw_native sw, m) else (NoSuchProgram, m)
  | _ => (NoSuchProgram, m)
  end.

Definition env_of (sw : Switches) : Env :=
  mkEnv ["work"] ["home"; "u"]
    (fun var => snd <$> List.find (fun kv => String.eqb kv.1 var) (sw_environ sw))
    (fun prog => mem prog (sw_programs sw))
    (spawn_of sw)
    (fun _ _ => sw_http sw)
    (fun payload => if String.eqb payload "PK" then Some archive_tree else None)
    (fun _ => tmp)
    urlparse_simple.

(** A file system with the home directory, a local skill in the working
    directory, and Cursor's configuration directory. *)
Definition fs0 : fsmap :=
  list_to_map
    [ ([], Fs.Dir); (["home"], Fs.Dir); (["home"; "u"], Fs.Dir);
      (["home"; "u"; ".cursor"], Fs.Dir);
      (["tmp"], Fs.Dir);
      (["work"], Fs.Dir); (["work"; "my-skill"], Fs.Dir);
      (["work"; "my-skill"; "SKILL.md"], Fs.File "name: my-skill") ].

Definition w0 : World := mkWorld fs0 [].

Definition ok_proc : proc := Exits 0 EmptyString 1.
Definition bad_proc : proc := Exits 1 EmptyString 1.

Definition src : Source := mkSource "acme" "toolkit" "main" "packs/search" "search".

(** The world a computation leaves. *)
Definition after {A : Type} (c : M A) (w : World) : World := (c w).2.

(** Only [git] is installed, and it works. *)
Definition sw_git : Switches := mkSwitches [] ["git"] ok_proc ok_proc ok_proc Unreachable.

(** [git] is installed; the clone works and the narrowing fails. *)
Definition sw_sparse_fails : Switches :=
  mkSwitches [] ["git"] ok_proc bad_proc ok_proc Unreachable.

(** [git] is installed and the clone takes two minutes. *)
Definition sw_clone_slow : Switches :=
  mkSwitches [] ["git"] (Exits 0 EmptyString 120) ok_proc ok_proc Unreachable.

(** No program is installed and the archive host cannot be reached. *)
Definition sw_offline : Switches := mkSwitches [] [] bad_proc bad_proc bad_proc Unreachable.

(** No program is installed and the archive host answers 404. *)
Definition sw_404 : Switches :=
  mkSwitches [] [] bad_proc bad_proc bad_proc (Response 404 "Not Found" EmptyString).

(** No program is installed and the archive host serves the archive. *)
Definition sw_archive : Switches :=
  mkSwitches [] [] bad_proc bad_proc bad_proc (Response 200 "OK" "PK").

(** Claude is installed and its own install and remove commands succeed,
    without writing to the skills directory. *)
Definition sw_claude : Switches :=
  mkSwitches [] ["claude"] bad_proc bad_proc ok_proc Unreachable.

(** Claude and Codex are installed, their own commands fail, and Codex's
    home is set to Claude's directory. *)
Definition sw_shared : Switches :=
  mkSwitches [("CODEX_HOME", "/home/u/.claude")] ["claude"; "codex"]
    bad_proc bad_proc bad_proc Unreachable.

(** [fs0] without Cursor's directory: no agent is detected. *)
Definition w_bare : World := mkWorld (delete ["home"; "u"; ".cursor"] fs0) [].

(** [fs0] with a skill directory, a link and a regular file in Cursor's
    skills directory, and a skill directory in Claude's. *)
Definition w_installed : World :=
  mkWorld
    (Fs.graft ["home"; "u"]
       [ ([".cursor"; "skills"], Fs.Dir);
         ([".cursor"; "skills"; "search"], Fs.Dir);
         ([".cursor"; "skills"; "search"; "SKILL.md"], Fs.File "name: search");
         ([".cursor"; "skills"; "linked"], Fs.Link ["work"; "my-skill"]);
         ([".cursor"; "skills"; "notes"], Fs.File "to do");
         ([".claude"], Fs.Dir);
         ([".claude"; "skills"], Fs.Dir);
         ([".claude"; "skills"; "search"], Fs.Dir);
         ([".claude"; "skills"; "search"; "SKILL.md"], Fs.File "name: search") ]
       fs0)
    [].

Definition cursor : Detected :=
  mkDetected "cursor" "Cursor" "detected" "/home/u/.cursor/skills" ".cursor/skills" None.

Definition claude : Detected :=
  mkDetected "claude" "Claude Code" "1.0.0" "/home/u/.claude/skills" ".claude/skills"
    (Some "claude skill install").

(** [git] is installed and the clone fails. *)
Definition sw_clone_fails : Switches :=
  mkSwitches [] ["git"] bad_proc ok_proc ok_proc Unreachable.

(** No program is installed and the archive host answers with a page that
    is not an archive. *)
Definition sw_bad_zip : Switches :=
  mkSwitches [] [] bad_proc bad_proc bad_proc (Response 200 "OK" "<html>").

(** [fs0] with Cursor's skills directory, and in it a link that leads
    nowhere. *)
Definition w_dangling : World :=
  mkWorld
    (Fs.graft ["home"; "u"]
       [ ([".cursor"; "skills"], Fs.Dir);
         ([".cursor"; "skills"; "my-skill"], Fs.Link ["nowhere"]) ]
       fs0)
    [].
End Demo.


(** * Properties *)

(** ** Python strings: splitting and joining *)

Section PyStrFacts.

Import PyStr.

Variable sep : ascii.

Lemma split_not_nil (s : string) : split sep s <> [].
Proof.
  destruct s as [|c s]; simpl; [discriminate|].
  destruct (Ascii.eqb c sep); [discriminate|].
  destruct (split sep s); discriminate.
Qed.

Lemma split_free (s : string) : free sep s -> split sep s = [s].
Proof.
  unfold free. induction s as [|c s IH]; simpl; [reflexivity|].
  destruct (Ascii.eqb c sep); simpl; [discriminate|].
  intros H. rewrite (IH H). reflexivity.
Qed.

Lemma split_app (x r : string) :
  free sep x -> split sep (x ++ String sep r) = x :: split sep r.
Proof.
  unfold free. induction x as [|c x IH]; simpl.
  - intros _. rewrite Ascii.eqb_refl. reflexivity.
  - destruct (Ascii.eqb c sep); simpl; [discriminate|].
    intros H. rewrite (IH H). reflexivity.
Qed.

Lemma split_join (l : list string) :
  l <> [] -> Forall (free sep) l -> split sep (join (String sep EmptyString) l) = l.
Proof.
  induction l as [|x l IH]; [congruence|].
  intros _ Hall. inversion Hall as [|? ? Hx Hl]; subst.
  destruct l as [|y l].
  - simpl. apply split_free. exact Hx.
  - change (join (String sep EmptyString) (x :: y :: l))
      with (x ++ String sep (join (String sep EmptyString) (y :: l))).
    rewrite (split_app _ _ Hx). f_equal. apply IH; [discriminate|exact Hl].
Qed.

Lemma split_length_free (s : string) :
  (List.length (split sep s) < 2)%nat <-> free sep s.
Proof.
  unfold free. induction s as [|c s IH]; simpl.
  - split; [reflexivity | lia].
  - destruct (Ascii.eqb c sep); simpl.
    + pose proof (split_not_nil s) as Hn.
      destruct (split sep s); [congruence|]. simpl. split; [lia|discriminate].
    + pose proof (split_not_nil s) as Hn.
      destruct (split sep s) as [|h t]; [congruence|]. exact IH.
Qed.

End PyStrFacts.

(** ** The parsers *)

(** C5.  A shorthand [owner/repo/seg1/.../segn] with at least one segment
    after the repository parses to the source whose subpath is the segments
    joined by slashes, whose name is the last segment and whose ref is the
    default; a shorthand with fewer than two slash-separated parts, that is,
    without any slash, is refused with [InstallError]. *)
Theorem parse_shorthand_subpath
    (o r : string) (segs : list string) (s dref : string) :
  (free "/" o -> free "/" r -> Forall (free "/") segs -> segs <> [] ->
   parse_shorthand (PyStr.join "/" (o :: r :: segs)) dref
   = Ok (mkSource o r dref (PyStr.join "/" segs) (List.last segs EmptyString)))
  /\ ((List.length (PyStr.split "/" s) < 2)%nat ->
      free "/" s
      /\ parse_shorthand s dref
         = Raise (InstallError "Invalid shorthand. Use: owner/repo[/path/to/skill]")).
Proof.
  split.
  - intros Ho Hr Hsegs Hne. unfold parse_shorthand.
    rewrite split_join by (try discriminate; repeat constructor; assumption).
    destruct segs as [|g segs]; [congruence|]. reflexivity.
  - intros Hlen. split; [apply split_length_free; exact Hlen|].
    unfold parse_shorthand.
    destruct (Nat.ltb_spec (List.length (PyStr.split "/" s)) 2); [reflexivity|lia].
Qed.

(** C5 on the shorthand of the specification's scenario and on a single word. *)
Lemma parse_shorthand_subpath_witness :
  parse_shorthand "acme/toolkit/packs/search" "main"
  = Ok (mkSource "acme" "toolkit" "main" "packs/search" "search")
  /\ parse_shorthand "toolkit" "main"
     = Raise (InstallError "Invalid shorthand. Use: owner/repo[/path/to/skill]").
Proof.
  split.
  - apply (proj1 (parse_shorthand_subpath "acme" "toolkit" ["packs"; "search"] EmptyString "main"));
      try reflexivity; [repeat constructor | discriminate].
  - apply (proj2 (parse_shorthand_subpath EmptyString EmptyString [] "toolkit" "main")).
    simpl. lia.
Defined.

(** C6.  The shorthand parser accepts strings that end in a slash and gives
    them an empty name: [owner/repo/skill/] has the subpath [skill/], whose
    last non-empty segment is [skill], and the name [EmptyString]; [owner/] has the
    empty repository and the empty name. *)
Theorem parse_shorthand_empty_name :
  parse_shorthand "owner/repo/skill/" "main"
  = Ok (mkSource "owner" "repo" "main" "skill/" EmptyString)
  /\ parse_shorthand "owner/" "main" = Ok (mkSource "owner" EmptyString "main" EmptyString EmptyString).
Proof. split; reflexivity. Qed.

(** ** The exit status of [install.py] *)

Lemma exit_status_one (results : Results) :
  exit_status results = 1 <-> (failed results <> [] /\ installed results = []).
Proof.
  unfold exit_status. destruct (failed results), (installed results); split;
    intros H; try discriminate; try reflexivity; try (destruct H; congruence).
  split; [discriminate|reflexivity].
Qed.

Lemma exit_status_zero (results : Results) :
  exit_status results = 0 <-> ~ (failed results <> [] /\ installed results = []).
Proof.
  rewrite <- exit_status_one. unfold exit_status.
  destruct (failed results), (installed results); split; intros H;
    try reflexivity; try discriminate; try (exfalso; apply H; reflexivity).
Qed.

(** C4.  When [install_skill] returns a report, [main] returns 1 exactly when
    the report has a failed target and no installed target, and 0 in every
    other case. *)
Theorem main_exit_status (env : Env) (registry : list Agent) (args : Args)
    (w w' : World) (results : Results) :
  install_skill env registry (a_source args) (Some (agents_of (a_agents args)))
    (a_symlink args) (a_method args) (a_local args) w = (Ok results, w') ->
  exists code : Z,
    main env registry args w = (Ok code, w')
    /\ (code = 1 <-> (failed results <> [] /\ installed results = []))
    /\ (code = 0 <-> ~ (failed results <> [] /\ installed results = [])).
Proof.
  intros Hrun. exists (exit_status results). split; [|split].
  - unfold main, bind, try_except. rewrite Hrun. reflexivity.
  - apply exit_status_one.
  - apply exit_status_zero.
Qed.

(** ** Computations: sequencing and the call log *)

Section MonadFacts.

Context {A B : Type}.

Lemma bind_ok (c : M A) (k : A -> M B) (w w1 : World) (a : A) :
  c w = (Ok a, w1) -> bind c k w = k a w1.
Proof. intros H. unfold bind. rewrite H. reflexivity. Qed.

Lemma bind_raise (c : M A) (k : A -> M B) (w w1 : World) (e : exn) :
  c w = (Raise e, w1) -> bind c k w = (Raise e, w1).
Proof. intros H. unfold bind. rewrite H. reflexivity. Qed.

Lemma bind_inv_ok (c : M A) (k : A -> M B) (w w' : World) (b : B) :
  bind c k w = (Ok b, w') ->
  exists a w1, c w = (Ok a, w1) /\ k a w1 = (Ok b, w').
Proof.
  unfold bind. destruct (c w) as [[a|e] w1]; intros H; [|discriminate].
  exists a, w1. split; [reflexivity|exact H].
Qed.

End MonadFacts.

Lemma returns_ret {A : Type} (a : A) : returns (ret a).
Proof. intros w. exists a, w. reflexivity. Qed.

Lemma returns_fs_ask {A : Type} (f : fsmap -> A) : returns (fs_ask f).
Proof. intros w. exists (f (fs w)), w. reflexivity. Qed.

Lemma returns_bind {A B : Type} (c : M A) (k : A -> M B) :
  returns c -> (forall a, returns (k a)) -> returns (bind c k).
Proof.
  intros Hc Hk w. destruct (Hc w) as (a & w1 & Ha).
  destruct (Hk a w1) as (b & w2 & Hb). exists b, w2.
  rewrite (bind_ok _ _ _ _ _ Ha). exact Hb.
Qed.

Section QuietFacts.

Context {A B : Type}.

Lemma quiet_ret (a : A) : quiet (ret a).
Proof. intros w. reflexivity. Qed.

Lemma quiet_raise (e : exn) : quiet (@raise A e).
Proof. intros w. reflexivity. Qed.

Lemma quiet_lift (r : result A) : quiet (lift r).
Proof. intros w. reflexivity. Qed.

Lemma quiet_bind (c : M A) (k : A -> M B) :
  quiet c -> (forall a, quiet (k a)) -> quiet (bind c k).
Proof.
  intros Hc Hk w. unfold bind. specialize (Hc w).
  destruct (c w) as [[a|e] w1]; simpl in *; [|exact Hc].
  rewrite (Hk a w1). exact Hc.
Qed.

Lemma quiet_try_except (c : M A) (h : exn -> option (M A)) :
  quiet c -> (forall e k, h e = Some k -> quiet k) -> quiet (try_except c h).
Proof.
  intros Hc Hh w. unfold try_except. specialize (Hc w).
  destruct (c w) as [[a|e] w1]; simpl in *; [exact Hc|].
  destruct (h e) as [k|] eqn:He; [|exact Hc].
  rewrite (Hh e k He w1). exact Hc.
Qed.

Lemma quiet_fs_do (f : fsmap -> result fsmap) : quiet (fs_do f).
Proof. intros w. unfold fs_do. destruct (f (fs w)); reflexivity. Qed.

Lemma quiet_fs_ask (f : fsmap -> A) : quiet (fs_ask f).
Proof. intros w. reflexivity. Qed.

Lemma quiet_subprocess_run (env : Env) cmd timeout check :
  quiet (subprocess_run env cmd timeout check).
Proof.
  intros w. unfold subprocess_run.
  destruct (spawn env cmd (fs w)) as [p m]. destruct p; try reflexivity.
  destruct timeout as [t|].
  - destruct (t <? seconds); [reflexivity|].
    destruct (check && negb (returncode =? 0)); reflexivity.
  - destruct (check && negb (returncode =? 0)); reflexivity.
Qed.

Lemma quiet_with_TemporaryDirectory (env : Env) (body : Path -> M A) :
  (forall tmp, quiet (body tmp)) -> quiet (with_TemporaryDirectory env body).
Proof.
  intros Hb w. unfold with_TemporaryDirectory.
  specialize (Hb (mkPath true (mkdtemp env (fs w)))
                 (set_fs w (<[mkdtemp env (fs w) := Fs.Dir]> (fs w)))).
  destruct (body _ _) as [r w1]. exact Hb.
Qed.

Lemma quiet_urlopen_read (env : Env) url auth : quiet (urlopen_read env url auth).
Proof.
  intros w. unfold urlopen_read. destruct (http_get env url auth); [|reflexivity].
  destruct ((200 <=? status) && (status <? 300)); reflexivity.
Qed.

Lemma emits_log_then (c : Call) (k : M A) :
  quiet k -> emits (log c ;;; k) [c].
Proof. intros Hk w. unfold bind, log. simpl. rewrite (Hk _). reflexivity. Qed.

Lemma emits_nil (c : M A) : quiet c -> emits c [].
Proof. intros H w. rewrite (H w), app_nil_r. reflexivity. Qed.

End QuietFacts.

(** Takes a computation apart, down to operations that are quiet. *)
Ltac quiet_handler :=
  let e := fresh "e" in let k := fresh "k" in let Hk := fresh "Hk" in
  intros e k Hk; destruct e; simpl in Hk; try discriminate Hk;
  injection Hk as <-.

Ltac quiet_tac :=
  repeat first
    [ apply quiet_ret | apply quiet_raise | apply quiet_lift
    | apply quiet_fs_do | apply quiet_fs_ask
    | apply quiet_subprocess_run | apply quiet_urlopen_read
    | apply quiet_bind; [|intros ?]
    | apply quiet_try_except; [|quiet_handler]
    | apply quiet_with_TemporaryDirectory; intros ?
    | progress autounfold with quiet
    | match goal with
      | |- quiet (if ?b then _ else _) => destruct b
      | |- quiet (match ?x with _ => _ end) => destruct x
      end ].

Section ScriptFacts.

Variable env : Env.
Variable registry : list Agent.

Lemma quiet_detect_agent (agent : Agent) : quiet (detect_agent env agent).
Proof. unfold detect_agent. quiet_tac. Qed.

Lemma quiet_detect_each (agents : list Agent) (detected : list Detected) :
  quiet (detect_each env agents detected).
Proof.
  revert detected. induction agents as [|a agents IH]; intros detected; simpl.
  - apply quiet_ret.
  - apply quiet_bind; [apply quiet_detect_agent|].
    intros [d|]; apply IH.
Qed.

Lemma quiet_detect_all : quiet (detect_all env registry).
Proof. apply quiet_detect_each. Qed.

(** On the three outcomes of a sub-process, detection returns: a timeout
    and a missing program are caught. *)
Lemma returns_probe (cmd : list string) :
  returns
    (try_except
       (r <- subprocess_run env cmd (Some 5) false ;;
        if r.1 =? 0
        then ret (Some (nth 0 (PyStr.split PyStr.LF (PyStr.strip r.2)) EmptyString))
        else ret None)
       (fun e => match e with
                 | TimeoutExpired _ | FileNotFoundError => Some (ret None)
                 | _ => None
                 end)).
Proof.
  intros w. unfold try_except, bind, subprocess_run, ret.
  destruct (spawn env cmd (fs w)) as [p m]. destruct p; simpl; eauto.
  destruct (5 <? seconds); simpl; eauto.
  destruct (returncode =? 0); eauto.
Qed.

Lemma returns_detect_agent (agent : Agent) : returns (detect_agent env agent).
Proof.
  unfold detect_agent.
  apply returns_bind; [|intros v1; apply returns_bind; [|intros v2]].
  - destruct (detect_cmd agent) as [[|c0 rest]|]; try apply returns_ret.
    destruct (which env c0); [apply returns_probe|apply returns_ret].
  - destruct (detect_path agent); [|apply returns_ret].
    apply returns_bind; [apply returns_fs_ask|].
    intros [|]; apply returns_ret.
  - destruct v2 as [v|]; [destruct (PyStr.nonempty v)|]; apply returns_ret.
Qed.

Lemma returns_detect_each (agents : list Agent) (detected : list Detected) :
  returns (detect_each env agents detected).
Proof.
  revert detected. induction agents as [|a agents IH]; intros detected; simpl.
  - apply returns_ret.
  - apply returns_bind; [apply returns_detect_agent|].
    intros [d|]; apply IH.
Qed.

Lemma returns_detect_all : returns (detect_all env registry).
Proof. apply returns_detect_each. Qed.

End ScriptFacts.

(** ** Target selection *)

Section Selection.

Lemma dict_set_names (d : Detected) (acc : list (string * Detected)) (l : list Detected) :
  Forall (fun kv => kv.1 = d_name kv.2 /\ In kv.2 l) acc ->
  In d l ->
  Forall (fun kv => kv.1 = d_name kv.2 /\ In kv.2 l) (dict_set (d_name d) d acc).
Proof.
  intros Hacc Hd. induction acc as [|[k v] acc IH]; simpl.
  - repeat constructor. exact Hd.
  - inversion Hacc as [|? ? Hkv Hrest]; subst.
    destruct (String.eqb k (d_name d)).
    + constructor; [split; [reflexivity|exact Hd]|exact Hrest].
    + constructor; [exact Hkv|apply IH; exact Hrest].
Qed.

Lemma fold_dict_set_names (l l0 : list Detected) (acc : list (string * Detected)) :
  Forall (fun kv => kv.1 = d_name kv.2 /\ In kv.2 l0) acc ->
  (forall d, In d l -> In d l0) ->
  Forall (fun kv => kv.1 = d_name kv.2 /\ In kv.2 l0)
         (fold_left (fun d a => dict_set (d_name a) a d) l acc).
Proof.
  revert acc. induction l as [|a l IH]; intros acc Hacc Hin; simpl; [exact Hacc|].
  apply IH.
  - apply dict_set_names; [exact Hacc|apply Hin; left; reflexivity].
  - intros d Hd. apply Hin. right. exact Hd.
Qed.

(** Every key of [by_name l] is the name of an element of [l]. *)
Lemma by_name_names (l : list Detected) :
  Forall (fun kv => kv.1 = d_name kv.2 /\ In kv.2 l) (by_name l).
Proof. apply fold_dict_set_names; [constructor|auto]. Qed.

Lemma filter_by_name_none (l : list Detected) (wanted : list string) :
  (forall d, In d l -> mem (d_name d) wanted = false) ->
  List.filter (fun kv : string * Detected => mem kv.1 wanted) (by_name l) = [].
Proof.
  intros Hno. pose proof (by_name_names l) as Hall.
  induction (by_name l) as [|[k v] rest IH]; [reflexivity|].
  inversion Hall as [|? ? [Hk Hv] Hrest]; subst. simpl in *.
  rewrite Hk, (Hno v Hv). apply IH. exact Hrest.
Qed.

End Selection.

(** ** Uninstalling when no target is selected *)

(** C10.  Detection always returns.  When it finds no agent, or when the
    agents asked for on the command line match none of those found, then
    [uninstall_skill] returns the empty report and [main] of [uninstall.py]
    returns 1, whereas [install_skill] raises [InstallError] in the same
    world, whatever its other arguments. *)
Theorem uninstall_no_targets (env : Env) (registry : list Agent)
    (skill agents : string) (w : World) :
  exists (all : list Detected) (w1 : World),
    detect_all env registry w = (Ok all, w1)
    /\ ((all = []
         \/ exists wanted, selects (Some (agents_of agents)) = Some wanted
                           /\ forall d, In d all -> mem (d_name d) wanted = false) ->
        uninstall_skill env registry skill (Some (agents_of agents)) w
        = (Ok (mkUResults [] []), w1)
        /\ uninstall_main env registry skill agents w = (Ok 1, w1)
        /\ forall source_str symlink method local,
             exists msg w2,
               install_skill env registry source_str (Some (agents_of agents))
                 symlink method local w = (Raise (InstallError msg), w2)).
Proof.
  destruct (returns_detect_all env registry w) as (all & w1 & Hdet).
  exists all, w1. split; [exact Hdet|]. intros Hsel.
  assert (Hun : uninstall_skill env registry skill (Some (agents_of agents)) w
                = (Ok (mkUResults [] []), w1)).
  { unfold uninstall_skill. rewrite (bind_ok _ _ _ _ _ Hdet).
    destruct Hsel as [->|(wanted & Hw & Hno)]; [reflexivity|].
    rewrite Hw, (filter_by_name_none all wanted Hno).
    destruct (by_name all); reflexivity. }
  split; [exact Hun|]. split.
  - unfold uninstall_main. rewrite (bind_ok _ _ _ _ _ Hun). reflexivity.
  - intros source_str symlink method local. unfold install_skill.
    destruct (parse_source env source_str w) as [[parsed|e] w0] eqn:Hparse.
    + assert (w0 = w) as ->.
      { revert Hparse. unfold parse_source, bind, path_exists, fs_ask, lift, ret.
        destruct (Fs.exists_ _ _); [congruence|].
        destruct (PyStr.startswith "http" source_str).
        - destruct (parse_github_url _ _ _); congruence.
        - destruct (parse_shorthand _ _); congruence. }
      rewrite (bind_ok _ _ _ _ _ Hparse), (bind_ok _ _ _ _ _ Hdet).
      destruct Hsel as [->|(wanted & Hw & Hno)]; [simpl; eauto|].
      rewrite Hw, (filter_by_name_none all wanted Hno).
      destruct (by_name all); simpl; eauto.
    + rewrite (bind_raise _ _ _ _ _ Hparse).
      revert Hparse. unfold parse_source, bind, path_exists, fs_ask, lift, ret.
      destruct (Fs.exists_ _ _); [discriminate|].
      destruct (PyStr.startswith "http" source_str).
      * unfold parse_github_url, parse_github_parsed.
        repeat match goal with
               | |- context [if ?b then _ else _] => destruct b
               end; intros H; inversion H; subst; eauto.
      * unfold parse_shorthand.
        destruct (_ <? _)%nat; intros H; inversion H; subst; eauto.
Qed.

(** ** The strategies and the call log *)

Section StrategyFacts.

Variable env : Env.

Lemma bind_fs_ask {A B : Type} (f : fsmap -> A) (k : A -> M B) (w : World) :
  bind (fs_ask f) k w = k (f (fs w)) w.
Proof. reflexivity. Qed.

Lemma bind_ret {A B : Type} (a : A) (k : A -> M B) (w : World) :
  bind (ret a) k w = k a w.
Proof. reflexivity. Qed.

Lemma quiet_github_request (url : string) : quiet (github_request env url).
Proof. unfold github_request. quiet_tac. Qed.

Lemma emits_install_builtin (source : Source) (agent_cmd : string) :
  emits (install_builtin env source agent_cmd) [CallBuiltin source agent_cmd].
Proof. unfold install_builtin. apply emits_log_then. quiet_tac. Qed.

Lemma emits_install_git_sparse (source : Source) (dest : Path) :
  emits (install_git_sparse env source dest) [CallGitSparse source dest].
Proof. unfold install_git_sparse. apply emits_log_then. quiet_tac. Qed.

Lemma emits_install_download (source : Source) (dest : Path) :
  emits (install_download env source dest) [CallDownload source dest].
Proof.
  unfold install_download. apply emits_log_then.
  apply quiet_bind.
  - apply quiet_try_except; [|quiet_handler; apply quiet_ret].
    apply quiet_bind; [apply quiet_github_request|intros; apply quiet_ret].
  - intros fetched. quiet_tac.
Qed.

Lemma emits_install_local (local_path dest : Path) (symlink : bool) :
  emits (install_local env local_path dest symlink) [CallLocal local_path dest symlink].
Proof. unfold install_local. apply emits_log_then. quiet_tac. Qed.

(** On the three outcomes of a sub-process, the native delegation returns:
    a timeout and a missing program are caught. *)
Lemma returns_install_builtin (source : Source) (agent_cmd : string) :
  returns (install_builtin env source agent_cmd).
Proof.
  intros w. unfold install_builtin, log, bind, try_except, subprocess_run, ret.
  cbn [fs calls].
  destruct (spawn env _ (fs w)) as [p m]. destruct p; simpl; eauto.
  destruct (60 <? seconds); simpl; eauto.
Qed.

(** The script's chain of three conditionals is the attempt, in the fixed
    order, of the strategies the mode selects. *)
Lemma install_from_github_first_success (source : Source) (agent : Detected)
    (dest : Path) (method : string) (w : World) :
  install_from_github env source agent dest method w
  = first_success env source agent dest (strategies_for method agent) w.
Proof.
  unfold install_from_github, strategies_for, selected, is_method, fixed_order.
  cbn [List.filter strategy_name available].
  destruct (String.eqb method "auto" || String.eqb method "builtin");
    destruct (String.eqb method "auto" || String.eqb method "git");
    destruct (String.eqb method "auto" || String.eqb method "download");
    destruct (truthy (d_builtin_install agent));
    cbn [List.filter andb first_success attempt strategy_name];
    generalize (install_builtin env source (default EmptyString (d_builtin_install agent)));
    generalize (install_git_sparse env source dest);
    generalize (install_download env source dest);
    intros d g b; unfold bind, ret; simpl;
    try (destruct (b w) as [[[|]|?] w1]; simpl);
    try (destruct (g _) as [[[|]|?] w2]; simpl);
    try (destruct (d _) as [[[|]|?] w3]; simpl);
    reflexivity.
Qed.

End StrategyFacts.

(** ** The installer on one target *)

Section InstallFacts.

Variable env : Env.

(** A target that is not skipped and whose source is not a local path
    gets the outcome of the repository strategies. *)
Lemma install_to_agent_repository (local_path : Path) (source : Source)
    (skill_name : string) (symlink : bool) (method : string) (local : bool)
    (results : Results) (agent_name : string) (agent : Detected) (w : World) :
  Fs.exists_ (fs w) (key env (dest_of env agent skill_name local)) && negb symlink = false ->
  Fs.exists_ (fs w) (key env local_path) = false ->
  install_to_agent env local_path (Some source) skill_name symlink method local
    results agent_name agent w
  = (st <- install_from_github env source agent (dest_of env agent skill_name local) method ;;
     ret (record_outcome results agent_name (dest_of env agent skill_name local) st)) w.
Proof.
  intros Hskip Hlocal. unfold install_to_agent, path_exists.
  rewrite bind_fs_ask, Hskip. cbv beta iota.
  rewrite bind_fs_ask, Hlocal. reflexivity.
Qed.

(** A target whose destination exists is skipped unless symlinks are asked
    for, and the world stays as it is. *)
Lemma install_to_agent_skipped (local_path : Path) (source : option Source)
    (skill_name : string) (method : string) (local : bool)
    (results : Results) (agent_name : string) (agent : Detected) (w : World) :
  Fs.exists_ (fs w) (key env (dest_of env agent skill_name local)) = true ->
  install_to_agent env local_path source skill_name false method local
    results agent_name agent w
  = (Ok (record_skipped results agent_name (dest_of env agent skill_name local)), w).
Proof.
  intros Hex. unfold install_to_agent, path_exists.
  rewrite bind_fs_ask, Hex. reflexivity.
Qed.

End InstallFacts.

(** ** The archive download on an HTTP error *)

Lemma github_request_http_error (env : Env) (url reason body : string) (status : Z)
    (w : World) :
  http_get env url (authorization env) = Response status reason body ->
  400 <= status ->
  github_request env url w
  = (Raise (InstallError ("HTTP " ++ pretty status ++ ": " ++ reason)), w).
Proof.
  intros Hget Hst. unfold github_request, try_except, urlopen_read. rewrite Hget.
  replace ((200 <=? status) && (status <? 300)) with false by lia.
  reflexivity.
Qed.

(** C7.  When the archive host answers with a status of 400 or more,
    [install_download] returns [False] and the file system is as before: the
    destination is neither created nor changed.  With the method
    [download], a target that is not skipped and whose source is not a local
    path is then recorded as failed, again with the file system as before. *)
Theorem install_download_http_error (env : Env) (source : Source) (dest : Path)
    (status : Z) (reason body : string) (w : World) :
  http_get env (zip_url source) (authorization env) = Response status reason body ->
  400 <= status ->
  install_download env source dest w
  = (Ok false, mkWorld (fs w) (calls w ++ [CallDownload source dest]))
  /\ forall local_path skill_name symlink local results agent_name agent,
       dest = dest_of env agent skill_name local ->
       Fs.exists_ (fs w) (key env dest) && negb symlink = false ->
       Fs.exists_ (fs w) (key env local_path) = false ->
       install_to_agent env local_path (Some source) skill_name symlink "download"
         local results agent_name agent w
       = (Ok (mkResults (installed results)
                (failed results ++ [mkFailed agent_name (Path_str dest)])
                (skipped results)),
          mkWorld (fs w) (calls w ++ [CallDownload source dest])).
Proof.
  intros Hget Hst.
  assert (Hdl : install_download env source dest w
                = (Ok false, mkWorld (fs w) (calls w ++ [CallDownload source dest]))).
  { unfold install_download, log, try_except, bind.
    rewrite (github_request_http_error env _ reason body status _ Hget Hst).
    reflexivity. }
  split; [exact Hdl|].
  intros local_path skill_name symlink local results agent_name agent -> Hskip Hlocal.
  rewrite install_to_agent_repository by assumption.
  unfold bind. rewrite install_from_github_first_success.
  change (strategies_for "download" agent) with [ArchiveDownload].
  cbn [first_success attempt]. unfold bind. rewrite Hdl. reflexivity.
Qed.

(** ** The order of the strategies *)

Section StrategyOrder.

Variable env : Env.

(** A success of [first_success] carries the name of one of the strategies
    it was given, and a failure carries no name. *)
Lemma first_success_name (source : Source) (agent : Detected) (dest : Path)
    (l : list Strategy) (w w1 : World) (ok : bool) (used : option string) :
  first_success env source agent dest l w = (Ok (ok, used), w1) ->
  if ok then exists s, In s l /\ used = Some (strategy_name s)
  else used = None.
Proof.
  revert w. induction l as [|s l IH]; intros w; cbn [first_success].
  - unfold ret. intros H. injection H as <- <- _. reflexivity.
  - intros H. apply bind_inv_ok in H. destruct H as ([|] & w0 & _ & H).
    + unfold ret in H. injection H as <- <- _. exists s. split; [left|]; reflexivity.
    + specialize (IH _ H). destruct ok; [|exact IH].
      destruct IH as (s' & Hin & Hs'). exists s'. split; [right; exact Hin|exact Hs'].
Qed.

(** C2.  For a repository source and a target, in every mode, the script
    attempts the strategies the mode selects in the fixed order native,
    sparse checkout, download, up to the first that succeeds
    ([first_success]); the mode [auto] selects all of them (native only
    when the target has a native command) and a mode that names a
    strategy selects that one only.  When the target has no native
    command and the sparse checkout returns [False], the download is
    called next and decides the outcome.  The target is recorded as
    installed with the name of the strategy that succeeded, and as failed
    when none did. *)
Theorem install_strategy_order (source : Source) (agent : Detected)
    (skill_name : string) (local : bool) (method : string) (w : World) :
  let dest := dest_of env agent skill_name local in
  install_from_github env source agent dest method w
  = first_success env source agent dest (strategies_for method agent) w
  /\ (strategies_for "auto" agent
      = if truthy (d_builtin_install agent)
        then [Native; SparseCheckout; ArchiveDownload]
        else [SparseCheckout; ArchiveDownload])
  /\ (strategies_for "builtin" agent
      = if truthy (d_builtin_install agent) then [Native] else [])
  /\ strategies_for "git" agent = [SparseCheckout]
  /\ strategies_for "download" agent = [ArchiveDownload]
  /\ (truthy (d_builtin_install agent) = false ->
      forall w1, install_git_sparse env source dest w = (Ok false, w1) ->
      exists r w2,
        install_download env source dest w1 = (r, w2)
        /\ In (CallDownload source dest) (calls w2)
        /\ install_from_github env source agent dest "auto" w
           = (match r with
              | Ok ok => Ok (ok, if ok then Some "download" else None)
              | Raise e => Raise e
              end, w2))
  /\ (forall local_path symlink results agent_name ok used w1,
        Fs.exists_ (fs w) (key env dest) && negb symlink = false ->
        Fs.exists_ (fs w) (key env local_path) = false ->
        install_from_github env source agent dest method w = (Ok (ok, used), w1) ->
        install_to_agent env local_path (Some source) skill_name symlink method local
          results agent_name agent w
        = (Ok (record_outcome results agent_name dest (ok, used)), w1)
        /\ if ok
           then exists s, In s (strategies_for method agent)
                          /\ used = Some (strategy_name s)
                          /\ installed (record_outcome results agent_name dest (ok, used))
                             = (installed results
                                ++ [mkInstalled agent_name (Path_str dest)
                                      (Some (strategy_name s))])%list
           else failed (record_outcome results agent_name dest (ok, used))
                = (failed results ++ [mkFailed agent_name (Path_str dest)])%list).
Proof.
  intros dest. split; [apply install_from_github_first_success|].
  split; [unfold strategies_for, available;
          destruct (truthy (d_builtin_install agent)); reflexivity|].
  split; [unfold strategies_for, available;
          destruct (truthy (d_builtin_install agent)); reflexivity|].
  split; [unfold strategies_for, available;
          destruct (truthy (d_builtin_install agent)); reflexivity|].
  split; [unfold strategies_for, available;
          destruct (truthy (d_builtin_install agent)); reflexivity|].
  split.
  - intros Hnone w1 Hgit.
    destruct (install_download env source dest w1) as [r w2] eqn:Hdl.
    exists r, w2. split; [reflexivity|]. split.
    + pose proof (emits_install_download env source dest w1) as Hlog.
      rewrite Hdl in Hlog. simpl in Hlog. rewrite Hlog.
      apply in_or_app. right. left. reflexivity.
    + rewrite install_from_github_first_success.
      replace (strategies_for "auto" agent) with [SparseCheckout; ArchiveDownload]
        by (unfold strategies_for, available; rewrite Hnone; reflexivity).
      cbn [first_success attempt].
      rewrite (bind_ok _ _ _ _ _ Hgit). unfold bind. rewrite Hdl.
      destruct r as [[|]|e]; reflexivity.
  - intros local_path symlink results agent_name ok used w1 Hskip Hlocal Hrun.
    split.
    + rewrite install_to_agent_repository by assumption.
      rewrite (bind_ok _ _ _ _ _ Hrun). reflexivity.
    + rewrite install_from_github_first_success in Hrun.
      apply first_success_name in Hrun. destruct ok.
      * destruct Hrun as (s & Hin & ->). exists s. repeat split; assumption.
      * reflexivity.
Qed.

End StrategyOrder.

(** ** Local sources *)

Lemma logs_only_quiet {A : Type} (P : Call -> Prop) (c : M A) :
  quiet c -> logs_only P c.
Proof.
  intros H w. exists []. rewrite app_nil_r. split; [apply H|constructor].
Qed.

Lemma logs_only_emits {A : Type} (P : Call -> Prop) (c : M A) (l : list Call) :
  emits c l -> Forall P l -> logs_only P c.
Proof. intros H Hl w. exists l. split; [apply H|exact Hl]. Qed.

Lemma logs_only_bind {A B : Type} (P : Call -> Prop) (c : M A) (k : A -> M B) :
  logs_only P c -> (forall a, logs_only P (k a)) -> logs_only P (bind c k).
Proof.
  intros Hc Hk w. unfold bind. destruct (Hc w) as (l1 & H1 & HP1).
  destruct (c w) as [[a|e] w1]; simpl in *.
  - destruct (Hk a w1) as (l2 & H2 & HP2). exists (l1 ++ l2)%list.
    rewrite H2, H1, app_assoc. split; [reflexivity|].
    apply Forall_app. split; assumption.
  - exists l1. split; assumption.
Qed.

Lemma bind_ext {A B : Type} (c : M A) (k1 k2 : A -> M B) (w : World) :
  (forall a w1, k1 a w1 = k2 a w1) -> bind c k1 w = bind c k2 w.
Proof. intros H. unfold bind. destruct (c w) as [[a|e] w1]; [apply H|reflexivity]. Qed.

Section LocalSource.

Variable env : Env.
Variable registry : list Agent.

Lemma parse_source_local (source_str : string) (w : World) :
  Fs.exists_ (fs w) (key env (Path_of source_str)) = true ->
  parse_source env source_str w = (Ok (None, Path_name (Path_of source_str)), w).
Proof.
  intros Hex. unfold parse_source, path_exists. rewrite bind_fs_ask, Hex. reflexivity.
Qed.

Lemma install_to_agents_any_method (local_path : Path) (skill_name : string)
    (symlink : bool) (m1 m2 : string) (local : bool)
    (targets : list (string * Detected)) (results : Results) (w : World) :
  install_to_agents env local_path None skill_name symlink m1 local results targets w
  = install_to_agents env local_path None skill_name symlink m2 local results targets w.
Proof.
  revert results w. induction targets as [|[agent_name agent] rest IH];
    intros results w; [reflexivity|].
  cbn [install_to_agents].
  change (install_to_agent env local_path None skill_name symlink m1 local results
            agent_name agent)
    with (install_to_agent env local_path None skill_name symlink m2 local results
            agent_name agent).
  apply bind_ext. intros a w1. apply IH.
Qed.

Lemma logs_only_install_to_agent (local_path : Path) (skill_name : string)
    (symlink : bool) (method : string) (local : bool) (results : Results)
    (agent_name : string) (agent : Detected) :
  logs_only not_acquisition
    (install_to_agent env local_path None skill_name symlink method local results
       agent_name agent).
Proof.
  unfold install_to_agent.
  apply logs_only_bind; [apply logs_only_quiet; quiet_tac|].
  intros dex. destruct (dex && negb symlink); [apply logs_only_quiet; quiet_tac|].
  apply logs_only_bind; [apply logs_only_quiet; quiet_tac|].
  intros lex. apply logs_only_bind; [|intros; apply logs_only_quiet; quiet_tac].
  destruct lex; [|apply logs_only_quiet; quiet_tac].
  apply logs_only_bind; [|intros; apply logs_only_quiet; quiet_tac].
  eapply logs_only_emits; [apply emits_install_local|].
  repeat constructor.
Qed.

Lemma logs_only_install_to_agents (local_path : Path) (skill_name : string)
    (symlink : bool) (method : string) (local : bool)
    (targets : list (string * Detected)) (results : Results) :
  logs_only not_acquisition
    (install_to_agents env local_path None skill_name symlink method local results targets).
Proof.
  revert results. induction targets as [|[agent_name agent] rest IH]; intros results.
  - apply logs_only_quiet, quiet_ret.
  - cbn [install_to_agents]. apply logs_only_bind.
    + apply logs_only_install_to_agent.
    + intros r. apply IH.
Qed.

Lemma install_to_agent_local_method (local_path : Path) (skill_name : string)
    (symlink : bool) (method : string) (local : bool) (results results' : Results)
    (agent_name : string) (agent : Detected) (w w' : World) :
  by_copy_or_symlink symlink results ->
  install_to_agent env local_path None skill_name symlink method local results
    agent_name agent w = (Ok results', w') ->
  by_copy_or_symlink symlink results'.
Proof.
  intros Hres. unfold install_to_agent, path_exists. rewrite bind_fs_ask.
  destruct (_ && negb symlink).
  - unfold ret. intros H. injection H as <- _. exact Hres.
  - rewrite bind_fs_ask. destruct (Fs.exists_ _ _).
    + intros H. apply bind_inv_ok in H. destruct H as (st & w1 & Hst & H).
      apply bind_inv_ok in Hst. destruct Hst as (ok & w2 & _ & Hst).
      unfold ret in Hst, H. injection Hst as <- _. injection H as <- _.
      unfold record_outcome, by_copy_or_symlink. destruct ok; cbn; [|exact Hres].
      apply Forall_app. split; [exact Hres|repeat constructor].
    + rewrite bind_ret. unfold ret. intros H. injection H as <- _. exact Hres.
Qed.

Lemma install_to_agents_local_method (local_path : Path) (skill_name : string)
    (symlink : bool) (method : string) (local : bool)
    (targets : list (string * Detected)) (results results' : Results) (w w' : World) :
  by_copy_or_symlink symlink results ->
  install_to_agents env local_path None skill_name symlink method local results
    targets w = (Ok results', w') ->
  by_copy_or_symlink symlink results'.
Proof.
  revert results w. induction targets as [|[agent_name agent] rest IH];
    intros results w Hres; cbn [install_to_agents].
  - unfold ret. intros H. injection H as <- _. exact Hres.
  - intros H. apply bind_inv_ok in H. destruct H as (r1 & w1 & H1 & H).
    eapply IH; [|exact H]. eapply install_to_agent_local_method; eassumption.
Qed.

(** When the source string names an existing path, [install_skill] gives
    the same result and the same world for every two values of [method];
    it appends no call of an acquisition strategy to the call log; and
    every target it reports as installed is labelled [symlink] when
    symlinks are asked for and [copy] otherwise. *)
Lemma install_local_any_method (source_str : string)
    (agents : option (list string)) (symlink local : bool) (m1 m2 : string)
    (w : World) :
  Fs.exists_ (fs w) (key env (Path_of source_str)) = true ->
  install_skill env registry source_str agents symlink m1 local w
  = install_skill env registry source_str agents symlink m2 local w
  /\ (exists l,
        calls (install_skill env registry source_str agents symlink m1 local w).2
        = (calls w ++ l)%list
        /\ Forall (fun c => acquisition_call c = false) l)
  /\ (forall results w1,
        install_skill env registry source_str agents symlink m1 local w
        = (Ok results, w1) ->
        Forall (fun it => i_method it = Some (if symlink then "symlink" else "copy"))
               (installed results)).
Proof.
  intros Hex. pose proof (parse_source_local source_str w Hex) as Hparse.
  destruct (returns_detect_all env registry w) as (all & w1 & Hdet).
  assert (Hrun : forall m,
    install_skill env registry source_str agents symlink m local w
    = match by_name all with
      | [] => (Raise (InstallError "No AI agents detected on this system."), w1)
      | _ =>
          (target_agents <-
             match selects agents with
             | Some wanted =>
                 match List.filter (fun kv : string * Detected => mem kv.1 wanted)
                         (by_name all) with
                 | [] => raise (InstallError "None of the specified agents found")
                 | t => ret t
                 end
             | None => ret (by_name all)
             end ;;
           install_to_agents env (Path_of source_str) None
             (Path_name (Path_of source_str)) symlink m local (mkResults [] [] [])
             target_agents) w1
      end).
  { intros m. unfold install_skill.
    rewrite (bind_ok _ _ _ _ _ Hparse), (bind_ok _ _ _ _ _ Hdet).
    destruct (by_name all) as [|d0 ds]; [reflexivity|].
    destruct (selects agents) as [wanted|]; [|reflexivity].
    destruct (List.filter _ _); reflexivity. }
  assert (Hq : calls w1 = calls w).
  { pose proof (quiet_detect_all env registry w) as H. rewrite Hdet in H. exact H. }
  split; [|split].
  - rewrite !Hrun. destruct (by_name all) as [|d0 ds]; [reflexivity|].
    apply bind_ext. intros ts w2. apply install_to_agents_any_method.
  - rewrite Hrun. destruct (by_name all) as [|d0 ds].
    + exists []. rewrite app_nil_r. split; [exact Hq|constructor].
    + rewrite <- Hq.
      match goal with
      | |- context [bind ?c ?k w1] =>
          assert (Hl : logs_only not_acquisition (bind c k))
      end.
      { apply logs_only_bind.
        - apply logs_only_quiet.
          destruct (selects agents); [destruct (List.filter _ _)|]; quiet_tac.
        - intros ts. apply logs_only_install_to_agents. }
      apply Hl.
  - intros results w2. rewrite Hrun. destruct (by_name all) as [|d0 ds]; [discriminate|].
    intros H. apply bind_inv_ok in H. destruct H as (ts & w3 & _ & H).
    eapply install_to_agents_local_method; [|exact H]. constructor.
Qed.

End LocalSource.

(** ** The file system: what the operations leave in place *)

Section FsFacts.

Import Fs.

Implicit Types (m : fsmap) (k p d : list string).

Lemma strip_prefix_snoc p (x : string) : strip_prefix (p ++ [x]) p = None.
Proof.
  induction p as [|a p IH]; simpl; [reflexivity|].
  rewrite String.eqb_refl. exact IH.
Qed.

Lemma under_snoc p (x : string) : under (p ++ [x]) p = false.
Proof. unfold under. rewrite strip_prefix_snoc. reflexivity. Qed.

Lemma strip_prefix_refl p : strip_prefix p p = Some [].
Proof.
  induction p as [|a p IH]; simpl; [reflexivity|].
  rewrite String.eqb_refl. exact IH.
Qed.

Lemma strip_prefix_Some p k suf : strip_prefix p k = Some suf -> k = (p ++ suf)%list.
Proof.
  revert k. induction p as [|a p IH]; intros k; simpl.
  - intros H. injection H as <-. reflexivity.
  - destruct k as [|b k]; [discriminate|].
    destruct (String.eqb_spec a b) as [->|]; [|discriminate].
    intros H. rewrite (IH _ H). reflexivity.
Qed.

Lemma prune_lookup_out m p k : under p k = false -> prune m p !! k = m !! k.
Proof.
  intros Hout. unfold prune. rewrite map_lookup_filter.
  destruct (m !! k) as [n|]; [|reflexivity]. simpl.
  rewrite option_guard_True by exact Hout. reflexivity.
Qed.

Lemma prune_lookup_in m p k : under p k = true -> prune m p !! k = None.
Proof.
  intros Hin. unfold prune. apply map_lookup_filter_None_2.
  destruct (m !! k) as [n|]; [right|left; reflexivity].
  intros x _. simpl. rewrite Hin. discriminate.
Qed.

Lemma graft_lookup_out d (es : list (list string * node)) m k :
  (forall e, In e es -> (d ++ e.1)%list <> k) ->
  graft d es m !! k = m !! k.
Proof.
  induction es as [|e es IH]; intros Hout; simpl; [reflexivity|].
  rewrite lookup_insert_ne by (apply Hout; left; reflexivity).
  apply IH. intros e' He'. apply Hout. right. exact He'.
Qed.

Lemma graft_present d (es : list (list string * node)) m k :
  is_Some (m !! k) -> is_Some (graft d es m !! k).
Proof.
  intros Hk. induction es as [|e es IH]; simpl; [exact Hk|].
  apply lookup_insert_is_Some'. right. exact IH.
Qed.

Lemma subtree_below m p (e : list string * node) : In e (subtree m p) -> e.1 <> [].
Proof.
  unfold subtree. rewrite <- list_elem_of_In, list_elem_of_omap.
  intros ([k n] & _ & He). simpl in He.
  destruct (strip_prefix p k) as [[|c suf]|]; try discriminate.
  injection He as <-. discriminate.
Qed.

Lemma ensure_dir_present (last : bool) m m1 k :
  ensure_dir last m k = Ok m1 ->
  is_Some (m1 !! k) /\ forall k', is_Some (m !! k') -> is_Some (m1 !! k').
Proof.
  unfold ensure_dir. destruct (m !! k) as [n|] eqn:Hk.
  - destruct (is_dir m k); [|discriminate]. intros H. injection H as <-.
    split; [rewrite Hk; eauto|auto].
  - intros H. injection H as <-. split.
    + rewrite lookup_insert_eq. eauto.
    + intros k' Hk'. apply lookup_insert_is_Some'. right. exact Hk'.
Qed.

Lemma mkdirs_present m m1 (done todo : list string) :
  mkdirs m done todo = Ok m1 ->
  is_Some (m1 !! (done ++ todo)%list)
  /\ forall k', is_Some (m !! k') -> is_Some (m1 !! k').
Proof.
  revert m done. induction todo as [|c todo IH]; intros m done; simpl.
  - rewrite app_nil_r. apply ensure_dir_present.
  - destruct (ensure_dir false m done) as [m0|e] eqn:Hd; [|discriminate].
    intros H. destruct (IH _ _ H) as [Hk Hkeep].
    rewrite <- app_assoc in Hk. split; [exact Hk|].
    intros k' Hk'. apply Hkeep. eapply ensure_dir_present; eassumption.
Qed.

Lemma mkdir_p_present m m1 k :
  mkdir_p m k = Ok m1 ->
  is_Some (m1 !! k) /\ forall k', is_Some (m !! k') -> is_Some (m1 !! k').
Proof. apply (mkdirs_present m m1 [] k). Qed.

Lemma copytree_present m m1 (src dst : list string) :
  copytree m src dst = Ok m1 -> is_Some (m1 !! dst).
Proof.
  unfold copytree. destruct (follow max_links m src) as [s|]; [|discriminate].
  destruct (m !! s) as [[| |]|]; try discriminate.
  destruct (mkdir_p m dst) as [m0|e] eqn:Hmk; [|discriminate].
  intros H. injection H as <-. apply graft_present.
  destruct (mkdir_p_present _ _ _ Hmk) as [Hdst _]. exact Hdst.
Qed.

Lemma rmtree_lookup_out m m1 p k :
  rmtree m p = Ok m1 -> under p k = false -> m1 !! k = m !! k.
Proof.
  unfold rmtree. destruct (m !! p) as [[| |]|]; try discriminate.
  intros H Hout. injection H as <-. apply prune_lookup_out. exact Hout.
Qed.

Lemma exists_present m k :
  is_Some (m !! k) -> is_symlink m k = false -> exists_ m k = true.
Proof.
  unfold is_symlink, exists_, max_links. simpl follow.
  intros [n Hn]. rewrite Hn. destruct n; [reflexivity|reflexivity|discriminate].
Qed.

Lemma norm_snoc (acc l : list string) (x : string) :
  x <> ".." -> norm acc (l ++ [x]) = (norm acc l ++ [x])%list.
Proof.
  intros Hx. revert acc. induction l as [|y l IH]; intros acc; simpl.
  - destruct (String.eqb_spec x ".."); [congruence|]. reflexivity.
  - destruct (String.eqb y ".."); apply IH.
Qed.

(** The key of [p / name] for a plain name. *)
Lemma locate_div (cwd : list string) (q : Path) (x : string) :
  Path_of x = mkPath false [x] -> x <> ".." ->
  locate cwd (Path_div q x) = (locate cwd q ++ [x])%list.
Proof.
  intros Hof Hx. unfold Path_div, Path_join, locate. rewrite Hof. simpl.
  destruct (absolute q).
  - apply norm_snoc. exact Hx.
  - rewrite app_assoc. apply norm_snoc. exact Hx.
Qed.

End FsFacts.

(** ** What a successful strategy leaves at the destination *)

Section Inversion.

Lemma fs_do_inv (f : fsmap -> result fsmap) (w w' : World) (u : unit) :
  fs_do f w = (Ok u, w') -> exists m, f (fs w) = Ok m /\ w' = set_fs w m.
Proof.
  unfold fs_do. destruct (f (fs w)) as [m|e]; intros H; [|discriminate].
  injection H as _ <-. exists m. split; reflexivity.
Qed.

Lemma fs_ask_inv {A : Type} (f : fsmap -> A) (w w' : World) (a : A) :
  fs_ask f w = (Ok a, w') -> a = f (fs w) /\ w' = w.
Proof. unfold fs_ask. intros H. injection H as <- <-. split; reflexivity. Qed.

Lemma ret_inv {A : Type} (a b : A) (w w' : World) :
  ret a w = (Ok b, w') -> b = a /\ w' = w.
Proof. unfold ret. intros H. injection H as <- <-. split; reflexivity. Qed.

Lemma with_TemporaryDirectory_inv {A : Type} (env : Env) (body : Path -> M A)
    (w w' : World) (r : result A) :
  with_TemporaryDirectory env body w = (r, w') ->
  exists w2,
    body (mkPath true (mkdtemp env (fs w)))
         (set_fs w (<[mkdtemp env (fs w) := Fs.Dir]> (fs w))) = (r, w2)
    /\ w' = set_fs w2 (Fs.prune (fs w2) (mkdtemp env (fs w))).
Proof.
  unfold with_TemporaryDirectory. destruct (body _ _) as [r0 w2].
  intros H. injection H as <- <-. exists w2. split; reflexivity.
Qed.

End Inversion.

Ltac inv_bind H :=
  let a := fresh "a" in let w := fresh "w" in let Ha := fresh "H" a in
  apply bind_inv_ok in H; destruct H as (a & w & Ha & H).

Section Creates.

Variable env : Env.

Lemma key_git_dir (dest : Path) :
  key env (Path_div dest ".git") = (key env dest ++ [".git"])%list.
Proof. apply locate_div; [reflexivity|discriminate]. Qed.

Lemma install_git_sparse_present (source : Source) (dest : Path) (w w1 : World) :
  Fs.under (mkdtemp env (fs w)) (key env dest) = false ->
  install_git_sparse env source dest w = (Ok true, w1) ->
  is_Some (fs w1 !! key env dest).
Proof.
  intros Htmp H. unfold install_git_sparse in H.
  inv_bind H. unfold log in Ha. injection Ha as <- <-.
  destruct (which env "git"); cbn [negb] in H; [|apply ret_inv in H; destruct H; discriminate].
  apply with_TemporaryDirectory_inv in H. destruct H as (w2 & H & ->).
  cbn [fs set_fs]. rewrite prune_lookup_out by exact Htmp. cbn [fs] in H.
  inv_bind H. destruct a; cbn [negb] in H; [|apply ret_inv in H; destruct H; discriminate].
  inv_bind H. inv_bind H.
  destruct a0; cbn [negb] in H; [|apply ret_inv in H; destruct H; discriminate].
  inv_bind H. inv_bind H.
  unfold shutil_copytree in Ha3. apply fs_do_inv in Ha3.
  destruct Ha3 as (m & Hm & ->). apply copytree_present in Hm.
  inv_bind H. apply fs_ask_inv in Ha3. destruct Ha3 as [-> ->].
  inv_bind H. apply ret_inv in H. destruct H as [_ ->].
  destruct (Fs.exists_ _ _).
  - unfold shutil_rmtree in Ha3. apply fs_do_inv in Ha3.
    destruct Ha3 as (m' & Hm' & ->). cbn [fs set_fs] in *.
    rewrite (rmtree_lookup_out _ _ _ _ Hm'); [exact Hm|].
    rewrite key_git_dir. apply under_snoc.
  - apply ret_inv in Ha3. destruct Ha3 as [_ ->]. exact Hm.
Qed.

Lemma install_download_present (source : Source) (dest : Path) (w w1 : World) :
  Fs.under (mkdtemp env (fs w)) (key env dest) = false ->
  install_download env source dest w = (Ok true, w1) ->
  is_Some (fs w1 !! key env dest).
Proof.
  intros Htmp H. unfold install_download in H.
  inv_bind H. unfold log in Ha. injection Ha as <- <-.
  inv_bind H.
  assert (Hfs : fs w0 = fs w).
  { revert Ha. unfold try_except, bind, github_request, try_except, urlopen_read, ret, raise.
    destruct (http_get env _ _) as [status reason body|]; [|discriminate].
    destruct (_ && _); intros Ha; injection Ha as _ <-; reflexivity. }
  destruct a as [payload|]; [|apply ret_inv in H; destruct H; discriminate].
  apply with_TemporaryDirectory_inv in H. destruct H as (w2 & H & ->).
  cbn [fs set_fs]. rewrite Hfs. rewrite prune_lookup_out by exact Htmp.
  inv_bind H. inv_bind H. inv_bind H.
  destruct a1 as [ek|]; [|apply ret_inv in H; destruct H; discriminate].
  inv_bind H.
  destruct a1; cbn [negb] in H; [|apply ret_inv in H; destruct H; discriminate].
  inv_bind H. inv_bind H. apply ret_inv in H. destruct H as [_ ->].
  unfold shutil_copytree in Ha5. apply fs_do_inv in Ha5.
  destruct Ha5 as (m & Hm & ->). apply copytree_present in Hm. exact Hm.
Qed.

Lemma install_local_copy_present (local_path dest : Path) (w w1 : World) :
  install_local env local_path dest false w = (Ok true, w1) ->
  is_Some (fs w1 !! key env dest).
Proof.
  intros H. unfold install_local in H.
  inv_bind H. inv_bind H.
  destruct a0; cbn [negb] in H; [|apply ret_inv in H; destruct H; discriminate].
  inv_bind H. inv_bind H. apply ret_inv in H. destruct H as [_ ->].
  inv_bind Ha2. unfold shutil_copytree in Ha2. apply fs_do_inv in Ha2.
  destruct Ha2 as (m & Hm & ->). apply copytree_present in Hm. exact Hm.
Qed.

End Creates.


(** ** Installing twice *)

Section Idempotence.

Variable env : Env.

Lemma first_success_present (source : Source) (agent : Detected) (dest : Path)
    (l : list Strategy) (w w1 : World) (used : string) :
  (forall m, Fs.under (mkdtemp env m) (key env dest) = false) ->
  first_success env source agent dest l w = (Ok (true, Some used), w1) ->
  used <> "builtin" ->
  is_Some (fs w1 !! key env dest).
Proof.
  intros Htmp H Hused. revert w H. induction l as [|s l IH]; intros w H.
  - apply ret_inv in H. destruct H; discriminate.
  - cbn [first_success] in H. inv_bind H. destruct a.
    + apply ret_inv in H. destruct H as [H ->]. injection H as ->.
      destruct s; cbn [attempt strategy_name] in *.
      * congruence.
      * eapply install_git_sparse_present; [apply Htmp|exact Ha].
      * eapply install_download_present; [apply Htmp|exact Ha].
    + eapply IH. exact H.
Qed.

Lemma app_one_neq {A : Type} (l : list A) (x : A) : l <> (l ++ [x])%list.
Proof.
  intros H. apply (f_equal (@List.length A)) in H.
  rewrite length_app in H. simpl in H. lia.
Qed.

(** C3, as amended.  When the first run of the loop body for a target,
    without symlinks, records the target as installed by a strategy other
    than the native one (that is by [copy], [git] or [download]), and the
    destination is not a symbolic link afterwards, then a second run in
    the world the first one left records the target as skipped with the
    reason [Already exists] and leaves the world, file system and call
    log, exactly as it is: no strategy is called and the destination
    keeps its content.  Temporary directories are assumed not to lie on
    the path to the destination. *)
Theorem install_twice_skips (local_path : Path) (source : option Source)
    (skill_name method : string) (local : bool) (results r1 results' : Results)
    (agent_name : string) (agent : Detected) (used : string) (w0 w1 : World) :
  let dest := dest_of env agent skill_name local in
  (forall m, Fs.under (mkdtemp env m) (key env dest) = false) ->
  install_to_agent env local_path source skill_name false method local
    results agent_name agent w0 = (Ok r1, w1) ->
  installed r1
  = (installed results ++ [mkInstalled agent_name (Path_str dest) (Some used)])%list ->
  used <> "builtin" ->
  Fs.is_symlink (fs w1) (key env dest) = false ->
  install_to_agent env local_path source skill_name false method local
    results' agent_name agent w1
  = (Ok (mkResults (installed results') (failed results')
           (skipped results'
            ++ [mkSkipped agent_name "Already exists" (Path_str dest)])),
     w1).
Proof.
  intros dest Htmp Hrun Hinst Hused Hlink.
  assert (Hpresent : is_Some (fs w1 !! key env dest)).
  { unfold install_to_agent, path_exists in Hrun. rewrite bind_fs_ask in Hrun.
    fold dest in Hrun. destruct (Fs.exists_ (fs w0) (key env dest) && negb false).
    { apply ret_inv in Hrun. destruct Hrun as [-> _]. simpl in Hinst.
      exfalso. exact (app_one_neq _ _ Hinst). }
    rewrite bind_fs_ask in Hrun. inv_bind Hrun.
    apply ret_inv in Hrun. destruct Hrun as [-> ->].
    destruct a as [ok name]. unfold record_outcome in Hinst. destruct ok; simpl in Hinst.
    2:{ exfalso. exact (app_one_neq _ _ Hinst). }
    apply app_inv_head in Hinst. injection Hinst as ->.
    destruct (Fs.exists_ (fs w0) (key env local_path)).
    - inv_bind Ha. apply ret_inv in Ha. destruct Ha as [Ha ->].
      injection Ha as <- _. eapply install_local_copy_present. exact Ha0.
    - destruct source as [src|].
      + rewrite install_from_github_first_success in Ha.
        eapply first_success_present; eassumption.
      + apply ret_inv in Ha. destruct Ha; discriminate. }
  apply install_to_agent_skipped. apply exists_present; assumption.
Qed.

End Idempotence.

(** ** Uninstalling from one target *)

Section Uninstall.

Variable env : Env.

(** On the three outcomes of a sub-process, the native removal returns: it
    runs the remove command derived from the install command and tells
    whether it succeeded. *)
Lemma uninstall_builtin_runs (skill agent_cmd : string) (agent : Detected) (w : World) :
  d_builtin_install agent = Some agent_cmd ->
  PyStr.nonempty agent_cmd = true ->
  let out := spawn env (remove_cmd agent_cmd skill) (fs w) in
  uninstall_builtin env skill agent w
  = (Ok (removes out.1),
     mkWorld (match out.1 with NoSuchProgram => fs w | _ => out.2 end)
             (calls w ++ [CallUninstallBuiltin skill agent_cmd])).
Proof.
  intros Hcmd Hne. unfold uninstall_builtin, truthy. rewrite Hcmd, Hne.
  cbn [default negb from_option id]. unfold log, bind, try_except, subprocess_run. cbn [fs calls].
  destruct (spawn env (remove_cmd agent_cmd skill) (fs w)) as [p m].
  destruct p as [code out secs| |]; cbn; try reflexivity.
  destruct (30 <? secs); reflexivity.
Qed.

(** C8, as amended.  For one target, with [native] the outcome of the
    native removal (attempted exactly when the target has an install
    command, by running [remove_cmd], which never raises) and [w1] the
    world after it:
    - when the native removal succeeded, the target is recorded as removed
      with the method [builtin];
    - otherwise, when the skill path exists and is a symbolic link, the
      link is unlinked, and when it is a directory, it is removed with
      all below it; in both cases the target is recorded as removed with
      the method [file], and every path that is not the skill path or
      below it is left as it was;
    - otherwise, when the skill path does not exist, the target is
      recorded as not found and the world is [w1]. *)
Theorem uninstall_from_agent_outcome (skill : string) (results : UResults)
    (agent_name : string) (agent : Detected) (native : bool) (w w1 : World) :
  let skill_path := Path_div (Path_of (d_skills_path agent)) skill in
  let k := key env skill_path in
  (if truthy (d_builtin_install agent)
   then uninstall_builtin env skill agent w
   else ret false w) = (Ok native, w1) ->
  (forall agent_cmd,
      d_builtin_install agent = Some agent_cmd -> PyStr.nonempty agent_cmd = true ->
      native = removes (spawn env (remove_cmd agent_cmd skill) (fs w)).1)
  /\ (native = true ->
      uninstall_from_agent env skill results agent_name agent w
      = (Ok (mkUResults
               (removed results
                ++ [mkRemoved agent_name (Path_str skill_path) (Some "builtin")])
               (not_found results)), w1))
  /\ (native = false -> Fs.exists_ (fs w1) k = true ->
      Fs.is_symlink (fs w1) k = true ->
      uninstall_from_agent env skill results agent_name agent w
      = (Ok (mkUResults
               (removed results
                ++ [mkRemoved agent_name (Path_str skill_path) (Some "file")])
               (not_found results)),
         set_fs w1 (delete k (fs w1)))
      /\ delete k (fs w1) !! k = None
      /\ forall k', Fs.under k k' = false -> delete k (fs w1) !! k' = fs w1 !! k')
  /\ (native = false -> Fs.exists_ (fs w1) k = true ->
      fs w1 !! k = Some Fs.Dir ->
      uninstall_from_agent env skill results agent_name agent w
      = (Ok (mkUResults
               (removed results
                ++ [mkRemoved agent_name (Path_str skill_path) (Some "file")])
               (not_found results)),
         set_fs w1 (Fs.prune (fs w1) k))
      /\ (forall k', Fs.under k k' = true -> Fs.prune (fs w1) k !! k' = None)
      /\ forall k', Fs.under k k' = false -> Fs.prune (fs w1) k !! k' = fs w1 !! k')
  /\ (native = false -> Fs.exists_ (fs w1) k = false ->
      uninstall_from_agent env skill results agent_name agent w
      = (Ok (mkUResults (removed results)
               (not_found results
                ++ [mkNotFound agent_name (Path_str skill_path)])), w1)).
Proof.
  intros skill_path k Hnative.
  assert (Hstep : forall st0,
    st0 = (if native then (true, Some "builtin") else (false, None)) ->
    uninstall_from_agent env skill results agent_name agent w
    = (ex <- path_exists env skill_path ;;
       st <- (if negb st0.1 && ex
              then
                lnk <- path_is_symlink env skill_path ;;
                (if lnk then path_unlink env skill_path
                 else shutil_rmtree env skill_path) ;;;
                ret (true, Some "file")
              else ret st0) ;;
       ret (record_removal results agent_name skill_path st)) w1).
  { intros st0 ->. unfold uninstall_from_agent. fold skill_path.
    destruct (truthy (d_builtin_install agent)).
    - unfold bind at 1. unfold bind at 1. rewrite Hnative. reflexivity.
    - apply ret_inv in Hnative. destruct Hnative as [-> ->]. reflexivity. }
  split; [|split; [|split; [|split]]].
  - intros agent_cmd Hcmd Hne. unfold truthy in Hnative. rewrite Hcmd, Hne in Hnative.
    rewrite (uninstall_builtin_runs skill agent_cmd agent w Hcmd Hne) in Hnative.
    injection Hnative as <- _. reflexivity.
  - intros ->. rewrite (Hstep _ eq_refl). unfold path_exists.
    rewrite bind_fs_ask. reflexivity.
  - intros -> Hex Hlnk. unfold k in *. split; [|split].
    + rewrite (Hstep _ eq_refl). unfold path_exists, path_is_symlink.
      rewrite bind_fs_ask. rewrite Hex. cbn [negb andb fst].
      unfold bind, fs_ask, path_unlink, fs_do, ret. rewrite Hlnk.
      unfold Fs.unlink. unfold Fs.is_symlink in Hlnk.
      destruct (fs w1 !! key env skill_path) as [[| |]|]; try discriminate. reflexivity.
    + apply lookup_delete_eq.
    + intros k' Hout. apply lookup_delete_ne. intros <-.
      unfold Fs.under in Hout. rewrite strip_prefix_refl in Hout. discriminate.
  - intros -> Hex Hdir. unfold k in *. split; [|split].
    + rewrite (Hstep _ eq_refl). unfold path_exists, path_is_symlink.
      rewrite bind_fs_ask. rewrite Hex. cbn [negb andb fst].
      unfold bind, fs_ask, shutil_rmtree, fs_do, ret.
      unfold Fs.is_symlink, Fs.rmtree. rewrite !Hdir. reflexivity.
    + intros k' Hin. apply prune_lookup_in. exact Hin.
    + intros k' Hout. apply prune_lookup_out. exact Hout.
  - intros -> Hex. unfold k in *. rewrite (Hstep _ eq_refl). unfold path_exists.
    rewrite bind_fs_ask. rewrite Hex. reflexivity.
Qed.

End Uninstall.

(** ** The properties at work in the small concrete world *)

(** C4 on a run that installs by sparse checkout for the one agent detected. *)
Lemma main_exit_status_witness :
  let E := Demo.env_of Demo.sw_git in
  let args := mkArgs "acme/toolkit/packs/search" "all" false false "auto" "text" in
  let report :=
    mkResults [mkInstalled "cursor" "/home/u/.cursor/skills/search" (Some "git")] [] [] in
  exists code : Z,
    (main E (AGENTS E) args Demo.w0).1 = Ok code
    /\ (code = 1 <-> (failed report <> [] /\ installed report = []))
    /\ (code = 0 <-> ~ (failed report <> [] /\ installed report = [])).
Proof.
  intros E args report.
  destruct (main_exit_status E (AGENTS E) args Demo.w0
              (Demo.after (install_skill E (AGENTS E) "acme/toolkit/packs/search"
                             (Some ["all"]) false "auto" false) Demo.w0)
              report) as (code & Hmain & Hone & Hzero).
  - vm_compute. reflexivity.
  - exists code. rewrite Hmain. split; [reflexivity|]. split; assumption.
Defined.

(** C7 on the scenario of the specification: the archive host answers 404. *)
Lemma install_download_http_error_witness :
  let E := Demo.env_of Demo.sw_404 in
  let dest := dest_of E Demo.cursor "search" false in
  install_download E Demo.src dest Demo.w0
  = (Ok false, mkWorld Demo.fs0 [CallDownload Demo.src dest])
  /\ install_to_agent E (Path_of "acme/toolkit/packs/search") (Some Demo.src) "search"
       false "download" false (mkResults [] [] []) "cursor" Demo.cursor Demo.w0
     = (Ok (mkResults [] [mkFailed "cursor" "/home/u/.cursor/skills/search"] []),
        mkWorld Demo.fs0 [CallDownload Demo.src dest]).
Proof.
  intros E dest.
  destruct (install_download_http_error E Demo.src dest 404 "Not Found" EmptyString Demo.w0)
    as [Hdl Hrec]; [reflexivity|lia|].
  split; [exact Hdl|].
  apply (Hrec (Path_of "acme/toolkit/packs/search") "search" false false
           (mkResults [] [] []) "cursor" Demo.cursor); [reflexivity| |];
    vm_compute; reflexivity.
Defined.

(** C2 on a target without native command, with no [git] on the path and an
    archive host that serves the archive: the download is called and wins. *)
Lemma install_strategy_order_witness :
  let E := Demo.env_of Demo.sw_archive in
  let dest := dest_of E Demo.cursor "search" false in
  let w1 := Demo.after (install_git_sparse E Demo.src dest) Demo.w0 in
  (exists r w2,
      install_download E Demo.src dest w1 = (r, w2)
      /\ In (CallDownload Demo.src dest) (calls w2)
      /\ install_from_github E Demo.src Demo.cursor dest "auto" Demo.w0
         = (match r with
            | Ok ok => Ok (ok, if ok then Some "download" else None)
            | Raise e => Raise e
            end, w2))
  /\ (install_to_agent E (Path_of "acme/toolkit/packs/search") (Some Demo.src) "search"
        false "auto" false (mkResults [] [] []) "cursor" Demo.cursor Demo.w0).1
     = Ok (mkResults [mkInstalled "cursor" "/home/u/.cursor/skills/search" (Some "download")]
             [] []).
Proof.
  intros E dest w1.
  destruct (install_strategy_order E Demo.src Demo.cursor "search" false "auto" Demo.w0)
    as (_ & _ & _ & _ & _ & Hfallback & Hrecord).
  split.
  - apply (Hfallback eq_refl w1). vm_compute. reflexivity.
  - destruct (Hrecord (Path_of "acme/toolkit/packs/search") false (mkResults [] [] [])
                "cursor" true (Some "download")
                (Demo.after (install_from_github E Demo.src Demo.cursor dest "auto") Demo.w0))
      as [Hrun _]; [vm_compute; reflexivity ..|].
    rewrite Hrun. reflexivity.
Defined.

(** C3, as amended, on a first run that installs by sparse checkout. *)
Lemma install_twice_skips_witness :
  let E := Demo.env_of Demo.sw_git in
  let local_path := Path_of "acme/toolkit/packs/search" in
  let first := mkResults [mkInstalled "cursor" "/home/u/.cursor/skills/search" (Some "git")]
                 [] [] in
  let body results :=
    install_to_agent E local_path (Some Demo.src) "search" false "auto" false results
      "cursor" Demo.cursor in
  let w1 := Demo.after (body (mkResults [] [] [])) Demo.w0 in
  body (mkResults [] [] []) Demo.w0 = (Ok first, w1)
  /\ body (mkResults [] [] []) w1
     = (Ok (mkResults [] []
              [mkSkipped "cursor" "Already exists" "/home/u/.cursor/skills/search"]),
        w1).
Proof.
  intros E local_path first body w1.
  assert (Hrun : body (mkResults [] [] []) Demo.w0 = (Ok first, w1))
    by (vm_compute; reflexivity).
  split; [exact Hrun|].
  apply (install_twice_skips E local_path (Some Demo.src) "search" "auto" false
           (mkResults [] [] []) first (mkResults [] [] []) "cursor" Demo.cursor "git"
           Demo.w0 w1).
  - intros m. reflexivity.
  - exact Hrun.
  - reflexivity.
  - discriminate.
  - vm_compute. reflexivity.
Defined.

(** C8, as amended, on a skill directory of an agent without native command:
    the directory goes with its content, Claude's copy stays. *)
Lemma uninstall_from_agent_outcome_witness :
  let E := Demo.env_of Demo.sw_offline in
  let k := ["home"; "u"; ".cursor"; "skills"; "search"] in
  uninstall_from_agent E "search" (mkUResults [] []) "cursor" Demo.cursor Demo.w_installed
  = (Ok (mkUResults [mkRemoved "cursor" "/home/u/.cursor/skills/search" (Some "file")] []),
     set_fs Demo.w_installed (Fs.prune (fs Demo.w_installed) k))
  /\ Fs.prune (fs Demo.w_installed) k !! (k ++ ["SKILL.md"])%list = None
  /\ Fs.prune (fs Demo.w_installed) k !! ["home"; "u"; ".claude"; "skills"; "search"]
     = Some Fs.Dir.
Proof.
  intros E k.
  destruct (uninstall_from_agent_outcome E "search" (mkUResults [] []) "cursor" Demo.cursor
              false Demo.w_installed Demo.w_installed eq_refl)
    as (_ & _ & _ & Hdir & _).
  destruct Hdir as (Hrun & Hin & Hout); [reflexivity|vm_compute; reflexivity ..|].
  split; [exact Hrun|]. split.
  - apply Hin. reflexivity.
  - rewrite Hout by reflexivity. vm_compute. reflexivity.
Defined.

(** C10 with no agent detected, and with Cursor detected and Claude asked for. *)
Lemma uninstall_no_targets_witness :
  let E := Demo.env_of Demo.sw_offline in
  (uninstall_skill E (AGENTS E) "search" (Some (agents_of "all")) Demo.w_bare
   = (Ok (mkUResults [] []), Demo.w_bare)
   /\ uninstall_main E (AGENTS E) "search" "all" Demo.w_bare = (Ok 1, Demo.w_bare))
  /\ uninstall_main E (AGENTS E) "search" "claude" Demo.w0 = (Ok 1, Demo.w0).
Proof.
  intros E. split.
  - destruct (uninstall_no_targets E (AGENTS E) "search" "all" Demo.w_bare)
      as (all & w1 & Hdet & H).
    assert (Hc : detect_all E (AGENTS E) Demo.w_bare = (Ok [], Demo.w_bare))
      by (vm_compute; reflexivity).
    rewrite Hc in Hdet. injection Hdet as <- <-.
    destruct (H (or_introl eq_refl)) as (H1 & H2 & _). split; assumption.
  - destruct (uninstall_no_targets E (AGENTS E) "search" "claude" Demo.w0)
      as (all & w1 & Hdet & H).
    assert (Hc : detect_all E (AGENTS E) Demo.w0 = (Ok [Demo.cursor], Demo.w0))
      by (vm_compute; reflexivity).
    rewrite Hc in Hdet. injection Hdet as <- <-.
    apply H. right. exists ["claude"]. split; [reflexivity|].
    intros d [<-|[]]. reflexivity.
Defined.

(** ** Where the code and the specification part *)

(** C1.  The sparse checkout and the download let exceptions through: a
    failed [git sparse-checkout set] raises [CalledProcessError], a clone
    that outlasts its 60 seconds raises [TimeoutExpired], and an archive host
    that cannot be reached raises [URLError]; the first of these then ends
    [main] with the exception instead of a report. *)
Theorem strategies_raise :
  let dest := dest_of (Demo.env_of Demo.sw_git) Demo.cursor "search" false in
  (install_git_sparse (Demo.env_of Demo.sw_sparse_fails) Demo.src dest Demo.w0).1
  = Raise (CalledProcessError
             ["git"; "-C"; "/tmp/tmpq1w2e3/repo"; "sparse-checkout"; "set"; "packs/search"] 1)
  /\ (exists cmd,
        (install_git_sparse (Demo.env_of Demo.sw_clone_slow) Demo.src dest Demo.w0).1
        = Raise (TimeoutExpired cmd))
  /\ (install_download (Demo.env_of Demo.sw_offline) Demo.src dest Demo.w0).1
     = Raise URLError
  /\ exists cmd,
       (main (Demo.env_of Demo.sw_sparse_fails) (AGENTS (Demo.env_of Demo.sw_sparse_fails))
          (mkArgs "acme/toolkit/packs/search" "all" false false "auto" "text") Demo.w0).1
       = Raise (CalledProcessError cmd 1).
Proof.
  intros dest. split; [vm_compute; reflexivity|].
  split; [eexists; vm_compute; reflexivity|].
  split; [vm_compute; reflexivity|].
  eexists. vm_compute. reflexivity.
Qed.

(** C3 as the specification words it fails after a native delegation: the
    agent's own command succeeds without creating the destination, which is
    not a symbolic link, and the second run calls the command again and
    reports the target as installed again, not as skipped.  And where the
    second run does skip, after a sparse checkout, the reason it records is
    [Already exists]. *)
Lemma install_twice_native_counterexample :
  let E := Demo.env_of Demo.sw_claude in
  let run := install_skill E (AGENTS E) "acme/toolkit" (Some ["claude"]) false "auto" false in
  let first := mkInstalled "claude" "/home/u/.claude/skills/toolkit" (Some "builtin") in
  let call := CallBuiltin (mkSource "acme" "toolkit" "main" EmptyString "toolkit")
                "claude skill install" in
  let G := Demo.env_of Demo.sw_git in
  let run_git := install_skill G (AGENTS G) "acme/toolkit/packs/search" (Some ["all"])
                   false "auto" false in
  (run Demo.w0).1 = Ok (mkResults [first] [] [])
  /\ Fs.is_symlink (fs (Demo.after run Demo.w0))
       ["home"; "u"; ".claude"; "skills"; "toolkit"] = false
  /\ (run (Demo.after run Demo.w0)).1 = Ok (mkResults [first] [] [])
  /\ calls (Demo.after run Demo.w0) = [call]
  /\ calls (Demo.after run (Demo.after run Demo.w0)) = [call; call]
  /\ (run_git (Demo.after run_git Demo.w0)).1
     = Ok (mkResults [] []
             [mkSkipped "cursor" "Already exists" "/home/u/.cursor/skills/search"])
  /\ "Already exists" <> "already exists".
Proof. vm_compute. repeat split; try reflexivity. discriminate. Qed.

(** C8 as the specification words it fails in three ways: a successful native
    removal is recorded with the method [builtin], not [native]; a skill path
    that exists as a regular file makes the uninstaller raise instead of
    deleting it and recording it; and when Codex's home is set to Claude's
    directory the two targets have one skill path, so that removing from
    Claude turns Codex's outcome from removed into not found. *)
Lemma uninstall_counterexample :
  let Ec := Demo.env_of Demo.sw_claude in
  let Eo := Demo.env_of Demo.sw_offline in
  let Es := Demo.env_of Demo.sw_shared in
  (uninstall_skill Ec (AGENTS Ec) "search" (Some ["claude"]) Demo.w_installed).1
  = Ok (mkUResults [mkRemoved "claude" "/home/u/.claude/skills/search" (Some "builtin")] [])
  /\ Fs.exists_ (fs Demo.w_installed) ["home"; "u"; ".cursor"; "skills"; "notes"] = true
  /\ (uninstall_skill Eo (AGENTS Eo) "notes" (Some ["cursor"]) Demo.w_installed).1
     = Raise NotADirectoryError
  /\ (uninstall_skill Es (AGENTS Es) "search" (Some ["codex"]) Demo.w_installed).1
     = Ok (mkUResults [mkRemoved "codex" "/home/u/.claude/skills/search" (Some "file")] [])
  /\ (uninstall_skill Es (AGENTS Es) "search" (Some ["claude"; "codex"]) Demo.w_installed).1
     = Ok (mkUResults [mkRemoved "claude" "/home/u/.claude/skills/search" (Some "file")]
             [mkNotFound "codex" "/home/u/.claude/skills/search"]).
Proof. vm_compute. repeat split; reflexivity. Qed.

(** ** The URL parser names every source it accepts

    What C6 asks of both parsers holds of [parse_github_url]: it drops the
    empty segments of the path before it derives the name. *)

Section UrlName.

Import PyStr.

Variable sep : ascii.

Lemma append_assoc (a b c : string) : ((a ++ b) ++ c = a ++ (b ++ c))%string.
Proof.
  induction a as [|x a IH]; [reflexivity|].
  change (String x ((a ++ b) ++ c) = String x (a ++ (b ++ c)))%string.
  f_equal. exact IH.
Qed.

Lemma split_all_free (s : string) : Forall (free sep) (split sep s).
Proof.
  unfold free. induction s as [|c s IH]; simpl.
  - repeat constructor.
  - destruct (Ascii.eqb c sep) eqn:Hc.
    + constructor; [reflexivity|exact IH].
    + destruct (split sep s) as [|h t]; [repeat constructor; simpl; rewrite Hc; reflexivity|].
      inversion IH as [|? ? Hh Ht]; subst.
      constructor; [simpl; rewrite Hc; exact Hh|exact Ht].
Qed.

Lemma filter_segments (s : string) :
  Forall (segment sep) (List.filter nonempty (split sep s)).
Proof.
  pose proof (split_all_free s) as Hall.
  induction (split sep s) as [|x l IH]; simpl; [constructor|].
  inversion Hall as [|? ? Hx Hl]; subst.
  destruct (nonempty x) eqn:Hne; [|apply IH; exact Hl].
  constructor; [split; assumption|apply IH; exact Hl].
Qed.

Lemma append_cons (x : ascii) (a b : string) :
  (String x a ++ b)%string = String x (a ++ b).
Proof. reflexivity. Qed.

Lemma rstrip_snoc (s : string) (d : ascii) :
  d <> sep -> rstrip sep (s ++ String d EmptyString) = (s ++ String d EmptyString)%string.
Proof.
  intros Hd. induction s as [|a s IH].
  - apply Ascii.eqb_neq in Hd. change (rstrip sep (String d EmptyString) = String d EmptyString).
    cbn [rstrip]. rewrite Hd. reflexivity.
  - rewrite append_cons. cbn [rstrip]. rewrite IH.
    destruct (s ++ String d EmptyString)%string eqn:E; [|reflexivity].
    destruct s; discriminate.
Qed.

Lemma nonempty_snoc (s : string) :
  nonempty s = true -> exists t d, s = (t ++ String d EmptyString)%string.
Proof.
  induction s as [|a s IH]; [discriminate|]. intros _.
  destruct s as [|b s].
  - exists EmptyString, a. reflexivity.
  - destruct (IH eq_refl) as (t & d & Ht). exists (String a t), d.
    rewrite append_cons, <- Ht. reflexivity.
Qed.

Lemma free_snoc (t : string) (d : ascii) : free sep (t ++ String d EmptyString) -> d <> sep.
Proof.
  unfold free. induction t as [|a t IH].
  - change (contains sep (String d EmptyString) = false -> d <> sep). cbn [contains].
    intros H. apply Ascii.eqb_neq. destruct (Ascii.eqb d sep); [discriminate|reflexivity].
  - rewrite append_cons. cbn [contains].
    destruct (Ascii.eqb a sep); [discriminate|]. exact IH.
Qed.

Lemma join_last (l : list string) :
  l <> [] ->
  exists pre, join (String sep EmptyString) l = (pre ++ List.last l EmptyString)%string.
Proof.
  induction l as [|x l IH]; [congruence|]. intros _.
  destruct l as [|y l].
  - exists EmptyString. reflexivity.
  - destruct IH as (pre & Hpre); [discriminate|].
    exists (x ++ String sep pre)%string.
    change (join (String sep EmptyString) (x :: y :: l))
      with (x ++ String sep (join (String sep EmptyString) (y :: l)))%string.
    rewrite Hpre, append_assoc. reflexivity.
Qed.

Lemma join_nonempty (x : string) (l : list string) :
  nonempty x = true -> nonempty (join (String sep EmptyString) (x :: l)) = true.
Proof. destruct x; [discriminate|]. intros _. destruct l; reflexivity. Qed.

Lemma last_segment (l : list string) :
  l <> [] -> Forall (segment sep) l -> segment sep (List.last l EmptyString).
Proof.
  induction l as [|x l IH]; [congruence|]. intros _ Hall.
  inversion Hall as [|? ? Hx Hl]; subst.
  destruct l as [|y l]; [exact Hx|]. apply IH; [discriminate|exact Hl].
Qed.

(** The name [parse_github_url] derives from the segments [l] of a subpath. *)
Lemma name_of_segments (l : list string) :
  l <> [] -> Forall (segment sep) l ->
  nonempty (join (String sep EmptyString) l) = true
  /\ last_part (split sep (rstrip sep (join (String sep EmptyString) l)))
     = List.last l EmptyString.
Proof.
  intros Hne Hall. split.
  - destruct l as [|x l]; [congruence|]. inversion Hall as [|? ? [Hx _] _]; subst.
    apply join_nonempty. exact Hx.
  - destruct (last_segment l Hne Hall) as [Hlast Hfree].
    destruct (join_last l Hne) as (pre & Hpre).
    destruct (nonempty_snoc _ Hlast) as (t & d & Ht).
    rewrite Ht in Hfree. apply free_snoc in Hfree.
    assert (Hkeep : rstrip sep (join (String sep EmptyString) l)
                    = join (String sep EmptyString) l).
    { rewrite Hpre, Ht, <- append_assoc. apply rstrip_snoc. exact Hfree. }
    rewrite Hkeep, split_join; [reflexivity|exact Hne|].
    eapply Forall_impl; [exact Hall|]. intros s [_ Hs]. exact Hs.
Qed.

End UrlName.

Lemma drop_segments (n : nat) (l : list string) :
  Forall (segment "/") l -> Forall (segment "/") (drop n l).
Proof.
  revert l. induction n as [|n IH]; intros l Hl; [exact Hl|].
  destruct l as [|x l]; [constructor|]. inversion Hl; subst. apply IH. assumption.
Qed.

(** X2.  Every source [parse_github_url] returns has a name that is not empty and
    holds no slash: the last segment of the subpath, or the repository when
    the subpath is empty. *)
Lemma parse_github_url_name (urlparse : string -> ParseResult) (url dref : string)
    (source : Source) :
  parse_github_url urlparse url dref = Ok source ->
  skill_name source <> EmptyString
  /\ free "/" (skill_name source)
  /\ exists l, Forall (segment "/") l
               /\ path source = PyStr.join "/" l
               /\ skill_name source = match l with
                                      | [] => repo source
                                      | _ => List.last l EmptyString
                                      end.
Proof.
  unfold parse_github_url, parse_github_parsed.
  pose proof (filter_segments "/" (url_path (urlparse url))) as Hparts.
  set (parts := List.filter PyStr.nonempty (PyStr.split "/" (url_path (urlparse url)))) in *.
  destruct (negb _); [discriminate|].
  destruct (Nat.ltb_spec (List.length parts) 2) as [|Hlen]; [discriminate|].
  assert (Hrepo : segment "/" (nth 1 parts EmptyString)).
  { eapply Forall_forall; [exact Hparts|]. apply list_elem_of_In, nth_In. lia. }
  assert (Hfinish : forall ref n,
    let subpath := PyStr.join "/" (drop n parts) in
    let name := if PyStr.nonempty subpath
                then PyStr.last_part (PyStr.split "/" (PyStr.rstrip "/" subpath))
                else nth 1 parts EmptyString in
    Ok (mkSource (nth 0 parts EmptyString) (nth 1 parts EmptyString) ref subpath name) = Ok source ->
    skill_name source <> EmptyString
    /\ free "/" (skill_name source)
    /\ exists l, Forall (segment "/") l
                 /\ path source = PyStr.join "/" l
                 /\ skill_name source = match l with
                                        | [] => repo source
                                        | _ => List.last l EmptyString
                                        end).
  { intros ref n subpath name H. injection H as <-. cbn [skill_name path repo].
    pose proof (drop_segments n parts Hparts) as Hl. subst name subpath.
    destruct (drop n parts) as [|x l] eqn:Hdrop.
    - cbn. destruct Hrepo as [Hne Hfree].
      split; [intros E; rewrite E in Hne; discriminate|].
      split; [exact Hfree|]. exists []. repeat split; constructor.
    - destruct (name_of_segments "/" (x :: l)) as [Hne Hname]; [discriminate|exact Hl|].
      rewrite Hne, Hname.
      destruct (last_segment "/" (x :: l)) as [Hne' Hfree]; [discriminate|exact Hl|].
      split; [intros E; rewrite E in Hne'; discriminate|].
      split; [exact Hfree|]. exists (x :: l). repeat split. exact Hl. }
  destruct (2 <? List.length parts)%nat.
  - destruct (_ || _).
    + destruct (List.length parts <? 4)%nat; [discriminate|]. apply (Hfinish _ 4%nat).
    + apply (Hfinish _ 2%nat).
  - intros H. injection H as <-. cbn [skill_name path repo].
    destruct Hrepo as [Hne Hfree].
    split; [intros E; rewrite E in Hne; discriminate|].
    split; [exact Hfree|]. exists []. repeat split; constructor.
Qed.

(** ** Examples *)

Example split_example : PyStr.split "/" "a/b//c/" = ["a"; "b"; EmptyString; "c"; EmptyString].
Proof. reflexivity. Qed.

Example split_ws_example :
  PyStr.split_ws "  claude skill   install " = ["claude"; "skill"; "install"].
Proof. reflexivity. Qed.

Example replace_example :
  PyStr.replace "install" "remove" "claude skill install" = "claude skill remove".
Proof. reflexivity. Qed.

Example replace_empty_example : PyStr.replace EmptyString "-" "abc" = "-a-b-c-".
Proof. reflexivity. Qed.

Example replace_overlap_example : PyStr.replace "aa" "b" "aaaaa" = "bba".
Proof. reflexivity. Qed.

Example rstrip_example : PyStr.rstrip "/" "a/b//" = "a/b".
Proof. reflexivity. Qed.

Example strip_example : PyStr.strip "  1.0 x  " = "1.0 x".
Proof. reflexivity. Qed.

(** A no-break space (U+00A0) and an em space (U+2003) are blank. *)
Example strip_unicode_example :
  PyStr.strip (String (ascii_of_nat 194) (String (ascii_of_nat 160)
                 ("1.0" ++ String (ascii_of_nat 226) (String (ascii_of_nat 128)
                              (String (ascii_of_nat 131) " "))))) = "1.0"
  /\ PyStr.strip (String (ascii_of_nat 194) (String (ascii_of_nat 160) EmptyString))
     = EmptyString.
Proof. split; reflexivity. Qed.

Example parse_github_url_example :
  parse_github_url Demo.urlparse_simple
    "https://github.com/acme/toolkit/tree/dev/packs/search/" "main"
  = Ok (mkSource "acme" "toolkit" "dev" "packs/search" "search").
Proof. reflexivity. Qed.

Example remove_cmd_example :
  remove_cmd "claude skill install" "search" = ["claude"; "skill"; "remove"; "search"].
Proof. reflexivity. Qed.

(** Installing twice by sparse checkout, as a whole run each time: installed,
    then skipped, with the world as the first run left it. *)
Example install_twice_example :
  let E := Demo.env_of Demo.sw_git in
  let run := install_skill E (AGENTS E) "acme/toolkit/packs/search" (Some ["all"]) false
               "auto" false in
  (run Demo.w0).1
  = Ok (mkResults [mkInstalled "cursor" "/home/u/.cursor/skills/search" (Some "git")] [] [])
  /\ run (Demo.after run Demo.w0)
     = (Ok (mkResults [] []
              [mkSkipped "cursor" "Already exists" "/home/u/.cursor/skills/search"]),
        Demo.after run Demo.w0).
Proof. vm_compute. split; reflexivity. Qed.

(** The fan-out of the specification: the native command succeeds for
    Claude, Cursor has none and is served by the download. *)
Example fan_out_example :
  let E := Demo.env_of (Demo.mkSwitches [] ["claude"] Demo.bad_proc Demo.bad_proc
                          Demo.ok_proc (Response 200 "OK" "PK")) in
  (install_skill E (AGENTS E) "acme/toolkit/packs/search" (Some ["all"]) false "auto" false
     Demo.w0).1
  = Ok (mkResults
          [ mkInstalled "claude" "/home/u/.claude/skills/search" (Some "builtin");
            mkInstalled "cursor" "/home/u/.cursor/skills/search" (Some "download") ]
          [] []).
Proof. vm_compute. reflexivity. Qed.

(** * Further properties of the scripts *)

(** ** The URL parser on a path given by its segments *)

Section UrlSegments.

Lemma filter_nonempty_segments (l : list string) :
  Forall (segment "/") l -> List.filter PyStr.nonempty l = l.
Proof.
  induction l as [|x l IH]; intros Hl; [reflexivity|].
  inversion Hl as [|? ? [Hx _] Hrest]; subst. simpl. rewrite Hx, (IH Hrest). reflexivity.
Qed.

(** The parts [parse_github_url] works on, for the path [/s1/.../sn]. *)
Lemma parts_of_segments (l : list string) :
  Forall (segment "/") l ->
  List.filter PyStr.nonempty (PyStr.split "/" ("/" ++ PyStr.join "/" l)) = l.
Proof.
  intros Hl.
  assert (Hsplit : PyStr.split "/" ("/" ++ PyStr.join "/" l)
                   = EmptyString :: PyStr.split "/" (PyStr.join "/" l)) by reflexivity.
  rewrite Hsplit. cbn [List.filter PyStr.nonempty].
  destruct l as [|x l]; [reflexivity|].
  rewrite split_join; [apply filter_nonempty_segments; exact Hl|discriminate|].
  eapply Forall_impl; [exact Hl|]. intros s [_ Hs]. exact Hs.
Qed.

(** X1.  For a GitHub host and a path [/s1/.../sn] of non-empty segments,
    [parse_github_url] refuses fewer than two segments and the three
    segments [owner/repo/tree] (or [blob]); it reads [owner/repo] with the
    default ref and the repository as name; [owner/repo/tree/ref/...] with
    the ref given and the rest as subpath; and any other
    [owner/repo/...] with the default ref and all that follows the
    repository as subpath.  The name is the last segment of the subpath,
    or the repository when the subpath is empty. *)
Theorem parse_github_url_segments (urlparse : string -> ParseResult)
    (url dref : string) (l : list string) :
  (String.eqb (netloc (urlparse url)) "github.com"
   || String.eqb (netloc (urlparse url)) "www.github.com") = true ->
  url_path (urlparse url) = ("/" ++ PyStr.join "/" l)%string ->
  Forall (segment "/") l ->
  parse_github_url urlparse url dref
  = match l with
    | [] | [_] => Raise (InstallError "Invalid GitHub URL.")
    | [o; r] => Ok (mkSource o r dref EmptyString r)
    | o :: r :: m :: rest =>
        if is_marker m
        then match rest with
             | [] => Raise (InstallError "GitHub URL missing ref or path.")
             | [ref] => Ok (mkSource o r ref EmptyString r)
             | ref :: segs =>
                 Ok (mkSource o r ref (PyStr.join "/" segs) (List.last segs EmptyString))
             end
        else Ok (mkSource o r dref (PyStr.join "/" (m :: rest))
                   (List.last (m :: rest) EmptyString))
    end.
Proof.
  intros Hhost Hpath Hl. unfold parse_github_url, parse_github_parsed.
  rewrite Hhost, Hpath, (parts_of_segments l Hl). cbn [negb].
  destruct l as [|o [|r [|m rest]]]; try reflexivity.
  assert (Hname : forall segs, segs <> [] -> Forall (segment "/") segs ->
            (if PyStr.nonempty (PyStr.join "/" segs)
             then PyStr.last_part (PyStr.split "/" (PyStr.rstrip "/" (PyStr.join "/" segs)))
             else r) = List.last segs EmptyString).
  { intros segs Hne Hsegs. destruct (name_of_segments "/" segs Hne Hsegs) as [-> ->].
    reflexivity. }
  inversion Hl as [|? ? _ Hl1]; subst. inversion Hl1 as [|? ? _ Hl2]; subst.
  cbn [List.length Nat.ltb Nat.leb nth drop]. fold (is_marker m).
  destruct (is_marker m).
  - destruct rest as [|ref segs]; [reflexivity|].
    cbn [List.length Nat.ltb Nat.leb nth drop].
    destruct segs as [|s segs]; [reflexivity|].
    rewrite Hname; [reflexivity|discriminate|].
    inversion Hl2 as [|? ? _ Hl3]; subst. inversion Hl3; subst. assumption.
  - rewrite Hname; [reflexivity|discriminate|exact Hl2].
Qed.

(** X1 on a tree URL and on a URL with one segment. *)
Lemma parse_github_url_segments_witness :
  parse_github_url Demo.urlparse_simple
    "https://github.com/acme/toolkit/tree/dev/packs/search" "main"
  = Ok (mkSource "acme" "toolkit" "dev" "packs/search" "search")
  /\ parse_github_url Demo.urlparse_simple "https://github.com/acme" "main"
     = Raise (InstallError "Invalid GitHub URL.").
Proof.
  split.
  - apply (parse_github_url_segments Demo.urlparse_simple _ "main"
             ["acme"; "toolkit"; "tree"; "dev"; "packs"; "search"]);
      [reflexivity|reflexivity|repeat constructor].
  - apply (parse_github_url_segments Demo.urlparse_simple _ "main" ["acme"]);
      [reflexivity|reflexivity|repeat constructor].
Defined.

(** X2 on a blob URL with a trailing slash. *)
Lemma parse_github_url_name_witness :
  skill_name (mkSource "acme" "toolkit" "dev" "packs/search" "search") <> EmptyString
  /\ free "/" (skill_name (mkSource "acme" "toolkit" "dev" "packs/search" "search")).
Proof.
  destruct (parse_github_url_name Demo.urlparse_simple
              "https://github.com/acme/toolkit/blob/dev/packs/search/" "main"
              (mkSource "acme" "toolkit" "dev" "packs/search" "search") eq_refl)
    as (Hne & Hfree & _).
  split; assumption.
Defined.

End UrlSegments.

(** ** The strategies one by one *)

Section StrategyOutcomes.

Variable env : Env.

(** X3.  The native delegation runs the words of the agent's command
    followed by [owner/repo] or [owner/repo/path].  When that command
    exits, [install_builtin] returns [True] exactly when it exited with 0
    within 60 seconds, and the file system is what the command left.  When
    it does not exit in time ([TimeoutExpired]) or the program is missing
    ([FileNotFoundError]), the exception is caught and [install_builtin]
    returns [False]; the file system is unchanged when the program is
    missing. *)
Theorem install_builtin_runs (source : Source) (agent_cmd : string) (w : World) :
  let cmd := native_install_cmd agent_cmd source in
  let logged := (calls w ++ [CallBuiltin source agent_cmd])%list in
  (forall code out secs m,
      spawn env cmd (fs w) = (Exits code out secs, m) ->
      install_builtin env source agent_cmd w
      = (Ok (negb (60 <? secs) && (code =? 0)), mkWorld m logged))
  /\ (forall m,
        spawn env cmd (fs w) = (NeverExits, m) ->
        install_builtin env source agent_cmd w = (Ok false, mkWorld m logged))
  /\ (forall m,
        spawn env cmd (fs w) = (NoSuchProgram, m) ->
        install_builtin env source agent_cmd w = (Ok false, mkWorld (fs w) logged)).
Proof.
  intros cmd logged. subst cmd logged.
  unfold install_builtin, native_install_cmd, log, bind, try_except, subprocess_run, ret.
  cbn [fs calls].
  split; [|split].
  - intros code out secs m ->. cbn. destruct (60 <? secs); reflexivity.
  - intros m ->. reflexivity.
  - intros m ->. reflexivity.
Qed.

Lemma with_TemporaryDirectory_cleans {A : Type} (body : Path -> M A) (w : World)
    (k : list string) :
  Fs.under (mkdtemp env (fs w)) k = true ->
  fs (with_TemporaryDirectory env body w).2 !! k = None.
Proof.
  intros Hk. unfold with_TemporaryDirectory.
  destruct (body _ _) as [r w1]. cbn [snd fs set_fs]. apply prune_lookup_in. exact Hk.
Qed.

Lemma github_request_ok (url reason body : string) (status : Z) (w : World) :
  http_get env url (authorization env) = Response status reason body ->
  200 <= status < 300 ->
  github_request env url w = (Ok body, w).
Proof.
  intros Hget Hst. unfold github_request, try_except, urlopen_read. rewrite Hget.
  replace ((200 <=? status) && (status <? 300)) with true by lia. reflexivity.
Qed.

(** What [install_download] does once the archive is fetched. *)
Lemma install_download_fetched (source : Source) (dest : Path) (reason body : string)
    (status : Z) (w : World) :
  http_get env (zip_url source) (authorization env) = Response status reason body ->
  200 <= status < 300 ->
  exists body_of : Path -> M bool,
    install_download env source dest w
    = with_TemporaryDirectory env body_of
        (mkWorld (fs w) (calls w ++ [CallDownload source dest]))
    /\ forall tmp, body_of tmp
       = (fs_do (fun m => Fs.write_bytes m (key env (Path_div tmp "repo.zip")) body) ;;;
          zip_extractall env body tmp ;;;
          extracted <- fs_ask (fun m => Fs.glob_prefix m (key env tmp) (repo source ++ "-")) ;;
          match extracted with
          | None => ret false
          | Some ek =>
              let extracted := mkPath true ek in
              let src_path :=
                if PyStr.nonempty (path source) then Path_div extracted (path source)
                else extracted in
              ex <- path_exists env src_path ;;
              if negb ex then ret false
              else
                path_mkdir_p env dest ;;;
                shutil_copytree env src_path dest ;;;
                ret true
          end).
Proof.
  intros Hget Hst. eexists. split; [|intros tmp; reflexivity].
  unfold install_download, log. unfold bind at 1. unfold bind at 1.
  unfold try_except at 1. unfold bind at 1.
  rewrite (github_request_ok _ reason body status _ Hget Hst). reflexivity.
Qed.

(** X4.  The temporary directory does not outlive the strategy: after
    [install_git_sparse] (with [git] on the path) and after
    [install_download] (once the archive is fetched), whether they return
    [True], [False] or raise, no path at or below the temporary directory is
    left in the file system. *)
Theorem temporary_directory_removed (source : Source) (dest : Path) (w : World)
    (k : list string) (status : Z) (reason body : string) :
  Fs.under (mkdtemp env (fs w)) k = true ->
  (which env "git" = true ->
   fs (install_git_sparse env source dest w).2 !! k = None)
  /\ (http_get env (zip_url source) (authorization env) = Response status reason body ->
      200 <= status < 300 ->
      fs (install_download env source dest w).2 !! k = None).
Proof.
  intros Hk. split.
  - intros Hgit. unfold install_git_sparse, log. unfold bind at 1. rewrite Hgit.
    cbn [negb]. apply with_TemporaryDirectory_cleans. exact Hk.
  - intros Hget Hst.
    destruct (install_download_fetched source dest reason body status w Hget Hst)
      as (body_of & -> & _).
    apply with_TemporaryDirectory_cleans. exact Hk.
Qed.

(** X5.  The clean failures of the sparse checkout.  Without [git] on the
    path it returns [False] at once and the file system is untouched.  When
    [git clone] exits with a non-zero code within its 60 seconds it
    returns [False], and the file system is what the clone left, without
    the temporary directory. *)
Theorem install_git_sparse_clean_failures (source : Source) (dest : Path) (w : World)
    (code secs : Z) (out : string) (m : fsmap) :
  let t := mkdtemp env (fs w) in
  (which env "git" = false ->
   install_git_sparse env source dest w
   = (Ok false, mkWorld (fs w) (calls w ++ [CallGitSparse source dest])))
  /\ (which env "git" = true ->
      spawn env (clone_cmd source (Path_div (mkPath true t) "repo"))
        (<[t := Fs.Dir]> (fs w)) = (Exits code out secs, m) ->
      secs <= 60 -> code <> 0 ->
      install_git_sparse env source dest w
      = (Ok false, mkWorld (Fs.prune m t) (calls w ++ [CallGitSparse source dest]))).
Proof.
  intros t. split.
  - intros Hgit. unfold install_git_sparse, log. unfold bind at 1. rewrite Hgit. reflexivity.
  - intros Hgit Hclone Hsecs Hcode.
    unfold install_git_sparse, log. unfold bind at 1. rewrite Hgit. cbn [negb].
    unfold with_TemporaryDirectory. cbn [fs set_fs calls]. fold t.
    unfold bind at 1. unfold try_except at 1. unfold bind at 1.
    unfold subprocess_run at 1. cbn [fs set_fs calls]. rewrite Hclone.
    replace (60 <? secs) with false by lia.
    replace (code =? 0) with false by lia. reflexivity.
Qed.

End StrategyOutcomes.

Section BadArchive.

Variable env : Env.

Lemma is_dir_insert_dir (m : fsmap) (k : list string) :
  Fs.is_dir (<[k := Fs.Dir]> m) k = true.
Proof.
  unfold Fs.is_dir, Fs.max_links. cbn [Fs.follow].
  rewrite !lookup_insert_eq. reflexivity.
Qed.

Lemma under_snoc_self (t : list string) (x : string) : Fs.under t (t ++ [x]) = true.
Proof.
  unfold Fs.under. induction t as [|a t IH]; [reflexivity|].
  simpl. rewrite String.eqb_refl. exact IH.
Qed.

Lemma under_refl (t : list string) : Fs.under t t = true.
Proof. unfold Fs.under. rewrite strip_prefix_refl. reflexivity. Qed.

(** Writing a new file into a directory that was just made. *)
Lemma write_bytes_fresh (m : fsmap) (t : list string) (x data : string) :
  m !! (t ++ [x])%list = None ->
  Fs.write_bytes (<[t := Fs.Dir]> m) (t ++ [x]) data
  = Ok (<[(t ++ [x])%list := Fs.File data]> (<[t := Fs.Dir]> m)).
Proof.
  intros Hfree. unfold Fs.write_bytes.
  assert (Hne : t <> (t ++ [x])%list).
  { intros E. apply (f_equal (@List.length string)) in E.
    rewrite length_app in E. simpl in E. lia. }
  rewrite lookup_insert_ne by exact Hne. rewrite Hfree.
  rewrite removelast_last, is_dir_insert_dir. reflexivity.
Qed.

(** X6.  A payload that is not an archive is not a clean failure: when the
    host answers 2xx with a body the archive library refuses,
    [install_download] raises [BadZipFile].  Every path outside the
    temporary directory, the destination among them, is left as it was.
    The temporary directory is taken to be fresh. *)
Theorem install_download_bad_archive (source : Source) (dest : Path) (w : World)
    (status : Z) (reason body : string) :
  let t := mkdtemp env (fs w) in
  http_get env (zip_url source) (authorization env) = Response status reason body ->
  200 <= status < 300 ->
  unzip env body = None ->
  Fs.norm [] t = t ->
  fs w !! (t ++ ["repo.zip"])%list = None ->
  (install_download env source dest w).1 = Raise BadZipFile
  /\ forall k, Fs.under t k = false ->
               fs (install_download env source dest w).2 !! k = fs w !! k.
Proof.
  intros t Hget Hst Hzip Hnorm Hfresh.
  destruct (install_download_fetched env source dest reason body status w Hget Hst)
    as (body_of & -> & Hbody).
  assert (Hkey : key env (Path_div (mkPath true t) "repo.zip") = (t ++ ["repo.zip"])%list).
  { unfold key. rewrite locate_div by (reflexivity || discriminate).
    unfold Fs.locate. cbn [absolute parts]. rewrite Hnorm. reflexivity. }
  assert (Hrun : forall w0, fs w0 = <[t := Fs.Dir]> (fs w) ->
            body_of (mkPath true t) w0
            = (Raise BadZipFile,
               set_fs w0 (<[(t ++ ["repo.zip"])%list := Fs.File body]>
                            (<[t := Fs.Dir]> (fs w))))).
  { intros w0 Hw0. rewrite Hbody.
    unfold bind at 1. unfold fs_do at 1.
    rewrite Hkey, Hw0, (write_bytes_fresh _ _ _ _ Hfresh).
    unfold bind at 1. unfold zip_extractall. rewrite Hzip. reflexivity. }
  unfold with_TemporaryDirectory. cbn [fs set_fs calls]. fold t.
  rewrite Hrun by reflexivity. cbn [fst snd fs set_fs]. split; [reflexivity|].
  intros k Hk. rewrite prune_lookup_out by exact Hk.
  rewrite !lookup_insert_ne; [reflexivity| |].
  - intros <-. rewrite under_refl in Hk. discriminate.
  - intros <-. rewrite under_snoc_self in Hk. discriminate.
Qed.

End BadArchive.

(** ** Local installs *)

Section LocalInstall.

Variable env : Env.

(** X7.  [install_local] on a local path that does not exist returns
    [False] and leaves the file system as it is.  In symlink mode, when it
    returns [True], the destination is a symbolic link, whatever was there
    before. *)
Theorem install_local_outcomes (local_path dest : Path) (symlink : bool) (w w1 : World) :
  (Fs.exists_ (fs w) (key env local_path) = false ->
   install_local env local_path dest symlink w
   = (Ok false, mkWorld (fs w) (calls w ++ [CallLocal local_path dest symlink])))
  /\ (install_local env local_path dest true w = (Ok true, w1) ->
      Fs.is_symlink (fs w1) (key env dest) = true
      /\ Fs.exists_ (fs w) (key env local_path) = true).
Proof.
  split.
  - intros Hex. unfold install_local, log, path_exists. unfold bind at 1.
    rewrite bind_fs_ask. cbn [fs]. rewrite Hex. reflexivity.
  - intros H. unfold install_local in H.
    inv_bind H. unfold log in Ha. injection Ha as <- <-.
    inv_bind H. apply fs_ask_inv in Ha. destruct Ha as [-> ->]. cbn [fs] in *.
    destruct (Fs.exists_ (fs w) (key env local_path)); cbn [negb] in H;
      [|apply ret_inv in H; destruct H; discriminate].
    split; [|reflexivity].
    inv_bind H. inv_bind H. apply ret_inv in H. destruct H as [_ ->].
    inv_bind Ha0. inv_bind Ha0.
    unfold path_symlink_to_resolved in Ha0. apply fs_do_inv in Ha0.
    destruct Ha0 as (m & Hm & ->). cbn [fs set_fs].
    unfold Fs.symlink_to in Hm.
    match type of Hm with
    | context [?m0 !! key env dest] => destruct (m0 !! key env dest); [discriminate|]
    end.
    destruct (Fs.is_dir _ _); [|discriminate]. injection Hm as <-.
    unfold Fs.is_symlink. rewrite lookup_insert_eq. reflexivity.
Qed.

(** X8.  Symlink mode does not replace a dangling link: when the
    destination is a symbolic link that leads nowhere, [dest.exists()] is
    false, the old link is kept and [symlink_to] raises [FileExistsError].
    The parent of the destination is taken to exist already. *)
Theorem install_local_dangling_link (local_path dest : Path) (w : World) :
  Fs.exists_ (fs w) (key env local_path) = true ->
  Fs.mkdir_p (fs w) (key env (Path_parent dest)) = Ok (fs w) ->
  Fs.is_symlink (fs w) (key env dest) = true ->
  Fs.exists_ (fs w) (key env dest) = false ->
  install_local env local_path dest true w
  = (Raise FileExistsError,
     mkWorld (fs w) (calls w ++ [CallLocal local_path dest true])).
Proof.
  intros Hlocal Hparent Hlink Hdangling.
  unfold install_local, log, bind, path_exists, path_mkdir_p, path_is_symlink,
    path_symlink_to_resolved, fs_ask, fs_do, ret.
  cbn [fs set_fs calls]. rewrite Hlocal. cbn [negb fs set_fs calls]. rewrite Hparent.
  cbn [fs set_fs calls]. rewrite Hdangling. cbn [fs set_fs calls].
  unfold Fs.symlink_to. unfold Fs.is_symlink in Hlink.
  destruct (fs w !! key env dest) as [[| |]|]; try discriminate. reflexivity.
Qed.

End LocalInstall.

(** ** One outcome per target *)

Ltac inv_bind_as H a w Ha :=
  apply bind_inv_ok in H; destruct H as (a & w & Ha & H).

Section Reports.

Variable env : Env.
Variable registry : list Agent.

Lemma parse_source_keeps_world (source_str : string) (w w0 : World)
    (r : result (option Source * string)) :
  parse_source env source_str w = (r, w0) ->
  w0 = w /\ forall e, r = Raise e -> exists msg, e = InstallError msg.
Proof.
  unfold parse_source, path_exists. rewrite bind_fs_ask.
  destruct (Fs.exists_ _ _).
  { intros H. injection H as <- <-. split; [reflexivity|discriminate]. }
  destruct (PyStr.startswith "http" source_str).
  - unfold bind, lift, ret. unfold parse_github_url, parse_github_parsed.
    repeat match goal with
           | |- context [if ?b then _ else _] => destruct b
           end; intros H; injection H as <- <-; (split; [reflexivity|]);
      intros e He; try discriminate; injection He as <-; eauto.
  - unfold bind, lift, ret, parse_shorthand.
    destruct (_ <? _)%nat; intros H; injection H as <- <-; (split; [reflexivity|]);
      intros e He; try discriminate; injection He as <-; eauto.
Qed.

(** X9.  A source that the parser refuses with [InstallError] is refused
    before anything else happens: [install_skill] raises that error in
    the very world it was called in (no agent is probed, nothing is
    written), whatever the other arguments, and [main] returns 1 in that
    world. *)
Theorem install_skill_invalid_source (args : Args) (msg : string) (w w0 : World) :
  parse_source env (a_source args) w = (Raise (InstallError msg), w0) ->
  (forall agents symlink method local,
      install_skill env registry (a_source args) agents symlink method local w
      = (Raise (InstallError msg), w))
  /\ main env registry args w = (Ok 1, w).
Proof.
  intros Hparse. destruct (parse_source_keeps_world _ _ _ _ Hparse) as [-> _].
  split.
  - intros agents symlink method local. unfold install_skill.
    rewrite (bind_raise _ _ _ _ _ Hparse). reflexivity.
  - unfold main, install_skill.
    unfold bind at 1. unfold try_except. unfold bind at 1.
    rewrite (bind_raise _ _ _ _ _ Hparse). reflexivity.
Qed.

Lemma one_outcome_each_step (r r' : Results) (names : list string) (n p : string)
    (st : bool * option string) (dest : Path) :
  one_outcome_each r names ->
  r' = record_skipped r n dest \/ r' = record_outcome r n dest st ->
  one_outcome_each r' (names ++ [n]).
Proof.
  unfold one_outcome_each, reported. intros (Hperm & Hi & Hf & Hs) Hcase.
  destruct Hcase as [->| ->]; [|unfold record_outcome; destruct st.1];
    cbn [installed failed skipped record_skipped]; rewrite ?List.map_app; cbn [List.map];
    cbn [i_agent f_agent s_agent].
  - split; [rewrite <- Hperm; solve_Permutation|].
    split; [apply sublist_inserts_r; exact Hi|].
    split; [apply sublist_inserts_r; exact Hf|].
    apply sublist_app; [exact Hs|reflexivity].
  - split; [rewrite <- Hperm; solve_Permutation|].
    split; [apply sublist_app; [exact Hi|reflexivity]|].
    split; [apply sublist_inserts_r; exact Hf|].
    apply sublist_inserts_r; exact Hs.
  - split; [rewrite <- Hperm; solve_Permutation|].
    split; [apply sublist_inserts_r; exact Hi|].
    split; [apply sublist_app; [exact Hf|reflexivity]|].
    apply sublist_inserts_r; exact Hs.
Qed.

Lemma install_to_agent_records (local_path : Path) (source : option Source)
    (skill_name : string) (symlink : bool) (method : string) (local : bool)
    (r r' : Results) (n : string) (agent : Detected) (w w' : World) :
  install_to_agent env local_path source skill_name symlink method local r n agent w
  = (Ok r', w') ->
  r' = record_skipped r n (dest_of env agent skill_name local)
  \/ exists st, r' = record_outcome r n (dest_of env agent skill_name local) st.
Proof.
  unfold install_to_agent, path_exists. rewrite bind_fs_ask.
  destruct (_ && negb symlink).
  - intros H. apply ret_inv in H. destruct H as [-> _]. left. reflexivity.
  - rewrite bind_fs_ask. intros H. inv_bind H. apply ret_inv in H.
    destruct H as [-> _]. right. eauto.
Qed.

Lemma install_to_agents_records (local_path : Path) (source : option Source)
    (skill_name : string) (symlink : bool) (method : string) (local : bool)
    (targets : list (string * Detected)) (r r' : Results) (names : list string)
    (w w' : World) :
  one_outcome_each r names ->
  install_to_agents env local_path source skill_name symlink method local r targets w
  = (Ok r', w') ->
  one_outcome_each r' (names ++ List.map fst targets).
Proof.
  revert r names w. induction targets as [|[n agent] rest IH]; intros r names w Hinv;
    cbn [install_to_agents List.map fst].
  - intros H. apply ret_inv in H. destruct H as [-> _]. rewrite app_nil_r. exact Hinv.
  - intros H. inv_bind H.
    replace (names ++ n :: List.map fst rest)%list
      with ((names ++ [n]) ++ List.map fst rest)%list by (rewrite <- app_assoc; reflexivity).
    eapply IH; [|exact H].
    destruct (install_to_agent_records _ _ _ _ _ _ _ _ _ _ _ _ Ha) as [Hr|[st Hr]].
    + eapply (one_outcome_each_step r a names n EmptyString (false, None)); [exact Hinv|].
      left. exact Hr.
    + eapply (one_outcome_each_step r a names n EmptyString st); [exact Hinv|].
      right. exact Hr.
Qed.

(** X10.  When [install_skill] returns a report, the targets were the
    agents detected, narrowed to those asked for, and there was at least
    one; the report has exactly one outcome for each target, installed,
    failed or skipped, and each of the three lists keeps the order of
    detection. *)
Theorem install_skill_one_outcome_per_target (source_str : string)
    (agents : option (list string)) (symlink : bool) (method : string) (local : bool)
    (r : Results) (w w' : World) :
  install_skill env registry source_str agents symlink method local w = (Ok r, w') ->
  exists all w1,
    detect_all env registry w = (Ok all, w1)
    /\ targets_of agents all <> []
    /\ one_outcome_each r (List.map fst (targets_of agents all)).
Proof.
  intros H. unfold install_skill in H. inv_bind_as H parsed w0 Hparse.
  destruct (parse_source_keeps_world _ _ _ _ Hparse) as [-> _].
  inv_bind_as H found w1 Hdet. exists found, w1. split; [exact Hdet|].
  unfold targets_of.
  destruct (by_name found) as [|d0 ds] eqn:Hby; [discriminate|].
  inv_bind_as H ts w2 Hsel. destruct (selects agents) as [wanted|].
  - destruct (List.filter _ (d0 :: ds)) as [|t ts'] eqn:Hf; [discriminate|].
    apply ret_inv in Hsel. destruct Hsel as [-> ->]. split; [discriminate|].
    apply (install_to_agents_records _ _ _ _ _ _ _ _ _ [] _ _) in H; [exact H|].
    repeat split; try reflexivity; apply sublist_nil_l.
  - apply ret_inv in Hsel. destruct Hsel as [-> ->]. split; [discriminate|].
    apply (install_to_agents_records _ _ _ _ _ _ _ _ _ [] _ _) in H; [exact H|].
    repeat split; try reflexivity; apply sublist_nil_l.
Qed.

End Reports.

(** ** Uninstalling: reports, and what is left behind *)

Section UninstallMore.

Variable env : Env.
Variable registry : list Agent.

Lemma uninstall_from_agent_records (skill : string) (r r' : UResults) (n : string)
    (agent : Detected) (w w' : World) :
  uninstall_from_agent env skill r n agent w = (Ok r', w') ->
  exists st, r' = record_removal r n (Path_div (Path_of (d_skills_path agent)) skill) st.
Proof.
  unfold uninstall_from_agent. intros H.
  inv_bind_as H st0 w0 H0. inv_bind_as H dex w1 H1. inv_bind_as H st w2 H2.
  apply ret_inv in H. destruct H as [-> _]. eauto.
Qed.

Lemma one_removal_each_step (r : UResults) (names : list string) (n : string)
    (p : Path) (st : bool * option string) :
  one_removal_each r names -> one_removal_each (record_removal r n p st) (names ++ [n]).
Proof.
  unfold one_removal_each, record_removal. intros (Hperm & Hr & Hn).
  destruct st.1; cbn [removed not_found]; rewrite ?List.map_app; cbn [List.map];
    cbn [r_agent n_agent].
  - split; [rewrite <- Hperm; solve_Permutation|].
    split; [apply sublist_app; [exact Hr|reflexivity]|].
    apply sublist_inserts_r; exact Hn.
  - split; [rewrite <- Hperm; solve_Permutation|].
    split; [apply sublist_inserts_r; exact Hr|].
    apply sublist_app; [exact Hn|reflexivity].
Qed.

Lemma uninstall_from_agents_records (skill : string)
    (targets : list (string * Detected)) (r r' : UResults) (names : list string)
    (w w' : World) :
  one_removal_each r names ->
  uninstall_from_agents env skill r targets w = (Ok r', w') ->
  one_removal_each r' (names ++ List.map fst targets).
Proof.
  revert r names w. induction targets as [|[n agent] rest IH]; intros r names w Hinv;
    cbn [uninstall_from_agents List.map fst].
  - intros H. apply ret_inv in H. destruct H as [-> _]. rewrite app_nil_r. exact Hinv.
  - intros H. inv_bind_as H r1 w1 H1.
    replace (names ++ n :: List.map fst rest)%list
      with ((names ++ [n]) ++ List.map fst rest)%list by (rewrite <- app_assoc; reflexivity).
    eapply IH; [|exact H].
    destruct (uninstall_from_agent_records _ _ _ _ _ _ _ H1) as [st ->].
    apply one_removal_each_step. exact Hinv.
Qed.

(** X11.  When [uninstall_skill] returns a report, the report has exactly
    one outcome, removed or not found, for each agent detected and asked
    for, each of the two lists keeps the order of detection, and [main]
    of [uninstall.py] returns 0 exactly when something was removed. *)
Theorem uninstall_skill_one_outcome_per_target (skill agents : string)
    (r : UResults) (w w' : World) :
  uninstall_skill env registry skill (Some (agents_of agents)) w = (Ok r, w') ->
  (exists found w1,
      detect_all env registry w = (Ok found, w1)
      /\ one_removal_each r (List.map fst (targets_of (Some (agents_of agents)) found)))
  /\ exists code,
       uninstall_main env registry skill agents w = (Ok code, w')
       /\ (code = 0 <-> removed r <> [])
       /\ (code = 1 <-> removed r = []).
Proof.
  intros H. split.
  - unfold uninstall_skill in H. inv_bind_as H found w1 Hdet.
    exists found, w1. split; [exact Hdet|]. unfold targets_of.
    assert (Hempty : one_removal_each (mkUResults [] []) []).
    { repeat split; try reflexivity; apply sublist_nil_l. }
    destruct (by_name found) as [|d0 ds] eqn:Hby.
    + apply ret_inv in H. destruct H as [-> _].
      destruct (selects _); exact Hempty.
    + apply (uninstall_from_agents_records _ _ _ _ [] _ _ Hempty) in H. exact H.
  - exists (uninstall_exit_status r). split.
    + unfold uninstall_main. rewrite (bind_ok _ _ _ _ _ H). reflexivity.
    + unfold uninstall_exit_status. destruct (removed r); split; split;
        intros; try discriminate; try reflexivity; try congruence.
Qed.

Lemma exists_absent (m : fsmap) (k : list string) :
  m !! k = None -> Fs.exists_ m k = false.
Proof.
  intros Hk. unfold Fs.exists_, Fs.max_links. cbn [Fs.follow]. rewrite Hk. reflexivity.
Qed.

(** An agent without a native command: only the file-based removal. *)
Lemma uninstall_from_agent_plain (skill : string) (r : UResults) (n : string)
    (agent : Detected) (w : World) :
  truthy (d_builtin_install agent) = false ->
  let skill_path := Path_div (Path_of (d_skills_path agent)) skill in
  uninstall_from_agent env skill r n agent w
  = if Fs.exists_ (fs w) (key env skill_path)
    then
      match (if Fs.is_symlink (fs w) (key env skill_path)
             then Fs.unlink (fs w) (key env skill_path)
             else Fs.rmtree (fs w) (key env skill_path)) with
      | Ok m => (Ok (record_removal r n skill_path (true, Some "file")), set_fs w m)
      | Raise e => (Raise e, w)
      end
    else (Ok (record_removal r n skill_path (false, None)), w).
Proof.
  intros Hnone skill_path. unfold uninstall_from_agent. fold skill_path. rewrite Hnone.
  unfold bind, ret, path_exists, path_is_symlink, path_unlink, shutil_rmtree, fs_ask, fs_do.
  cbn [fst snd negb andb].
  destruct (Fs.exists_ (fs w) (key env skill_path)); [|reflexivity].
  destruct (Fs.is_symlink (fs w) (key env skill_path)).
  - destruct (Fs.unlink _ _); reflexivity.
  - destruct (Fs.rmtree _ _); reflexivity.
Qed.

(** After a file-based removal the skill path is gone. *)
Lemma removal_leaves_nothing (m m1 : fsmap) (k : list string) :
  (if Fs.is_symlink m k then Fs.unlink m k else Fs.rmtree m k) = Ok m1 ->
  m1 !! k = None /\ forall k', Fs.under k k' = false -> m1 !! k' = m !! k'.
Proof.
  unfold Fs.is_symlink, Fs.unlink, Fs.rmtree.
  destruct (m !! k) as [[| |]|]; try discriminate; intros H; injection H as <-.
  - split; [apply prune_lookup_in, under_refl|].
    intros k' Hout. apply prune_lookup_out. exact Hout.
  - split; [apply lookup_delete_eq|].
    intros k' Hout. apply lookup_delete_ne. intros <-. rewrite under_refl in Hout.
    discriminate.
Qed.

(** X12.  Uninstalling twice from an agent without native command: whatever
    the first run did, removed the skill or did not find it, the skill
    path does not exist afterwards, and a second run records the agent as
    not found and changes nothing. *)
Theorem uninstall_twice_not_found (skill : string) (r r1 r' : UResults) (n : string)
    (agent : Detected) (w w1 : World) :
  truthy (d_builtin_install agent) = false ->
  uninstall_from_agent env skill r n agent w = (Ok r1, w1) ->
  let skill_path := Path_div (Path_of (d_skills_path agent)) skill in
  Fs.exists_ (fs w1) (key env skill_path) = false
  /\ uninstall_from_agent env skill r' n agent w1
     = (Ok (mkUResults (removed r')
              (not_found r' ++ [mkNotFound n (Path_str skill_path)])), w1).
Proof.
  intros Hnone Hrun skill_path.
  assert (Hgone : Fs.exists_ (fs w1) (key env skill_path) = false).
  { rewrite (uninstall_from_agent_plain skill r n agent w Hnone) in Hrun.
    fold skill_path in Hrun.
    destruct (Fs.exists_ (fs w) (key env skill_path)) eqn:Hex.
    - destruct (if Fs.is_symlink _ _ then _ else _) as [m|e] eqn:Hrm; [|discriminate].
      injection Hrun as _ <-. cbn [fs set_fs].
      apply exists_absent. apply (removal_leaves_nothing _ _ _ Hrm).
    - injection Hrun as _ <-. exact Hex. }
  split; [exact Hgone|].
  rewrite (uninstall_from_agent_plain skill r' n agent w1 Hnone).
  fold skill_path. rewrite Hgone. reflexivity.
Qed.

End UninstallMore.

(** ** Installing, then uninstalling *)

Section KindFacts.

Import Fs.

Lemma ensure_dir_kind (last : bool) (m m1 : fsmap) (k : list string) :
  ensure_dir last m k = Ok m1 -> dir_or_link (m1 !! k).
Proof.
  unfold ensure_dir. destruct (m !! k) as [n|] eqn:Hk.
  - destruct (is_dir m k) eqn:Hdir; [|discriminate]. intros H. injection H as <-.
    rewrite Hk. unfold is_dir, max_links in Hdir. cbn [follow] in Hdir. rewrite Hk in Hdir.
    destruct n; [exact I| |exact I]. rewrite Hk in Hdir. discriminate.
  - intros H. injection H as <-. rewrite lookup_insert_eq. exact I.
Qed.

Lemma mkdirs_kind (m m1 : fsmap) (done todo : list string) :
  mkdirs m done todo = Ok m1 -> dir_or_link (m1 !! (done ++ todo)%list).
Proof.
  revert m done. induction todo as [|c todo IH]; intros m done; simpl.
  - rewrite app_nil_r. apply ensure_dir_kind.
  - destruct (ensure_dir false m done) as [m0|e]; [|discriminate].
    intros H. apply IH in H. rewrite <- app_assoc in H. exact H.
Qed.

Lemma copytree_kind (m m1 : fsmap) (src dst : list string) :
  copytree m src dst = Ok m1 -> dir_or_link (m1 !! dst).
Proof.
  unfold copytree. destruct (follow max_links m src) as [s|]; [|discriminate].
  destruct (m !! s) as [[| |]|]; try discriminate.
  destruct (mkdir_p m dst) as [m0|e] eqn:Hmk; [|discriminate].
  intros H. injection H as <-. rewrite graft_lookup_out.
  - apply (mkdirs_kind m m0 [] dst Hmk).
  - intros e He E. apply (subtree_below _ _ _ He).
    apply (f_equal (@List.length string)) in E. rewrite length_app in E.
    destruct e.1; [reflexivity|simpl in E; lia].
Qed.

End KindFacts.

Section Symmetry.

Variable env : Env.

Lemma install_git_sparse_kind (source : Source) (dest : Path) (w w1 : World) :
  Fs.under (mkdtemp env (fs w)) (key env dest) = false ->
  install_git_sparse env source dest w = (Ok true, w1) ->
  dir_or_link (fs w1 !! key env dest).
Proof.
  intros Htmp H. unfold install_git_sparse in H.
  inv_bind_as H u0 w0 Hlog. unfold log in Hlog. injection Hlog as <- <-.
  destruct (which env "git"); cbn [negb] in H; [|apply ret_inv in H; destruct H; discriminate].
  apply with_TemporaryDirectory_inv in H. destruct H as (w2 & H & ->).
  cbn [fs set_fs]. rewrite prune_lookup_out by exact Htmp. cbn [fs] in H.
  inv_bind_as H cloned w3 Hclone.
  destruct cloned; cbn [negb] in H; [|apply ret_inv in H; destruct H; discriminate].
  inv_bind_as H u1 w4 Hsparse. inv_bind_as H present w5 Hsrc.
  destruct present; cbn [negb] in H; [|apply ret_inv in H; destruct H; discriminate].
  inv_bind_as H u2 w6 Hmk. inv_bind_as H u3 w7 Hcp.
  unfold shutil_copytree in Hcp. apply fs_do_inv in Hcp.
  destruct Hcp as (m & Hm & ->). apply copytree_kind in Hm.
  inv_bind_as H gex w8 Hgit. apply fs_ask_inv in Hgit. destruct Hgit as [-> ->].
  inv_bind_as H u4 w9 Hrm. apply ret_inv in H. destruct H as [_ ->].
  destruct (Fs.exists_ _ _).
  - unfold shutil_rmtree in Hrm. apply fs_do_inv in Hrm.
    destruct Hrm as (m' & Hm' & ->). cbn [fs set_fs] in *.
    rewrite (rmtree_lookup_out _ _ _ _ Hm'); [exact Hm|].
    rewrite key_git_dir. apply under_snoc.
  - apply ret_inv in Hrm. destruct Hrm as [_ ->]. exact Hm.
Qed.

Lemma install_download_kind (source : Source) (dest : Path) (w w1 : World) :
  Fs.under (mkdtemp env (fs w)) (key env dest) = false ->
  install_download env source dest w = (Ok true, w1) ->
  dir_or_link (fs w1 !! key env dest).
Proof.
  intros Htmp H. unfold install_download in H.
  inv_bind_as H u0 w0 Hlog. unfold log in Hlog. injection Hlog as <- <-.
  inv_bind_as H fetched w2 Hfetch.
  assert (Hfs : fs w2 = fs w).
  { revert Hfetch.
    unfold try_except, bind, github_request, try_except, urlopen_read, ret, raise.
    destruct (http_get env _ _) as [status reason body|]; [|discriminate].
    destruct (_ && _); intros Ha; injection Ha as _ <-; reflexivity. }
  destruct fetched as [payload|]; [|apply ret_inv in H; destruct H; discriminate].
  apply with_TemporaryDirectory_inv in H. destruct H as (w3 & H & ->).
  cbn [fs set_fs]. rewrite Hfs. rewrite prune_lookup_out by exact Htmp.
  inv_bind_as H u1 w4 Hwrite. inv_bind_as H u2 w5 Hzip. inv_bind_as H extracted w6 Hglob.
  destruct extracted as [ek|]; [|apply ret_inv in H; destruct H; discriminate].
  inv_bind_as H present w7 Hsrc.
  destruct present; cbn [negb] in H; [|apply ret_inv in H; destruct H; discriminate].
  inv_bind_as H u3 w8 Hmk. inv_bind_as H u4 w9 Hcp. apply ret_inv in H. destruct H as [_ ->].
  unfold shutil_copytree in Hcp. apply fs_do_inv in Hcp.
  destruct Hcp as (m & Hm & ->). apply copytree_kind in Hm. exact Hm.
Qed.

Lemma install_local_copy_kind (local_path dest : Path) (w w1 : World) :
  install_local env local_path dest false w = (Ok true, w1) ->
  dir_or_link (fs w1 !! key env dest).
Proof.
  intros H. unfold install_local in H.
  inv_bind_as H u0 w0 Hlog. inv_bind_as H present w2 Hsrc.
  destruct present; cbn [negb] in H; [|apply ret_inv in H; destruct H; discriminate].
  inv_bind_as H u1 w3 Hparent. inv_bind_as H u2 w4 Hcopy.
  apply ret_inv in H. destruct H as [_ ->].
  inv_bind_as Hcopy u3 w5 Hmk. unfold shutil_copytree in Hcopy. apply fs_do_inv in Hcopy.
  destruct Hcopy as (m & Hm & ->). apply copytree_kind in Hm. exact Hm.
Qed.

Lemma first_success_kind (source : Source) (agent : Detected) (dest : Path)
    (l : list Strategy) (w w1 : World) (used : option string) :
  (forall m, Fs.under (mkdtemp env m) (key env dest) = false) ->
  ~ In Native l ->
  first_success env source agent dest l w = (Ok (true, used), w1) ->
  dir_or_link (fs w1 !! key env dest).
Proof.
  intros Htmp. revert w. induction l as [|s l IH]; intros w Hnot H.
  - apply ret_inv in H. destruct H; discriminate.
  - cbn [first_success] in H. inv_bind_as H ok w0 Hs. destruct ok.
    + apply ret_inv in H. destruct H as [_ ->].
      destruct s; cbn [attempt] in Hs.
      * exfalso. apply Hnot. left. reflexivity.
      * eapply install_git_sparse_kind; [apply Htmp|exact Hs].
      * eapply install_download_kind; [apply Htmp|exact Hs].
    + eapply IH; [|exact H]. intros Hin. apply Hnot. right. exact Hin.
Qed.

Lemma strategies_without_native (method : string) (agent : Detected) :
  truthy (d_builtin_install agent) = false -> ~ In Native (strategies_for method agent).
Proof.
  intros Hnone. unfold strategies_for, fixed_order, available. cbn [List.filter].
  rewrite Hnone, andb_false_r.
  destruct (selected method SparseCheckout && true);
    destruct (selected method ArchiveDownload && true); simpl; intuition discriminate.
Qed.

(** X13.  Installing, then uninstalling: for an agent without native
    command, when the loop body of [install_skill] (without symlinks, into
    the agent's own skills directory) records the target as installed and
    the destination is not a symbolic link, the loop body of
    [uninstall_skill] for the same skill then records the agent as removed
    by the method [file]; afterwards the destination does not exist,
    nothing is left below it, and every other path is as the install left
    it.  Temporary directories are assumed not to lie on the path to the
    destination. *)
Theorem install_then_uninstall (local_path : Path) (source : option Source)
    (skill_name method : string) (results r1 : Results) (uresults : UResults)
    (agent_name : string) (agent : Detected) (used : option string) (w0 w1 : World) :
  let dest := dest_of env agent skill_name false in
  truthy (d_builtin_install agent) = false ->
  (forall m, Fs.under (mkdtemp env m) (key env dest) = false) ->
  install_to_agent env local_path source skill_name false method false
    results agent_name agent w0 = (Ok r1, w1) ->
  installed r1
  = (installed results ++ [mkInstalled agent_name (Path_str dest) used])%list ->
  Fs.is_symlink (fs w1) (key env dest) = false ->
  uninstall_from_agent env skill_name uresults agent_name agent w1
  = (Ok (mkUResults
           (removed uresults ++ [mkRemoved agent_name (Path_str dest) (Some "file")])
           (not_found uresults)),
     set_fs w1 (Fs.prune (fs w1) (key env dest)))
  /\ Fs.exists_ (Fs.prune (fs w1) (key env dest)) (key env dest) = false
  /\ (forall k, Fs.under (key env dest) k = true ->
                Fs.prune (fs w1) (key env dest) !! k = None)
  /\ (forall k, Fs.under (key env dest) k = false ->
                Fs.prune (fs w1) (key env dest) !! k = fs w1 !! k).
Proof.
  intros dest Hnone Htmp Hrun Hinst Hlink.
  assert (Hkind : dir_or_link (fs w1 !! key env dest)).
  { unfold install_to_agent, path_exists in Hrun. rewrite bind_fs_ask in Hrun.
    fold dest in Hrun. destruct (Fs.exists_ (fs w0) (key env dest) && negb false).
    { apply ret_inv in Hrun. destruct Hrun as [-> _]. simpl in Hinst.
      exfalso. exact (app_one_neq _ _ Hinst). }
    rewrite bind_fs_ask in Hrun. inv_bind_as Hrun st w2 Hst.
    apply ret_inv in Hrun. destruct Hrun as [-> ->].
    destruct st as [ok name]. unfold record_outcome in Hinst. destruct ok; simpl in Hinst.
    2:{ exfalso. exact (app_one_neq _ _ Hinst). }
    destruct (Fs.exists_ (fs w0) (key env local_path)).
    - inv_bind_as Hst ok w3 Hlocal. apply ret_inv in Hst. destruct Hst as [Hst ->].
      injection Hst as <- _. eapply install_local_copy_kind. exact Hlocal.
    - destruct source as [src|].
      + rewrite install_from_github_first_success in Hst.
        eapply first_success_kind; [exact Htmp| |exact Hst].
        apply strategies_without_native. exact Hnone.
      + apply ret_inv in Hst. destruct Hst; discriminate. }
  assert (Hdir : fs w1 !! key env dest = Some Fs.Dir).
  { unfold Fs.is_symlink in Hlink. unfold dir_or_link in Hkind.
    destruct (fs w1 !! key env dest) as [[| |]|]; try contradiction; try discriminate.
    reflexivity. }
  split; [|split; [|split]].
  - rewrite (uninstall_from_agent_plain env skill_name uresults agent_name agent w1 Hnone).
    change (Path_div (Path_of (d_skills_path agent)) skill_name) with dest.
    rewrite exists_present by (rewrite ?Hdir; eauto).
    rewrite Hlink. unfold Fs.rmtree. rewrite Hdir. reflexivity.
  - apply exists_absent, prune_lookup_in, under_refl.
  - intros k Hk. apply prune_lookup_in. exact Hk.
  - intros k Hk. apply prune_lookup_out. exact Hk.
Qed.

End Symmetry.

(** ** Detection *)

Section Detection.

Variable env : Env.
Variable registry : list Agent.

Lemma detect_agent_reports (agent : Agent) (w w1 : World) (r : option Detected) :
  detect_agent env agent w = (Ok r, w1) ->
  calls w1 = calls w /\ forall d, r = Some d -> reports agent d.
Proof.
  intros Hrun. split.
  - pose proof (quiet_detect_agent env agent w) as Hq. rewrite Hrun in Hq. exact Hq.
  - intros d ->. unfold detect_agent in Hrun.
    inv_bind_as Hrun v1 w2 H1. inv_bind_as Hrun v2 w3 H2.
    destruct v2 as [v|]; [|apply ret_inv in Hrun; destruct Hrun; discriminate].
    destruct (PyStr.nonempty v) eqn:Hv; apply ret_inv in Hrun; destruct Hrun as [Hd _];
      [|discriminate].
    injection Hd as Hd. subst d. unfold reports. simpl. repeat split; exact Hv.
Qed.

(** X14.  Whenever [detect_agent] returns, it has invoked no strategy.  The
    entry it returns copies the fields of the agent from the registry and
    has a version that is not empty.  An agent whose detection path
    exists, once the version command has run, is detected.  And an agent
    is detected only if its detection path exists, or its version command
    is on the path and exits with 0 within its 5 seconds, the version then
    being the first line of what it printed, stripped. *)
Theorem detect_agent_sound (agent : Agent) (w w1 : World) (r : option Detected) :
  detect_agent env agent w = (Ok r, w1) ->
  calls w1 = calls w
  /\ (forall d, r = Some d -> reports agent d)
  /\ (forall p, detect_path agent = Some p ->
                Fs.exists_ (fs w1) (key env p) = true -> is_Some r)
  /\ (forall d, r = Some d ->
        (exists p, detect_path agent = Some p
                   /\ Fs.exists_ (fs w1) (key env p) = true)
        \/ (exists c0 rest out secs,
              detect_cmd agent = Some (c0 :: rest) /\ which env c0 = true
              /\ spawn env (c0 :: rest) (fs w) = (Exits 0 out secs, fs w1)
              /\ secs <= 5
              /\ d_version d = nth 0 (PyStr.split PyStr.LF (PyStr.strip out)) EmptyString)).
Proof.
  intros Hrun.
  destruct (detect_agent_reports agent w w1 r Hrun) as [Hcalls Hrep].
  split; [exact Hcalls|]. split; [exact Hrep|].
  unfold detect_agent in Hrun.
  inv_bind_as Hrun v1 w2 H1. inv_bind_as Hrun v2 w3 H2.
  assert (Hend : w1 = w3 /\ r = match v2 with
                                | Some v => if PyStr.nonempty v
                                            then Some (mkDetected (name agent) (display_name agent) v
                                                         (Path_str (skills_path agent)) (local_skills_dir agent)
                                                         (builtin_install agent))
                                            else None
                                | None => None end).
  { destruct v2 as [v|]; [destruct (PyStr.nonempty v)|]; apply ret_inv in Hrun;
      destruct Hrun as [-> ->]; auto. }
  clear Hrun Hrep Hcalls. destruct Hend as [-> ->].
  assert (Hprobe : v1 = None /\ True \/
                   exists c0 rest out secs,
                     detect_cmd agent = Some (c0 :: rest) /\ which env c0 = true
                     /\ spawn env (c0 :: rest) (fs w) = (Exits 0 out secs, fs w2)
                     /\ secs <= 5
                     /\ v1 = Some (nth 0 (PyStr.split PyStr.LF (PyStr.strip out)) EmptyString)).
  { destruct (detect_cmd agent) as [[|c0 rest]|];
      try (apply ret_inv in H1; destruct H1 as [-> _]; left; auto; fail).
    destruct (which env c0) eqn:Hwhich;
      [|apply ret_inv in H1; destruct H1 as [-> _]; left; auto].
    revert H1. unfold try_except, bind, subprocess_run, ret.
    destruct (spawn env (c0 :: rest) (fs w)) as [p m] eqn:Hspawn.
    destruct p as [code out secs| |]; simpl.
    - destruct (5 <? secs) eqn:Hsecs; simpl.
      + intros H1. injection H1 as <- _. left; auto.
      + destruct (code =? 0) eqn:Hcode; intros H1; injection H1 as <- <-.
        * right. exists c0, rest, out, secs. apply Z.eqb_eq in Hcode. subst code.
          apply Z.ltb_ge in Hsecs. auto.
        * left; auto.
    - intros H1. injection H1 as <- _. left; auto.
    - intros H1. injection H1 as <- _. left; auto. }
  split.
  - intros p Hp Hex. rewrite Hp in H2. unfold path_exists in H2.
    rewrite bind_fs_ask in H2.
    destruct (Fs.exists_ (fs w2) (key env p)) eqn:Hex2.
    + apply ret_inv in H2. destruct H2 as [-> ->].
      destruct (truthy v1) eqn:Ht.
      * destruct v1 as [v|]; [|discriminate]. simpl in Ht. rewrite Ht. eauto.
      * simpl. eauto.
    + apply ret_inv in H2. destruct H2 as [_ ->]. congruence.
  - intros d Hd.
    destruct (detect_path agent) as [p|].
    + unfold path_exists in H2. rewrite bind_fs_ask in H2.
      destruct (Fs.exists_ (fs w2) (key env p)) eqn:Hex2;
        apply ret_inv in H2; destruct H2 as [-> ->].
      * left. eauto.
      * destruct Hprobe as [[-> _]|(c0 & rest & out & secs & ? & ? & ? & ? & ->)];
          [discriminate|].
        right. exists c0, rest, out, secs.
        destruct (PyStr.nonempty _); [|discriminate]. injection Hd as Hd. subst d. simpl. auto.
    + apply ret_inv in H2. destruct H2 as [-> ->].
      destruct Hprobe as [[-> _]|(c0 & rest & out & secs & ? & ? & ? & ? & ->)];
        [discriminate|].
      right. exists c0, rest, out, secs.
      destruct (PyStr.nonempty _); [|discriminate]. injection Hd as Hd. subst d. simpl. auto.
Qed.

Lemma detect_each_registry (agents : list Agent) (acc res : list Detected) (w w1 : World) :
  detect_each env agents acc w = (Ok res, w1) ->
  calls w1 = calls w
  /\ exists l found,
       res = (acc ++ l)%list /\ sublist found agents /\ Forall2 reports found l.
Proof.
  revert acc w. induction agents as [|a agents IH]; intros acc w H.
  - apply ret_inv in H. destruct H as [-> ->]. split; [reflexivity|].
    exists [], []. rewrite app_nil_r. repeat split; constructor.
  - cbn [detect_each] in H. inv_bind_as H r w0 Hrun.
    destruct (detect_agent_reports a w w0 r Hrun) as [Hcalls Hrep].
    destruct r as [d|].
    + destruct (IH _ _ H) as (Hc & l & found & -> & Hsub & Hall).
      split; [congruence|]. exists (d :: l), (a :: found).
      rewrite <- app_assoc. split; [reflexivity|].
      split; [constructor; exact Hsub|constructor; [apply Hrep; reflexivity|exact Hall]].
    + destruct (IH _ _ H) as (Hc & l & found & -> & Hsub & Hall).
      split; [congruence|]. exists l, found. split; [reflexivity|].
      split; [constructor; exact Hsub|exact Hall].
Qed.

(** X15.  Whenever [detect_all] returns, it has invoked no strategy, and
    what it returns are the entries of some agents of the registry, in the
    order of the registry and each at most once: when the names of the
    registry are distinct, so are the names detected. *)
Theorem detect_all_registry (w w1 : World) (l : list Detected) :
  detect_all env registry w = (Ok l, w1) ->
  calls w1 = calls w
  /\ exists found,
       sublist found registry /\ Forall2 reports found l
       /\ (NoDup (map name registry) -> NoDup (map d_name l)).
Proof.
  intros Hrun.
  destruct (detect_each_registry registry [] l w w1 Hrun)
    as (Hc & l' & found & -> & Hsub & Hall).
  split; [exact Hc|]. exists found. split; [exact Hsub|]. split; [exact Hall|].
  intros Hnd. cbn [app].
  assert (Hnames : map d_name l' = map name found).
  { clear -Hall. induction Hall as [|a d found l Hrep _ IH]; [reflexivity|].
    simpl. rewrite IH. destruct Hrep as [-> _]. reflexivity. }
  rewrite Hnames. apply (sublist_NoDup _ (map name registry) Hnd).
  apply (fmap_sublist name). exact Hsub.
Qed.

(** X16.  [main] of [detect_agents.py] with [--agent] naming an agent that
    is not in the registry returns 1, and nothing is probed: the world is
    unchanged.  And whenever [main] returns, it returns 0 or 1, and 1 only
    in that case: an agent that is known and not installed gives 0. *)
Theorem detect_main_exit (agent : option string) (w : World) :
  (truthy agent = true ->
   Forall (fun a => name a <> default EmptyString agent) registry ->
   detect_main env registry agent w = (Ok 1, w))
  /\ (forall code w1,
        detect_main env registry agent w = (Ok code, w1) ->
        (code = 0 \/ code = 1)
        /\ (code = 1 ->
            truthy agent = true
            /\ Forall (fun a => name a <> default EmptyString agent) registry
            /\ w1 = w)).
Proof.
  unfold detect_main. split.
  - intros Ht Hall. rewrite Ht.
    destruct (List.find _ registry) as [a|] eqn:Hfind; [|reflexivity].
    apply find_some in Hfind. destruct Hfind as [Hin Heq].
    apply String.eqb_eq in Heq. rewrite Forall_forall in Hall.
    exfalso. apply (Hall a); [apply list_elem_of_In; exact Hin|exact Heq].
  - intros code w1 H. destruct (truthy agent) eqn:Ht.
    + destruct (List.find _ registry) as [a|] eqn:Hfind.
      * inv_bind_as H r w2 Hrun. apply ret_inv in H. destruct H as [-> _].
        split; [left; reflexivity|discriminate].
      * apply ret_inv in H. destruct H as [-> ->].
        split; [right; reflexivity|]. intros _. split; [reflexivity|].
        split; [|reflexivity]. apply Forall_forall. intros a Hin Heq.
        apply list_elem_of_In in Hin.
        pose proof (find_none _ _ Hfind a Hin) as Hne. simpl in Hne.
        apply String.eqb_neq in Hne. contradiction.
    + inv_bind_as H r w2 Hrun. apply ret_inv in H. destruct H as [-> _].
      split; [left; reflexivity|discriminate].
Qed.

End Detection.

(** ** Listing: [list.py] *)

Section Listing.

Lemma ltb_leb (a b : string) : String.ltb a b = true -> String.leb a b = true.
Proof. unfold String.ltb, String.leb. destruct (a ?= b)%string; congruence. Qed.

Lemma ltb_false_leb (a b : string) : String.ltb a b = false -> String.leb b a = true.
Proof.
  unfold String.ltb, String.leb. rewrite (String.compare_antisym a b).
  destruct (b ?= a)%string; simpl; congruence.
Qed.

Lemma leb_trans (a b c : string) :
  String.leb a b = true -> String.leb b c = true -> String.leb a c = true.
Proof.
  intros Hab Hbc. apply Is_true_true. apply Is_true_true in Hab, Hbc.
  exact (transitivity (R := String.le) Hab Hbc).
Qed.

Lemma insert_by_name_perm (x : Skill) (l : list Skill) : insert_by_name x l ≡ₚ x :: l.
Proof.
  induction l as [|y l IH]; simpl; [reflexivity|].
  destruct (String.ltb (k_name x) (k_name y)); [reflexivity|].
  rewrite IH. apply Permutation_swap.
Qed.

Lemma sorted_by_name_perm (l : list Skill) : sorted_by_name l ≡ₚ l.
Proof.
  unfold sorted_by_name.
  assert (H : forall acc, fold_left (fun acc x => insert_by_name x acc) l acc ≡ₚ (acc ++ l)%list).
  { induction l as [|x l IH]; intros acc; simpl.
    - rewrite app_nil_r. reflexivity.
    - rewrite IH, insert_by_name_perm. rewrite (Permutation_middle acc l x). reflexivity. }
  apply (H []).
Qed.

Lemma insert_by_name_sorted (x : Skill) (l : list Skill) :
  StronglySorted name_le l -> StronglySorted name_le (insert_by_name x l).
Proof.
  induction 1 as [|y l Hs IH Hall]; simpl.
  - constructor; constructor.
  - destruct (String.ltb (k_name x) (k_name y)) eqn:Hlt.
    + constructor; [constructor; assumption|].
      apply ltb_leb in Hlt. constructor; [exact Hlt|].
      eapply Forall_impl; [exact Hall|]. intros z Hz. exact (leb_trans _ _ _ Hlt Hz).
    + constructor; [exact IH|].
      rewrite insert_by_name_perm. constructor; [|exact Hall].
      apply ltb_false_leb. exact Hlt.
Qed.

Lemma sorted_by_name_sorted (l : list Skill) : StronglySorted name_le (sorted_by_name l).
Proof.
  unfold sorted_by_name.
  assert (H : forall acc, StronglySorted name_le acc ->
                          StronglySorted name_le
                            (fold_left (fun acc x => insert_by_name x acc) l acc)).
  { induction l as [|x l IH]; intros acc Hacc; simpl; [exact Hacc|].
    apply IH, insert_by_name_sorted, Hacc. }
  apply H. constructor.
Qed.

Lemma NoDup_omap_inj {A B : Type} (f : A -> option B) (l : list A) :
  (forall x y z, f x = Some z -> f y = Some z -> x = y) ->
  NoDup l -> NoDup (omap f l).
Proof.
  intros Hinj. induction 1 as [|x l Hx Hnd IH]; simpl; [constructor|].
  destruct (f x) as [z|] eqn:Hfx; [|exact IH].
  constructor; [|exact IH].
  rewrite list_elem_of_omap. intros (y & Hy & Hfy).
  rewrite (Hinj _ _ _ Hfx Hfy) in Hx. contradiction.
Qed.

Lemma strip_prefix_app (p suf : list string) : Fs.strip_prefix p (p ++ suf) = Some suf.
Proof.
  induction p as [|a p IH]; simpl; [reflexivity|]. rewrite String.eqb_refl. exact IH.
Qed.

Lemma listdir_elem (m : fsmap) (d : list string) (entry : string) :
  entry ∈ listdir m d <-> is_Some (m !! (d ++ [entry])%list).
Proof.
  unfold listdir. rewrite list_elem_of_omap. split.
  - intros (k & Hk & Hstrip).
    destruct (Fs.strip_prefix d k) as [[|e [|]]|] eqn:Hs; try discriminate.
    injection Hstrip as ->. apply strip_prefix_Some in Hs. subst k.
    apply list_elem_of_fmap in Hk. destruct Hk as ([k n] & -> & Hkn).
    apply elem_of_map_to_list in Hkn. simpl. eauto.
  - intros [n Hn]. exists (d ++ [entry])%list. split.
    + apply list_elem_of_fmap. exists (d ++ [entry], n)%list. split; [reflexivity|].
      apply elem_of_map_to_list. exact Hn.
    + rewrite strip_prefix_app. reflexivity.
Qed.

Lemma listdir_NoDup (m : fsmap) (d : list string) : NoDup (listdir m d).
Proof.
  unfold listdir. apply NoDup_omap_inj; [|apply NoDup_fst_map_to_list].
  intros x y z Hx Hy.
  destruct (Fs.strip_prefix d x) as [[|e [|]]|] eqn:Hsx; try discriminate.
  destruct (Fs.strip_prefix d y) as [[|e' [|]]|] eqn:Hsy; try discriminate.
  apply strip_prefix_Some in Hsx, Hsy. congruence.
Qed.

Lemma skill_entry_name (m : fsmap) (sp : Path) (b : list string) (entry : string)
    (s : Skill) :
  skill_entry m sp b entry = Some s -> k_name s = entry.
Proof.
  unfold skill_entry. destruct (Fs.follow _ _ _) as [d|]; [|discriminate].
  destruct (m !! d) as [[| |]|]; try discriminate.
  destruct (Fs.exists_ _ _); [|discriminate]. intros H. injection H as <-. reflexivity.
Qed.

Lemma skill_entry_spec (m : fsmap) (sp : Path) (b : list string) (entry : string)
    (s : Skill) :
  skill_entry m sp b entry = Some s <->
  k_name s = entry
  /\ exists d, Fs.follow Fs.max_links m (b ++ [k_name s]) = Some d
               /\ m !! d = Some Fs.Dir
               /\ Fs.exists_ m (d ++ ["SKILL.md"]) = true
               /\ k_path s = Path_str (Path_child sp (k_name s))
               /\ k_symlink s = Fs.is_symlink m (b ++ [k_name s]).
Proof.
  unfold skill_entry. split.
  - destruct (Fs.follow Fs.max_links m (b ++ [entry])) as [d|] eqn:Hd; [|discriminate].
    destruct (m !! d) as [[| |]|] eqn:Hnode; try discriminate.
    destruct (Fs.exists_ m (d ++ ["SKILL.md"])) eqn:Hmd; [|discriminate].
    intros H. injection H as <-. simpl. split; [reflexivity|]. exists d. auto.
  - intros (<- & d & Hd & Hnode & Hmd & Hpath & Hlink).
    rewrite Hd, Hnode, Hmd. destruct s as [n p l]. simpl in *. subst. reflexivity.
Qed.

Lemma follow_present (n : nat) (m : fsmap) (k d : list string) :
  Fs.follow n m k = Some d -> is_Some (m !! k).
Proof. destruct n; simpl; destruct (m !! k); eauto; discriminate. Qed.

Lemma follow_dir (m : fsmap) (k : list string) :
  m !! k = Some Fs.Dir -> Fs.follow Fs.max_links m k = Some k.
Proof. intros Hk. unfold Fs.max_links. cbn [Fs.follow]. rewrite Hk. reflexivity. Qed.

Variable env : Env.

(** The listing of an agent whose skills path leads to the directory [b]. *)
Lemma skills_of_elem (agent : Detected) (w : World) (b : list string) :
  let sp := Path_of (d_skills_path agent) in
  Fs.follow Fs.max_links (fs w) (key env sp) = Some b ->
  fs w !! b = Some Fs.Dir ->
  exists l,
    skills_of env agent w = (Ok l, w)
    /\ StronglySorted name_le l
    /\ l ≡ₚ omap (skill_entry (fs w) sp b) (listdir (fs w) b).
Proof.
  intros sp Hb Hdir. unfold skills_of. fold sp. rewrite Hb, Hdir.
  eexists. split; [reflexivity|].
  split; [apply sorted_by_name_sorted|apply sorted_by_name_perm].
Qed.

Lemma listed_iff (m : fsmap) (sp : Path) (b : list string) (s : Skill) :
  s ∈ omap (skill_entry m sp b) (listdir m b) <->
  exists d, Fs.follow Fs.max_links m (b ++ [k_name s]) = Some d
            /\ m !! d = Some Fs.Dir
            /\ Fs.exists_ m (d ++ ["SKILL.md"]) = true
            /\ k_path s = Path_str (Path_child sp (k_name s))
            /\ k_symlink s = Fs.is_symlink m (b ++ [k_name s]).
Proof.
  rewrite list_elem_of_omap. split.
  - intros (entry & _ & Hs). apply skill_entry_spec in Hs. apply Hs.
  - intros (d & Hd & Hrest). exists (k_name s). split.
    + apply listdir_elem. eapply follow_present. exact Hd.
    + apply skill_entry_spec. split; [reflexivity|]. exists d. auto.
Qed.

(** X17.  The listing [list_skills] makes of one agent whose skills path
    leads to a directory.  The world is unchanged; the skills are sorted by
    name and no two have the same name; and a skill is listed exactly when
    the entry of its name in the skills directory leads, through links, to
    a directory that holds a [SKILL.md], its path being the skills path
    with the name, and its [symlink] flag telling whether the entry itself
    is a symbolic link. *)
Theorem skills_of_listing (agent : Detected) (w : World) (b : list string) :
  let sp := Path_of (d_skills_path agent) in
  Fs.follow Fs.max_links (fs w) (key env sp) = Some b ->
  fs w !! b = Some Fs.Dir ->
  exists l,
    skills_of env agent w = (Ok l, w)
    /\ StronglySorted name_le l
    /\ NoDup (map k_name l)
    /\ forall s, s ∈ l <->
         exists d, Fs.follow Fs.max_links (fs w) (b ++ [k_name s]) = Some d
                   /\ fs w !! d = Some Fs.Dir
                   /\ Fs.exists_ (fs w) (d ++ ["SKILL.md"]) = true
                   /\ k_path s = Path_str (Path_child sp (k_name s))
                   /\ k_symlink s = Fs.is_symlink (fs w) (b ++ [k_name s]).
Proof.
  intros sp Hb Hdir.
  destruct (skills_of_elem agent w b Hb Hdir) as (l & Hrun & Hsorted & Hperm).
  exists l. split; [exact Hrun|]. split; [exact Hsorted|]. split.
  - rewrite Hperm. clear Hperm Hrun Hsorted. unfold sp.
    assert (Hnd := listdir_NoDup (fs w) b).
    induction Hnd as [|e es He Hnd IH]; simpl; [constructor|].
    destruct (skill_entry (fs w) _ b e) as [s|] eqn:Hs; [|exact IH].
    simpl. constructor; [|exact IH].
    intros Hin. apply list_elem_of_fmap in Hin. destruct Hin as (s' & Hname & Hin).
    apply list_elem_of_omap in Hin. destruct Hin as (e' & He' & Hs').
    apply skill_entry_name in Hs, Hs'. subst. rewrite <- Hname in He'. contradiction.
  - intros s. rewrite Hperm. apply listed_iff.
Qed.

End Listing.

(** ** The file system: what making directories and copying add *)

Section Grows.

Import Fs.

Lemma grows_refl (m : fsmap) : grows m m.
Proof. intros k. left. reflexivity. Qed.

Lemma grows_trans (m m1 m2 : fsmap) : grows m m1 -> grows m1 m2 -> grows m m2.
Proof.
  intros H1 H2 k. destruct (H2 k) as [E2|[N2 D2]]; destruct (H1 k) as [E1|[N1 D1]].
  - left. congruence.
  - right. split; congruence.
  - right. split; congruence.
  - congruence.
Qed.

Lemma grows_keeps (m m1 : fsmap) (k : list string) (n : node) :
  grows m m1 -> m !! k = Some n -> m1 !! k = Some n.
Proof. intros H Hk. destruct (H k) as [E|[N _]]; congruence. Qed.

Lemma grows_no_link (m m1 : fsmap) (k : list string) :
  grows m m1 -> is_symlink m k = false -> is_symlink m1 k = false.
Proof.
  unfold is_symlink. intros H. destruct (H k) as [->|[_ ->]]; [auto|reflexivity].
Qed.

Lemma grows_follow (m m1 : fsmap) (n : nat) (k d : list string) :
  grows m m1 -> follow n m k = Some d -> follow n m1 k = Some d.
Proof.
  intros H. revert k. induction n as [|n IH]; intros k; simpl;
    destruct (m !! k) as [nd|] eqn:Hk; try discriminate;
    rewrite (grows_keeps _ _ _ _ H Hk); destruct nd; auto.
Qed.

Lemma ensure_dir_grows (last : bool) (m m1 : fsmap) (k : list string) :
  ensure_dir last m k = Ok m1 -> grows m m1.
Proof.
  unfold ensure_dir. destruct (m !! k) as [n|] eqn:Hk.
  - destruct (is_dir m k); [|discriminate]. intros H. injection H as <-. apply grows_refl.
  - intros H. injection H as <-. intros k'. destruct (decide (k = k')) as [<-|Hne].
    + right. rewrite lookup_insert_eq. auto.
    + left. apply lookup_insert_ne. exact Hne.
Qed.

Lemma mkdirs_grows (m m1 : fsmap) (done todo : list string) :
  mkdirs m done todo = Ok m1 -> grows m m1.
Proof.
  revert m done. induction todo as [|c todo IH]; intros m done; simpl.
  - apply ensure_dir_grows.
  - destruct (ensure_dir false m done) as [m0|e] eqn:Hd; [|discriminate].
    intros H. eapply grows_trans; [eapply ensure_dir_grows; exact Hd|eapply IH; exact H].
Qed.

Lemma dir_or_link_keeps (m m1 : fsmap) (k : list string) :
  grows m m1 -> dir_or_link (m !! k) -> dir_or_link (m1 !! k).
Proof.
  intros H. destruct (m !! k) as [n|] eqn:Hk; [|contradiction].
  rewrite (grows_keeps _ _ _ _ H Hk). auto.
Qed.

(** Every ancestor of a path made a directory is one too. *)
Lemma mkdirs_prefix_kind (m m1 : fsmap) (done t1 t2 : list string) :
  mkdirs m done (t1 ++ t2) = Ok m1 -> dir_or_link (m1 !! (done ++ t1)%list).
Proof.
  revert m done. induction t1 as [|c t1 IH]; intros m done; simpl.
  - rewrite app_nil_r. destruct t2 as [|c t2]; simpl.
    + apply ensure_dir_kind.
    + destruct (ensure_dir false m done) as [m0|e] eqn:Hd; [|discriminate].
      intros H. eapply dir_or_link_keeps; [eapply mkdirs_grows; exact H|].
      eapply ensure_dir_kind. exact Hd.
  - destruct (ensure_dir false m done) as [m0|e]; [|discriminate].
    intros H. apply IH in H. rewrite <- app_assoc in H. exact H.
Qed.

Lemma subtree_elem (m : fsmap) (s : list string) (c : string) (suf : list string)
    (n : node) :
  m !! (s ++ c :: suf)%list = Some n -> (c :: suf, n) ∈ subtree m s.
Proof.
  intros Hn. unfold subtree. apply list_elem_of_omap.
  exists ((s ++ c :: suf)%list, n). split.
  - apply elem_of_map_to_list. exact Hn.
  - simpl. rewrite strip_prefix_app. reflexivity.
Qed.

Lemma subtree_NoDup (m : fsmap) (s : list string) : NoDup (subtree m s).*1.
Proof.
  unfold subtree.
  assert (Hnd := NoDup_fst_map_to_list m).
  induction (map_to_list m) as [|[k n] l IH]; simpl; [constructor|].
  inversion Hnd as [|? ? Hk Hl]; subst.
  destruct (strip_prefix s k) as [[|c suf]|] eqn:Hs; simpl; try (apply IH; exact Hl).
  constructor; [|apply IH; exact Hl].
  intros Hin. apply list_elem_of_fmap in Hin. destruct Hin as ([x n'] & Hx & Hin).
  simpl in Hx. subst x. apply list_elem_of_omap in Hin.
  destruct Hin as ([k' n''] & Hin & He). simpl in He.
  destruct (strip_prefix s k') as [[|c' suf']|] eqn:Hs'; try discriminate.
  injection He as Hc Hsuf Hn. subst c' suf' n''.
  apply strip_prefix_Some in Hs, Hs'. subst k k'.
  apply Hk. apply list_elem_of_fmap. exists ((s ++ c :: suf)%list, n'). auto.
Qed.

Lemma graft_lookup_in (d : list string) (es : list (list string * node)) (m : fsmap)
    (suf : list string) (n : node) :
  NoDup es.*1 -> (suf, n) ∈ es -> graft d es m !! (d ++ suf)%list = Some n.
Proof.
  induction es as [|[suf' n'] es IH]; intros Hnd Hin.
  - inversion Hin.
  - simpl in Hnd. inversion Hnd as [|? ? Hfresh Hrest]; subst. simpl.
    apply elem_of_cons in Hin. destruct Hin as [Heq|Hin].
    + injection Heq as <- <-. apply lookup_insert_eq.
    + rewrite lookup_insert_ne; [apply IH; assumption|].
      intros Heq. apply app_inv_head in Heq. subst suf'.
      apply Hfresh. apply list_elem_of_fmap. exists (suf, n). auto.
Qed.

End Grows.

(** ** Installing or uninstalling, then listing *)

Section InstallThenList.

Variable env : Env.

(** X18.  Installing, then listing.  After [install_local] has copied a
    local directory that holds a regular file [SKILL.md] to the place of a
    skill of an agent, the listing of the agent names the skill, with its
    path and not as a symlink.  The name is a plain name, the place was
    free, and the skills path of the agent is not a symbolic link; the
    skills directory need not exist before. *)
Theorem installed_skill_is_listed (local_path : Path) (agent : Detected)
    (skill_name data : string) (s : list string) (w w1 : World) :
  let sp := Path_of (d_skills_path agent) in
  let dest := Path_div sp skill_name in
  Path_of skill_name = mkPath false [skill_name] -> skill_name <> ".." ->
  Fs.is_symlink (fs w) (key env sp) = false ->
  fs w !! key env dest = None ->
  Fs.follow Fs.max_links (fs w) (key env local_path) = Some s ->
  fs w !! (s ++ ["SKILL.md"])%list = Some (Fs.File data) ->
  install_local env local_path dest false w = (Ok true, w1) ->
  exists l,
    skills_of env agent w1 = (Ok l, w1)
    /\ mkSkill skill_name (Path_str (Path_child sp skill_name)) false ∈ l.
Proof.
  intros sp dest Hplain Hdots Hnolink Hfree Hsrc Hmd H.
  assert (Hkey : key env dest = (key env sp ++ [skill_name])%list).
  { apply locate_div; assumption. }
  unfold install_local in H.
  inv_bind_as H u0 w0 Hlog. unfold log in Hlog. injection Hlog as <- <-.
  inv_bind_as H present w2 Hex. apply fs_ask_inv in Hex. destruct Hex as [-> ->].
  destruct (Fs.exists_ _ _); cbn [negb] in H;
    [|apply ret_inv in H; destruct H; discriminate].
  inv_bind_as H u1 w3 Hparent. inv_bind_as H u2 w4 Hcopy.
  apply ret_inv in H. destruct H as [_ ->].
  unfold path_mkdir_p in Hparent.
  apply fs_do_inv in Hparent. destruct Hparent as (m1 & Hm1 & ->).
  inv_bind_as Hcopy u3 w5 Hmk. unfold path_mkdir_p in Hmk. apply fs_do_inv in Hmk. destruct Hmk as (m2 & Hm2 & ->).
  unfold shutil_copytree in Hcopy. apply fs_do_inv in Hcopy.
  destruct Hcopy as (m3 & Hm3 & ->). cbn [fs set_fs] in *.
  assert (G1 : grows (fs w) m1) by (eapply mkdirs_grows; exact Hm1).
  assert (G2 : grows m1 m2) by (eapply mkdirs_grows; exact Hm2).
  assert (G02 : grows (fs w) m2) by (eapply grows_trans; eassumption).
  unfold Fs.copytree in Hm3.
  rewrite (grows_follow _ _ _ _ _ G02 Hsrc) in Hm3.
  destruct (m2 !! s) as [[| |]|]; try discriminate.
  destruct (Fs.mkdir_p m2 (key env dest)) as [m2'|e] eqn:Hm2'; [|discriminate].
  injection Hm3 as <-.
  assert (G2' : grows m2 m2') by (eapply mkdirs_grows; exact Hm2').
  assert (G : grows (fs w) m2') by (eapply grows_trans; eassumption).
  set (m3 := Fs.graft (key env dest) (Fs.subtree m2 s) m2').
  assert (Hsp : m3 !! key env sp = Some Fs.Dir).
  { unfold m3. rewrite graft_lookup_out.
    - assert (Hk : dir_or_link (m2' !! key env sp)).
      { eapply dir_or_link_keeps; [exact G2'|].
        unfold Fs.mkdir_p in Hm2. rewrite Hkey in Hm2.
        apply (mkdirs_prefix_kind m1 m2 [] _ _ Hm2). }
      pose proof (grows_no_link _ _ _ G Hnolink) as Hl. unfold Fs.is_symlink in Hl.
      destruct (m2' !! key env sp) as [[| |]|]; try contradiction; try discriminate.
      reflexivity.
    - intros e _ E. rewrite Hkey, <- app_assoc in E.
      apply (f_equal (@List.length string)) in E. rewrite !length_app in E.
      simpl in E. lia. }
  assert (Hdest : m3 !! key env dest = Some Fs.Dir).
  { unfold m3. rewrite graft_lookup_out.
    - assert (Hk : dir_or_link (m2' !! key env dest)).
      { apply (mkdirs_kind m2 m2' [] _ Hm2'). }
      destruct (G (key env dest)) as [E|[_ E]]; [|exact E].
      rewrite E, Hfree in Hk. contradiction.
    - intros e He E. apply (subtree_below _ _ _ He).
      apply (f_equal (@List.length string)) in E. rewrite length_app in E.
      destruct e.1; [reflexivity|simpl in E; lia]. }
  assert (Hfile : m3 !! (key env dest ++ ["SKILL.md"])%list = Some (Fs.File data)).
  { unfold m3. apply graft_lookup_in; [apply subtree_NoDup|].
    apply subtree_elem. eapply grows_keeps; [exact G02|exact Hmd]. }
  match goal with
  | |- context [skills_of env agent ?W] =>
      destruct (skills_of_elem env agent W (key env sp)) as (l & Hrun & _ & Hperm);
        [apply follow_dir; exact Hsp|exact Hsp|]
  end.
  exists l. split; [exact Hrun|]. rewrite Hperm. apply listed_iff.
  cbn [fs set_fs k_name k_path k_symlink]. rewrite <- Hkey.
  exists (key env dest). split; [apply follow_dir; exact Hdest|].
  split; [exact Hdest|]. split.
  - unfold Fs.exists_, Fs.max_links. cbn [Fs.follow]. rewrite Hfile. reflexivity.
  - split; [reflexivity|]. unfold Fs.is_symlink. rewrite Hdest. reflexivity.
Qed.

End InstallThenList.

Section UninstallThenList.

Variable env : Env.

(** X19.  Uninstalling, then listing.  For an agent without native command
    whose skills path is a directory, after the loop body of
    [uninstall_skill] has run for a skill, whether it removed the skill or
    did not find it, the listing of the agent does not name the skill. *)
Theorem uninstalled_skill_not_listed (skill : string) (r r1 : UResults) (n : string)
    (agent : Detected) (w w1 : World) :
  let sp := Path_of (d_skills_path agent) in
  truthy (d_builtin_install agent) = false ->
  Path_of skill = mkPath false [skill] -> skill <> ".." ->
  fs w !! key env sp = Some Fs.Dir ->
  uninstall_from_agent env skill r n agent w = (Ok r1, w1) ->
  exists l,
    skills_of env agent w1 = (Ok l, w1) /\ forall s, s ∈ l -> k_name s <> skill.
Proof.
  intros sp Hnone Hplain Hdots Hsp Hrun.
  assert (Hkey : key env (Path_div sp skill) = (key env sp ++ [skill])%list).
  { apply locate_div; assumption. }
  assert (Hafter : Fs.exists_ (fs w1) (key env sp ++ [skill]) = false
                   /\ fs w1 !! key env sp = Some Fs.Dir).
  { rewrite (uninstall_from_agent_plain env skill r n agent w Hnone) in Hrun.
    fold sp in Hrun. rewrite Hkey in Hrun.
    destruct (Fs.exists_ (fs w) (key env sp ++ [skill])) eqn:Hex.
    - destruct (if Fs.is_symlink _ _ then _ else _) as [m|e] eqn:Hrm; [|discriminate].
      injection Hrun as _ <-. cbn [fs set_fs].
      destruct (removal_leaves_nothing _ _ _ Hrm) as [Hgone Hkeep].
      split; [apply exists_absent; exact Hgone|].
      rewrite Hkeep; [exact Hsp|apply under_snoc].
    - injection Hrun as _ <-. split; [exact Hex|exact Hsp]. }
  destruct Hafter as [Hgone Hdir].
  destruct (skills_of_elem env agent w1 (key env sp)) as (l & Hl & _ & Hperm);
    [apply follow_dir; exact Hdir|exact Hdir|].
  exists l. split; [exact Hl|].
  intros s Hs Hname. rewrite Hperm in Hs. apply listed_iff in Hs.
  destruct Hs as (d & Hd & _). rewrite Hname in Hd.
  unfold Fs.exists_ in Hgone. fold sp in Hgone. rewrite Hd in Hgone. discriminate.
Qed.

End UninstallThenList.

(** ** The listing of all agents *)

Section ListAll.

Variable env : Env.
Variable registry : list Agent.

Lemma dict_set_elem {V : Type} (k : string) (v : V) (d : list (string * V))
    (kv : string * V) :
  kv ∈ dict_set k v d -> kv = (k, v) \/ kv ∈ d.
Proof.
  induction d as [|[k' v'] d IH]; simpl.
  - intros H. apply list_elem_of_singleton in H. auto.
  - destruct (String.eqb k' k).
    + intros H. apply elem_of_cons in H. destruct H as [->|H]; [auto|].
      right. apply elem_of_cons. auto.
    + intros H. apply elem_of_cons in H. destruct H as [->|H].
      * right. apply elem_of_cons. auto.
      * destruct (IH H) as [->|Hin]; [auto|]. right. apply elem_of_cons. auto.
Qed.

Lemma dict_set_keys {V : Type} (k : string) (v : V) (d : list (string * V)) :
  (forall k', k' ∈ (dict_set k v d).*1 <-> k' = k \/ k' ∈ d.*1)
  /\ (NoDup d.*1 -> NoDup (dict_set k v d).*1).
Proof.
  induction d as [|[k0 v0] d [IHk IHn]]; simpl.
  - split.
    + intros k'. rewrite list_elem_of_singleton, elem_of_nil. tauto.
    + intros _. apply NoDup_singleton.
  - destruct (String.eqb_spec k0 k) as [->|Hne]; simpl.
    + split; [|auto]. intros k'. rewrite elem_of_cons. tauto.
    + split.
      * intros k'. rewrite !elem_of_cons, IHk. tauto.
      * intros Hnd. apply NoDup_cons in Hnd. destruct Hnd as [Hfresh Hnd].
        apply NoDup_cons. split; [|apply IHn, Hnd].
        rewrite IHk. intros [->|Hin]; [congruence|contradiction].
Qed.

Lemma skills_of_keeps_world (agent : Detected) (w w1 : World) (r : result (list Skill)) :
  skills_of env agent w = (r, w1) -> w1 = w.
Proof.
  unfold skills_of. destruct (Fs.follow _ _ _) as [b|]; [|congruence].
  destruct (fs w !! b) as [[| |]|]; congruence.
Qed.

Lemma list_each_entries (agents : list Detected) (acc res : list (string * Listing))
    (w w1 : World) :
  list_each env agents acc w = (Ok res, w1) ->
  w1 = w
  /\ (NoDup acc.*1 -> NoDup res.*1)
  /\ (forall n, n ∈ res.*1 <-> n ∈ acc.*1 \/ n ∈ map d_name agents)
  /\ forall kv, kv ∈ res ->
       kv ∈ acc
       \/ exists d, d ∈ agents /\ kv.1 = d_name d
                    /\ l_display_name kv.2 = d_display_name d
                    /\ l_skills_path kv.2 = d_skills_path d
                    /\ skills_of env d w = (Ok (l_skills kv.2), w).
Proof.
  revert acc w. induction agents as [|a agents IH]; intros acc w H.
  - apply ret_inv in H. destruct H as [-> ->]. split; [reflexivity|].
    split; [auto|]. split; [|auto]. intros n. simpl. rewrite elem_of_nil. tauto.
  - cbn [list_each] in H. inv_bind_as H skills w2 Hsk.
    pose proof (skills_of_keeps_world _ _ _ _ Hsk) as ->.
    destruct (IH _ _ H) as (-> & Hnd & Hkeys & Hall).
    destruct (dict_set_keys (d_name a)
                (mkListing (d_display_name a) (d_skills_path a) skills) acc)
      as [Hk1 Hn1].
    split; [reflexivity|]. split; [auto|]. split.
    + intros n. rewrite Hkeys, Hk1. simpl. rewrite elem_of_cons. tauto.
    + intros kv Hkv. destruct (Hall kv Hkv) as [Hin|(d & Hd & Hrest)].
      * apply dict_set_elem in Hin. destruct Hin as [->|Hin]; [|auto].
        right. exists a. simpl. split; [apply elem_of_cons; auto|]. auto.
      * right. exists d. split; [apply elem_of_cons; auto|exact Hrest].
Qed.

(** X20.  When [list_skills] returns, the world is as the detection left
    it; the keys of the result are the names of the agents detected, each
    once, and only the name asked for with [--agent] when one is; and the
    entry of an agent carries its display name, its skills path and its
    own listing. *)
Theorem list_skills_entries (agent_filter : option string)
    (res : list (string * Listing)) (w w1 : World) :
  list_skills env registry agent_filter w = (Ok res, w1) ->
  exists detected,
    detect_all env registry w = (Ok detected, w1)
    /\ NoDup res.*1
    /\ (forall n, n ∈ res.*1 <->
          n ∈ map d_name detected
          /\ (truthy agent_filter = true -> n = default EmptyString agent_filter))
    /\ forall n L, (n, L) ∈ res ->
         exists d, d ∈ detected /\ d_name d = n
                   /\ l_display_name L = d_display_name d
                   /\ l_skills_path L = d_skills_path d
                   /\ skills_of env d w1 = (Ok (l_skills L), w1).
Proof.
  intros H. unfold list_skills in H. inv_bind_as H detected w2 Hdet.
  apply list_each_entries in H. destruct H as (-> & Hnd & Hkeys & Hall).
  exists detected. split; [exact Hdet|]. split; [apply Hnd; constructor|]. split.
  - intros n. rewrite Hkeys. simpl. rewrite elem_of_nil.
    destruct (truthy agent_filter).
    + rewrite !list_elem_of_fmap. split.
      * intros [[]|(d & -> & Hd)]. apply list_elem_of_In, filter_In in Hd.
        destruct Hd as [Hd Heq]. apply String.eqb_eq in Heq.
        split; [exists d; split; [reflexivity|apply list_elem_of_In; exact Hd]|auto].
      * intros [(d & -> & Hd) Hf]. right. exists d. split; [reflexivity|].
        apply list_elem_of_In, filter_In. split; [apply list_elem_of_In; exact Hd|].
        apply String.eqb_eq. auto.
    + split; [intros [[]|Hn]; split; [exact Hn|discriminate]|intros [Hn _]; auto].
  - intros n L Hin. destruct (Hall _ Hin) as [Hnil|(d & Hd & Hn & Hrest)].
    + inversion Hnil.
    + exists d. simpl in *. split; [|auto].
      destruct (truthy agent_filter); [|exact Hd].
      apply list_elem_of_In, filter_In in Hd. apply list_elem_of_In, Hd.
Qed.

End ListAll.

(** ** The two parsers agree *)

Section ParsersAgree.

Lemma parse_shorthand_segments (o r : string) (rest : list string) (dref : string) :
  Forall (segment "/") (o :: r :: rest) ->
  parse_shorthand (PyStr.join "/" (o :: r :: rest)) dref
  = Ok (mkSource o r dref (PyStr.join "/" rest) (List.last (r :: rest) EmptyString)).
Proof.
  intros Hl. unfold parse_shorthand. rewrite split_join.
  - destruct rest as [|g rest]; reflexivity.
  - discriminate.
  - eapply Forall_impl; [exact Hl|]. intros s [_ Hs]. exact Hs.
Qed.

Lemma parse_github_url_plain (urlparse : string -> ParseResult) (url dref o r : string)
    (rest : list string) :
  (String.eqb (netloc (urlparse url)) "github.com"
   || String.eqb (netloc (urlparse url)) "www.github.com") = true ->
  url_path (urlparse url) = ("/" ++ PyStr.join "/" (o :: r :: rest))%string ->
  Forall (segment "/") (o :: r :: rest) ->
  match rest with m :: _ => is_marker m = false | [] => True end ->
  parse_github_url urlparse url dref
  = Ok (mkSource o r dref (PyStr.join "/" rest) (List.last (r :: rest) EmptyString)).
Proof.
  intros Hhost Hpath Hl Hplain. unfold parse_github_url, parse_github_parsed.
  rewrite Hhost, Hpath, (parts_of_segments _ Hl). cbn [negb].
  destruct rest as [|m rest]; [reflexivity|].
  cbn [List.length Nat.ltb Nat.leb nth drop]. fold (is_marker m). rewrite Hplain.
  inversion Hl as [|? ? _ Hl1]; subst. inversion Hl1 as [|? ? _ Hl2]; subst.
  destruct (name_of_segments "/" (m :: rest)) as [-> ->]; [discriminate|exact Hl2|].
  reflexivity.
Qed.

Lemma parse_github_url_marked (urlparse : string -> ParseResult)
    (url dref o r marker ref : string) (rest : list string) :
  (String.eqb (netloc (urlparse url)) "github.com"
   || String.eqb (netloc (urlparse url)) "www.github.com") = true ->
  url_path (urlparse url)
  = ("/" ++ PyStr.join "/" (o :: r :: marker :: ref :: rest))%string ->
  Forall (segment "/") (o :: r :: marker :: ref :: rest) ->
  is_marker marker = true ->
  parse_github_url urlparse url dref
  = Ok (mkSource o r ref (PyStr.join "/" rest) (List.last (r :: rest) EmptyString)).
Proof.
  intros Hhost Hpath Hl Hmark. unfold parse_github_url, parse_github_parsed.
  rewrite Hhost, Hpath, (parts_of_segments _ Hl). cbn [negb].
  cbn [List.length Nat.ltb Nat.leb nth drop]. fold (is_marker marker). rewrite Hmark.
  destruct rest as [|s rest]; [reflexivity|].
  do 4 (inversion Hl as [|? ? _ Hl']; subst; clear Hl; rename Hl' into Hl).
  rewrite !drop_0.
  destruct (name_of_segments "/" (s :: rest)) as [-> ->]; [discriminate|exact Hl|].
  reflexivity.
Qed.

Lemma marker_segment (m : string) : is_marker m = true -> segment "/" m.
Proof.
  unfold is_marker. intros H. apply orb_true_iff in H.
  destruct H as [H|H]; apply String.eqb_eq in H; subst m; split; reflexivity.
Qed.

(** X21.  The two parsers agree.  For non-empty segments, the URL
    [https://github.com/owner/repo/seg...] whose third segment is neither
    [tree] nor [blob] parses to what the shorthand [owner/repo/seg...]
    parses to; and the URL [.../owner/repo/tree/ref/seg...] (or [blob])
    parses to what the shorthand [owner/repo/seg...] parses to with [ref]
    as default ref. *)
Theorem parsers_agree (urlparse : string -> ParseResult) (url dref o r : string)
    (rest : list string) :
  (String.eqb (netloc (urlparse url)) "github.com"
   || String.eqb (netloc (urlparse url)) "www.github.com") = true ->
  Forall (segment "/") (o :: r :: rest) ->
  (url_path (urlparse url) = ("/" ++ PyStr.join "/" (o :: r :: rest))%string ->
   match rest with m :: _ => is_marker m = false | [] => True end ->
   parse_github_url urlparse url dref
   = parse_shorthand (PyStr.join "/" (o :: r :: rest)) dref)
  /\ (forall marker ref,
        is_marker marker = true -> segment "/" ref ->
        url_path (urlparse url)
        = ("/" ++ PyStr.join "/" (o :: r :: marker :: ref :: rest))%string ->
        parse_github_url urlparse url dref
        = parse_shorthand (PyStr.join "/" (o :: r :: rest)) ref).
Proof.
  intros Hhost Hl. split.
  - intros Hpath Hplain.
    rewrite (parse_github_url_plain urlparse url dref o r rest Hhost Hpath Hl Hplain).
    rewrite (parse_shorthand_segments o r rest dref Hl). reflexivity.
  - intros marker ref Hmark Href Hpath.
    rewrite (parse_github_url_marked urlparse url dref o r marker ref rest Hhost Hpath).
    + rewrite (parse_shorthand_segments o r rest ref Hl). reflexivity.
    + inversion Hl as [|? ? Ho Hl1]; subst. inversion Hl1 as [|? ? Hr Hl2]; subst.
      constructor; [exact Ho|]. constructor; [exact Hr|].
      constructor; [apply marker_segment; exact Hmark|].
      constructor; [exact Href|exact Hl2].
    + exact Hmark.
Qed.

End ParsersAgree.

(** ** The sparse checkout leaves no [.git] behind *)

Section NoGitDir.

Variable env : Env.

Lemma follow_prune_None (n : nat) (m : fsmap) (p k : list string) :
  Fs.follow n m k = None -> Fs.follow n (Fs.prune m p) k = None.
Proof.
  revert k. induction n as [|n IH]; intros k; simpl.
  - destruct (Fs.under p k) eqn:Hu.
    + rewrite prune_lookup_in by exact Hu. reflexivity.
    + rewrite prune_lookup_out by exact Hu. auto.
  - destruct (Fs.under p k) eqn:Hu.
    + rewrite prune_lookup_in by exact Hu. reflexivity.
    + rewrite prune_lookup_out by exact Hu.
      destruct (m !! k) as [[| |t]|]; auto.
Qed.

Lemma exists_prune (m : fsmap) (p k : list string) :
  Fs.exists_ m k = false -> Fs.exists_ (Fs.prune m p) k = false.
Proof.
  unfold Fs.exists_. destruct (Fs.follow Fs.max_links m k) eqn:Hf; [discriminate|].
  intros _. rewrite (follow_prune_None _ _ _ _ Hf). reflexivity.
Qed.

(** X22.  The sparse checkout leaves no [.git] behind: whenever
    [install_git_sparse] returns [True], [dest/.git] does not exist
    afterwards. *)
Theorem install_git_sparse_drops_git_dir (source : Source) (dest : Path) (w w1 : World) :
  install_git_sparse env source dest w = (Ok true, w1) ->
  Fs.exists_ (fs w1) (key env dest ++ [".git"]) = false.
Proof.
  intros H. unfold install_git_sparse in H.
  inv_bind_as H u0 w0 Hlog. unfold log in Hlog. injection Hlog as <- <-.
  destruct (which env "git"); cbn [negb] in H; [|apply ret_inv in H; destruct H; discriminate].
  apply with_TemporaryDirectory_inv in H. destruct H as (w2 & H & ->).
  cbn [fs set_fs]. apply exists_prune. cbn [fs] in H.
  inv_bind_as H cloned w3 Hclone.
  destruct cloned; cbn [negb] in H; [|apply ret_inv in H; destruct H; discriminate].
  inv_bind_as H u1 w4 Hsparse. inv_bind_as H present w5 Hsrc.
  destruct present; cbn [negb] in H; [|apply ret_inv in H; destruct H; discriminate].
  inv_bind_as H u2 w6 Hmk. inv_bind_as H u3 w7 Hcp.
  inv_bind_as H gex w8 Hgit. apply fs_ask_inv in Hgit. destruct Hgit as [-> ->].
  inv_bind_as H u4 w9 Hrm. apply ret_inv in H. destruct H as [_ ->].
  rewrite key_git_dir in Hrm.
  destruct (Fs.exists_ (fs w7) (key env dest ++ [".git"])) eqn:Hex.
  - unfold shutil_rmtree in Hrm. apply fs_do_inv in Hrm.
    destruct Hrm as (m' & Hm' & ->). cbn [fs set_fs]. rewrite key_git_dir in Hm'.
    apply exists_absent. unfold Fs.rmtree in Hm'.
    destruct (fs w7 !! (key env dest ++ [".git"])%list) as [[| |]|]; try discriminate.
    injection Hm' as <-. apply prune_lookup_in, under_refl.
  - apply ret_inv in Hrm. destruct Hrm as [_ ->]. exact Hex.
Qed.

End NoGitDir.

(** ** Local sources: what the install leaves *)

Section LocalPlaces.

Variable env : Env.
Variable registry : list Agent.

Lemma under_app (d suf : list string) : Fs.under d (d ++ suf) = true.
Proof. unfold Fs.under. rewrite strip_prefix_app. reflexivity. Qed.

Lemma mkdir_p_grows (m m1 : fsmap) (k : list string) :
  Fs.mkdir_p m k = Ok m1 -> grows m m1.
Proof. apply mkdirs_grows. Qed.

Lemma removal_keeps (m m1 : fsmap) (k : list string) :
  (if Fs.is_symlink m k then Fs.unlink m k else Fs.rmtree m k) = Ok m1 ->
  m1 !! k = None /\ forall k', Fs.under k k' = false -> m1 !! k' = m !! k'.
Proof. apply removal_leaves_nothing. Qed.

(** What [install_local] leaves when it returns [True]. *)
Lemma install_local_places (local_path dest : Path) (symlink : bool) (wa wb : World) :
  install_local env local_path dest symlink wa = (Ok true, wb) ->
  calls wb = (calls wa ++ [CallLocal local_path dest symlink])%list
  /\ placed env symlink local_path dest wa wb.
Proof.
  intros H. split.
  { pose proof (emits_install_local env local_path dest symlink wa) as He.
    rewrite H in He. exact He. }
  unfold install_local in H.
  inv_bind_as H u0 w0 Hlog. unfold log in Hlog. injection Hlog as <- <-.
  inv_bind_as H present w2 Hex. apply fs_ask_inv in Hex. destruct Hex as [-> ->].
  cbn [fs] in H.
  destruct (Fs.exists_ (fs wa) (key env local_path)) eqn:Hlocal; cbn [negb] in H;
    [|apply ret_inv in H; destruct H; discriminate].
  inv_bind_as H u1 w3 Hparent. inv_bind_as H u2 w4 Hdo.
  apply ret_inv in H. destruct H as [_ ->].
  unfold path_mkdir_p in Hparent. apply fs_do_inv in Hparent.
  destruct Hparent as (m1 & Hm1 & ->). cbn [fs set_fs] in *.
  assert (G1 : grows (fs wa) m1) by (eapply mkdir_p_grows; exact Hm1).
  destruct symlink.
  - inv_bind_as Hdo dex w5 Hdex. apply fs_ask_inv in Hdex. destruct Hdex as [-> ->].
    inv_bind_as Hdo u3 w6 Hrm. cbn [fs set_fs] in *.
    assert (Hm2 : exists m2, fs w6 = m2 /\ calls w6 = calls w6
                             /\ forall k n, Fs.under (key env dest) k = false ->
                                            m1 !! k = Some n -> m2 !! k = Some n).
    { exists (fs w6). split; [reflexivity|]. split; [reflexivity|].
      destruct (Fs.exists_ m1 (key env dest)).
      - inv_bind_as Hrm lnk w7 Hlnk. apply fs_ask_inv in Hlnk. destruct Hlnk as [-> ->].
        cbn [fs set_fs] in Hrm.
        assert (Hrem : (if Fs.is_symlink m1 (key env dest)
                        then Fs.unlink m1 (key env dest)
                        else Fs.rmtree m1 (key env dest)) = Ok (fs w6)).
        { destruct (Fs.is_symlink m1 (key env dest));
            [unfold path_unlink in Hrm|unfold shutil_rmtree in Hrm];
            apply fs_do_inv in Hrm; destruct Hrm as (m' & Hm' & ->); exact Hm'. }
        destruct (removal_keeps _ _ _ Hrem) as [_ Hkeep].
        intros k n Hout Hk. rewrite (Hkeep k Hout). exact Hk.
      - apply ret_inv in Hrm. destruct Hrm as [_ ->]. cbn [fs set_fs]. auto. }
    destruct Hm2 as (m2 & Hfs & _ & Hkeep2).
    unfold path_symlink_to_resolved in Hdo. apply fs_do_inv in Hdo.
    destruct Hdo as (m3 & Hm3 & ->). cbn [fs set_fs]. rewrite Hfs in Hm3.
    unfold Fs.symlink_to in Hm3.
    destruct (m2 !! key env dest) eqn:Hfree; [discriminate|].
    destruct (Fs.is_dir m2 _); [|discriminate]. injection Hm3 as <-.
    unfold placed. cbn [fs set_fs]. split.
    + intros k n Hout Hk. rewrite lookup_insert_ne.
      * apply Hkeep2; [exact Hout|]. eapply grows_keeps; eassumption.
      * intros <-. rewrite under_refl in Hout. discriminate.
    + exists m2. split; [reflexivity|exact Hfree].
  - inv_bind_as Hdo u3 w5 Hmk. unfold path_mkdir_p in Hmk. apply fs_do_inv in Hmk.
    destruct Hmk as (m2 & Hm2 & ->).
    unfold shutil_copytree in Hdo. apply fs_do_inv in Hdo.
    destruct Hdo as (m3 & Hm3 & ->). cbn [fs set_fs] in *.
    assert (G2 : grows m1 m2) by (eapply mkdir_p_grows; exact Hm2).
    assert (G02 : grows (fs wa) m2) by (eapply grows_trans; eassumption).
    unfold Fs.exists_ in Hlocal.
    destruct (Fs.follow Fs.max_links (fs wa) (key env local_path)) as [s|] eqn:Hsrc;
      [|discriminate].
    pose proof (copytree_kind _ _ _ _ Hm3) as Hkind.
    unfold Fs.copytree in Hm3.
    rewrite (grows_follow _ _ _ _ _ G02 Hsrc) in Hm3.
    destruct (m2 !! s) as [[| |]|]; try discriminate.
    destruct (Fs.mkdir_p m2 (key env dest)) as [m2'|e] eqn:Hm2'; [|discriminate].
    injection Hm3 as <-.
    assert (G2' : grows m2 m2') by (eapply mkdir_p_grows; exact Hm2').
    assert (G : grows (fs wa) m2') by (eapply grows_trans; eassumption).
    unfold placed. cbn [fs set_fs]. split; [|split; [exact Hkind|]].
    + intros k n Hout Hk. rewrite graft_lookup_out.
      * eapply grows_keeps; eassumption.
      * intros e _ <-. rewrite under_app in Hout. discriminate.
    + exists s. split; [exact Hsrc|]. intros c suf n Hn.
      apply graft_lookup_in; [apply subtree_NoDup|].
      apply subtree_elem. eapply grows_keeps; eassumption.
Qed.

(** The loop body on a local source: the target is skipped or failed and
    nothing is installed, or [install_local] returned [True] on it. *)
Lemma install_to_agent_local_cases (local_path : Path) (skill_name : string)
    (symlink : bool) (method : string) (local : bool) (results r' : Results)
    (agent_name : string) (agent : Detected) (wa wb : World) :
  install_to_agent env local_path None skill_name symlink method local results
    agent_name agent wa = (Ok r', wb) ->
  let dest := dest_of env agent skill_name local in
  (installed r' = installed results
   /\ (calls wb = calls wa
       \/ calls wb = (calls wa ++ [CallLocal local_path dest symlink])%list))
  \/ (installed r'
      = (installed results
         ++ [mkInstalled agent_name (Path_str dest)
               (Some (if symlink then "symlink" else "copy"))])%list
      /\ install_local env local_path dest symlink wa = (Ok true, wb)).
Proof.
  intros H dest. unfold install_to_agent, path_exists in H. fold dest in H.
  rewrite bind_fs_ask in H.
  destruct (Fs.exists_ (fs wa) (key env dest) && negb symlink).
  { apply ret_inv in H. destruct H as [-> ->]. left. split; [reflexivity|auto]. }
  rewrite bind_fs_ask in H. inv_bind_as H st w1 Hst.
  apply ret_inv in H. destruct H as [-> ->].
  destruct (Fs.exists_ (fs wa) (key env local_path)).
  - inv_bind_as Hst ok w2 Hlocal. apply ret_inv in Hst. destruct Hst as [-> ->].
    destruct ok.
    + right. split; [reflexivity|exact Hlocal].
    + left. split; [reflexivity|]. right.
      pose proof (emits_install_local env local_path dest symlink wa) as He.
      rewrite Hlocal in He. exact He.
  - apply ret_inv in Hst. destruct Hst as [-> ->]. left. split; [reflexivity|auto].
Qed.

Lemma installed_by_more (local_path : Path) (symlink : bool) (l l' : list Call)
    (items : list InstalledItem) :
  Forall (installed_by local_path symlink l) items ->
  Forall (installed_by local_path symlink (l ++ l')) items.
Proof.
  intros H. eapply Forall_impl; [exact H|].
  intros it (dest & Hp & Hin). exists dest. split; [exact Hp|].
  apply in_or_app. left. exact Hin.
Qed.

Lemma install_to_agents_local_calls (local_path : Path) (skill_name : string)
    (symlink : bool) (method : string) (local : bool)
    (targets : list (string * Detected)) (results r' : Results) (w w' : World)
    (base l0 : list Call) :
  calls w = (base ++ l0)%list ->
  Forall (local_call local_path symlink) l0 ->
  Forall (installed_by local_path symlink l0) (installed results) ->
  install_to_agents env local_path None skill_name symlink method local results
    targets w = (Ok r', w') ->
  exists l,
    calls w' = (base ++ l)%list
    /\ Forall (local_call local_path symlink) l
    /\ Forall (installed_by local_path symlink l) (installed r').
Proof.
  revert results w l0. induction targets as [|[agent_name agent] rest IH];
    intros results w l0 Hcalls Hl0 Hres; cbn [install_to_agents].
  - intros H. apply ret_inv in H. destruct H as [-> ->]. exists l0. auto.
  - intros H. inv_bind_as H r1 w1 H1.
    set (dest := dest_of env agent skill_name local).
    assert (Hstep : exists l1,
              calls w1 = (base ++ l1)%list
              /\ Forall (local_call local_path symlink) l1
              /\ Forall (installed_by local_path symlink l1) (installed r1)).
    { pose proof (install_to_agent_local_cases _ _ _ _ _ _ _ _ _ _ _ H1) as Hcases.
      cbv zeta in Hcases. fold dest in Hcases.
      destruct Hcases as [[Hsame [Hc|Hc]]|[Hnew Hrun]].
      - exists l0. rewrite Hsame, Hc. auto.
      - exists (l0 ++ [CallLocal local_path dest symlink])%list.
        rewrite Hsame, Hc, Hcalls, app_assoc. split; [reflexivity|]. split.
        + apply Forall_app. split; [exact Hl0|]. repeat constructor. exists dest. reflexivity.
        + apply installed_by_more. exact Hres.
      - destruct (install_local_places _ _ _ _ _ Hrun) as [Hc _].
        exists (l0 ++ [CallLocal local_path dest symlink])%list.
        rewrite Hnew, Hc, Hcalls, app_assoc. split; [reflexivity|]. split.
        + apply Forall_app. split; [exact Hl0|]. repeat constructor. exists dest. reflexivity.
        + apply Forall_app. split; [apply installed_by_more; exact Hres|].
          repeat constructor. exists dest. split; [reflexivity|].
          apply in_or_app. right. left. reflexivity. }
    destruct Hstep as (l1 & Hc1 & Hl1 & Hr1).
    eapply IH; eassumption.
Qed.


Lemma copytree_keeps (m m1 : fsmap) (src dst : list string) :
  Fs.copytree m src dst = Ok m1 -> forall k, is_Some (m !! k) -> is_Some (m1 !! k).
Proof.
  unfold Fs.copytree. destruct (Fs.follow Fs.max_links m src) as [s|]; [|discriminate].
  destruct (m !! s) as [[| |]|]; try discriminate.
  destruct (Fs.mkdir_p m dst) as [m0|e] eqn:Hmk; [|discriminate].
  intros H k Hk. injection H as <-. apply graft_present.
  apply (mkdir_p_present _ _ _ Hmk). exact Hk.
Qed.

(** In copy mode nothing is removed. *)
Lemma install_to_agent_copy_keeps (local_path : Path) (skill_name method : string)
    (local : bool) (results r' : Results) (agent_name : string) (agent : Detected)
    (wa wb : World) :
  install_to_agent env local_path None skill_name false method local results
    agent_name agent wa = (Ok r', wb) ->
  forall k, is_Some (fs wa !! k) -> is_Some (fs wb !! k).
Proof.
  intros H k Hk. unfold install_to_agent, path_exists in H. rewrite bind_fs_ask in H.
  destruct (_ && negb false).
  { apply ret_inv in H. destruct H as [_ ->]. exact Hk. }
  rewrite bind_fs_ask in H. inv_bind_as H st w1 Hst.
  apply ret_inv in H. destruct H as [_ ->].
  destruct (Fs.exists_ (fs wa) (key env local_path));
    [|apply ret_inv in Hst; destruct Hst as [_ ->]; exact Hk].
  inv_bind_as Hst ok w2 Hlocal. apply ret_inv in Hst. destruct Hst as [_ ->].
  unfold install_local in Hlocal.
  inv_bind_as Hlocal u0 w0 Hlog. unfold log in Hlog. injection Hlog as <- <-.
  inv_bind_as Hlocal present w3 Hex. apply fs_ask_inv in Hex. destruct Hex as [-> ->].
  destruct (negb _).
  { apply ret_inv in Hlocal. destruct Hlocal as [_ ->]. exact Hk. }
  inv_bind_as Hlocal u1 w4 Hparent. inv_bind_as Hlocal u2 w5 Hdo.
  apply ret_inv in Hlocal. destruct Hlocal as [_ ->].
  unfold path_mkdir_p in Hparent. apply fs_do_inv in Hparent.
  destruct Hparent as (m1 & Hm1 & ->).
  inv_bind_as Hdo u3 w6 Hmk. unfold path_mkdir_p in Hmk. apply fs_do_inv in Hmk.
  destruct Hmk as (m2 & Hm2 & ->).
  unfold shutil_copytree in Hdo. apply fs_do_inv in Hdo.
  destruct Hdo as (m3 & Hm3 & ->). cbn [fs set_fs] in *.
  apply (copytree_keeps _ _ _ _ Hm3).
  apply (mkdir_p_present _ _ _ Hm2). apply (mkdir_p_present _ _ _ Hm1). exact Hk.
Qed.

Lemma install_to_agents_copy_present (local_path : Path) (skill_name method : string)
    (local : bool) (targets : list (string * Detected)) (results r' : Results)
    (w w' : World) :
  Forall (present_in env (fs w)) (installed results) ->
  install_to_agents env local_path None skill_name false method local results
    targets w = (Ok r', w') ->
  Forall (present_in env (fs w')) (installed r').
Proof.
  revert results w. induction targets as [|[agent_name agent] rest IH];
    intros results w Hres; cbn [install_to_agents].
  - intros H. apply ret_inv in H. destruct H as [-> ->]. exact Hres.
  - intros H. inv_bind_as H r1 w1 H1. eapply IH; [|exact H].
    assert (Hold : Forall (present_in env (fs w1)) (installed results)).
    { eapply Forall_impl; [exact Hres|]. intros it (dest & Hp & Hk).
      exists dest. split; [exact Hp|].
      eapply install_to_agent_copy_keeps; eassumption. }
    pose proof (install_to_agent_local_cases _ _ _ _ _ _ _ _ _ _ _ H1) as Hcases.
    cbv zeta in Hcases. destruct Hcases as [[-> _]|[-> Hrun]]; [exact Hold|].
    apply Forall_app. split; [exact Hold|]. repeat constructor.
    eexists. split; [reflexivity|].
    destruct (install_local_places _ _ _ _ _ Hrun) as [_ [_ [Hkind _]]].
    destruct (fs w1 !! _); [eauto|contradiction].
Qed.

Lemma install_skill_local_run (source_str : string) (agents : option (list string))
    (symlink local : bool) (m : string) (w w1 : World) (all : list Detected) :
  Fs.exists_ (fs w) (key env (Path_of source_str)) = true ->
  detect_all env registry w = (Ok all, w1) ->
  install_skill env registry source_str agents symlink m local w
  = match by_name all with
    | [] => (Raise (InstallError "No AI agents detected on this system."), w1)
    | _ =>
        (target_agents <-
           match selects agents with
           | Some wanted =>
               match List.filter (fun kv : string * Detected => mem kv.1 wanted)
                       (by_name all) with
               | [] => raise (InstallError "None of the specified agents found")
               | t => ret t
               end
           | None => ret (by_name all)
           end ;;
         install_to_agents env (Path_of source_str) None
           (Path_name (Path_of source_str)) symlink m local (mkResults [] [] [])
           target_agents) w1
    end.
Proof.
  intros Hex Hdet. pose proof (parse_source_local env source_str w Hex) as Hparse.
  unfold install_skill.
  rewrite (bind_ok _ _ _ _ _ Hparse), (bind_ok _ _ _ _ _ Hdet).
  destruct (by_name all) as [|d0 ds]; [reflexivity|].
  destruct (selects agents) as [wanted|]; [|reflexivity].
  destruct (List.filter _ _); reflexivity.
Qed.

(** C9.  When the source string names an existing path, [install_skill]
    gives the same result and the same world for every two values of
    [method]; it appends no call of an acquisition strategy to the call
    log; and every target it reports as installed is labelled [symlink]
    when symlinks are asked for and [copy] otherwise.  The install
    proceeds by [install_local]: the calls the run appends to the log are
    calls of [install_local] on the local path in the mode asked for, one
    of them for each target reported as installed, and in copy mode the
    destination of every such target is there when the run ends.  And
    whenever the loop body records a target as installed, it has called
    [install_local] once, and the call has left the copy or the link in
    place: in copy mode the destination is a directory that holds every
    entry of the local directory; in symlink mode it is a new symbolic
    link to the resolved local path; what lies outside the destination is
    kept. *)
Theorem install_local_ignores_method (source_str : string)
    (agents : option (list string)) (symlink local : bool) (m1 m2 : string)
    (w : World) :
  Fs.exists_ (fs w) (key env (Path_of source_str)) = true ->
  install_skill env registry source_str agents symlink m1 local w
  = install_skill env registry source_str agents symlink m2 local w
  /\ (exists l,
        calls (install_skill env registry source_str agents symlink m1 local w).2
        = (calls w ++ l)%list
        /\ Forall (fun c => acquisition_call c = false) l)
  /\ (forall results w1,
        install_skill env registry source_str agents symlink m1 local w
        = (Ok results, w1) ->
        Forall (fun it => i_method it = Some (if symlink then "symlink" else "copy"))
               (installed results))
  /\ (forall results w1,
        install_skill env registry source_str agents symlink m1 local w
        = (Ok results, w1) ->
        (exists l,
           calls w1 = (calls w ++ l)%list
           /\ Forall (local_call (Path_of source_str) symlink) l
           /\ Forall (installed_by (Path_of source_str) symlink l) (installed results))
        /\ (symlink = false -> Forall (present_in env (fs w1)) (installed results)))
  /\ (forall results agent_name agent wa r' wb,
        install_to_agent env (Path_of source_str) None (Path_name (Path_of source_str))
          symlink m1 local results agent_name agent wa = (Ok r', wb) ->
        installed r' <> installed results ->
        let dest := dest_of env agent (Path_name (Path_of source_str)) local in
        calls wb = (calls wa ++ [CallLocal (Path_of source_str) dest symlink])%list
        /\ placed env symlink (Path_of source_str) dest wa wb).
Proof.
  intros Hex.
  destruct (install_local_any_method env registry source_str agents symlink local
              m1 m2 w Hex) as (H1 & H2 & H3).
  split; [exact H1|]. split; [exact H2|]. split; [exact H3|]. split.
  - intros results w2 Hrun.
    destruct (returns_detect_all env registry w) as (all & w1 & Hdet).
    assert (Hq : calls w1 = calls w).
    { pose proof (quiet_detect_all env registry w) as H. rewrite Hdet in H. exact H. }
    rewrite (install_skill_local_run source_str agents symlink local m1 w w1 all Hex Hdet)
      in Hrun.
    destruct (by_name all) as [|d0 ds]; [discriminate|].
    inv_bind_as Hrun ts w3 Hsel.
    assert (Hw3 : w3 = w1).
    { destruct (selects agents) as [wanted|].
      - destruct (List.filter _ _); [discriminate|].
        apply ret_inv in Hsel. apply Hsel.
      - apply ret_inv in Hsel. apply Hsel. }
    subst w3. split.
    + apply (install_to_agents_local_calls _ _ _ _ _ _ _ _ _ _ (calls w) []) in Hrun.
      * exact Hrun.
      * rewrite app_nil_r. exact Hq.
      * constructor.
      * constructor.
    + intros ->. eapply install_to_agents_copy_present; [|exact Hrun]. constructor.
  - intros results agent_name agent wa r' wb Hrun Hnew dest.
    pose proof (install_to_agent_local_cases _ _ _ _ _ _ _ _ _ _ _ Hrun) as Hcases.
    cbv zeta in Hcases. fold dest in Hcases.
    destruct Hcases as [[Hsame _]|[_ Hlocal]]; [contradiction|].
    apply install_local_places. exact Hlocal.
Qed.

End LocalPlaces.

(** C9 on the local skill of the working directory: the same outcome
    under two methods, and the copy of [SKILL.md] in Cursor's skills
    directory. *)
Lemma install_local_ignores_method_witness :
  let E := Demo.env_of Demo.sw_git in
  let body :=
    install_to_agent E (Path_of "my-skill") None "my-skill" false "auto" false
      (mkResults [] [] []) "cursor" Demo.cursor in
  install_skill E (AGENTS E) "my-skill" (Some ["all"]) false "auto" false Demo.w0
  = install_skill E (AGENTS E) "my-skill" (Some ["all"]) false "download" false Demo.w0
  /\ (install_skill E (AGENTS E) "my-skill" (Some ["all"]) false "auto" false Demo.w0).1
     = Ok (mkResults [mkInstalled "cursor" "/home/u/.cursor/skills/my-skill" (Some "copy")]
             [] [])
  /\ fs (Demo.after body Demo.w0)
       !! (key E (dest_of E Demo.cursor "my-skill" false) ++ ["SKILL.md"])%list
     = Some (Fs.File "name: my-skill").
Proof.
  intros E body.
  destruct (install_local_ignores_method E (AGENTS E) "my-skill" (Some ["all"]) false false
              "auto" "download" Demo.w0) as (Hsame & _ & _ & _ & Hbody).
  - vm_compute. reflexivity.
  - split; [exact Hsame|]. split; [vm_compute; reflexivity|].
    destruct (Hbody (mkResults [] [] []) "cursor" Demo.cursor Demo.w0
                (mkResults
                   [mkInstalled "cursor" "/home/u/.cursor/skills/my-skill" (Some "copy")]
                   [] [])
                (Demo.after body Demo.w0))
      as (_ & _ & _ & s & Hs & Hcopy).
    + vm_compute. reflexivity.
    + discriminate.
    + vm_compute in Hs. injection Hs as <-.
      apply (Hcopy "SKILL.md" [] (Fs.File "name: my-skill")). reflexivity.
Defined.

(** ** Directories that are there already *)

Lemma ensure_dir_noop (last : bool) (m : fsmap) (k : list string) :
  Fs.is_dir m k = true -> Fs.ensure_dir last m k = Ok m.
Proof.
  unfold Fs.ensure_dir. intros Hdir. rewrite Hdir.
  destruct (m !! k) eqn:Hk; [reflexivity|].
  unfold Fs.is_dir, Fs.max_links in Hdir. cbn [Fs.follow] in Hdir. rewrite Hk in Hdir.
  discriminate.
Qed.

(** [mkdir(parents=True, exist_ok=True)] on a directory whose ancestors
    are directories changes nothing. *)
Lemma mkdirs_noop (m : fsmap) (done todo : list string) :
  (forall i, (i <= List.length todo)%nat -> Fs.is_dir m (done ++ take i todo) = true) ->
  Fs.mkdirs m done todo = Ok m.
Proof.
  revert done. induction todo as [|c todo IH]; intros done H; simpl.
  - apply ensure_dir_noop. specialize (H 0%nat (Nat.le_refl _)).
    simpl in H. rewrite app_nil_r in H. exact H.
  - rewrite ensure_dir_noop.
    + apply IH. intros i Hi. rewrite <- app_assoc. apply (H (S i)). simpl. lia.
    + specialize (H 0%nat (Nat.le_0_l _)). simpl in H. rewrite app_nil_r in H. exact H.
Qed.

(** ** The further properties at work in the small concrete world *)

(** X3 on Claude's own command, when it succeeds and when Claude is not
    installed. *)
Lemma install_builtin_runs_witness :
  install_builtin (Demo.env_of Demo.sw_claude) Demo.src "claude skill install" Demo.w0
  = (Ok true, mkWorld Demo.fs0 [CallBuiltin Demo.src "claude skill install"])
  /\ install_builtin (Demo.env_of Demo.sw_offline) Demo.src "claude skill install" Demo.w0
     = (Ok false, mkWorld Demo.fs0 [CallBuiltin Demo.src "claude skill install"]).
Proof.
  split.
  - destruct (install_builtin_runs (Demo.env_of Demo.sw_claude) Demo.src
                "claude skill install" Demo.w0) as (Hexits & _ & _).
    apply (Hexits 0 EmptyString 1 Demo.fs0). reflexivity.
  - destruct (install_builtin_runs (Demo.env_of Demo.sw_offline) Demo.src
                "claude skill install" Demo.w0) as (_ & _ & Hmissing).
    apply (Hmissing Demo.fs0). reflexivity.
Defined.

(** X14 on Cursor, detected by its configuration directory. *)
Lemma detect_agent_sound_witness :
  let E := Demo.env_of Demo.sw_offline in
  let a := mkAgent "cursor" "Cursor"
             (Path_div (Path_div (Path_home E) ".cursor") "skills")
             ".cursor/skills" None (Some (Path_div (Path_home E) ".cursor")) None in
  detect_agent E a Demo.w0 = (Ok (Some Demo.cursor), Demo.w0)
  /\ reports a Demo.cursor.
Proof.
  intros E a.
  assert (Hrun : detect_agent E a Demo.w0 = (Ok (Some Demo.cursor), Demo.w0))
    by (vm_compute; reflexivity).
  split; [exact Hrun|].
  destruct (detect_agent_sound E a Demo.w0 Demo.w0 (Some Demo.cursor) Hrun)
    as (_ & Hrep & _).
  apply Hrep. reflexivity.
Defined.

(** X15 on the registry of the scripts, with Cursor detected. *)
Lemma detect_all_registry_witness :
  let E := Demo.env_of Demo.sw_offline in
  exists found,
    sublist found (AGENTS E) /\ Forall2 reports found [Demo.cursor].
Proof.
  intros E.
  destruct (detect_all_registry E (AGENTS E) Demo.w0 Demo.w0 [Demo.cursor])
    as (_ & found & Hsub & Hall & _).
  - vm_compute. reflexivity.
  - exists found. split; assumption.
Defined.

(** X16 on an agent that is not in the registry, and on Cursor. *)
Lemma detect_main_exit_witness :
  let E := Demo.env_of Demo.sw_offline in
  detect_main E (AGENTS E) (Some "emacs") Demo.w0 = (Ok 1, Demo.w0)
  /\ forall code w1,
       detect_main E (AGENTS E) (Some "cursor") Demo.w0 = (Ok code, w1) -> code = 0.
Proof.
  intros E. split.
  - apply (proj1 (detect_main_exit E (AGENTS E) (Some "emacs") Demo.w0)).
    + reflexivity.
    + repeat constructor; discriminate.
  - intros code w1 Hrun.
    destruct (proj2 (detect_main_exit E (AGENTS E) (Some "cursor") Demo.w0) code w1 Hrun)
      as [[Hzero|Hone] Honly]; [exact Hzero|].
    destruct (Honly Hone) as (_ & Hall & _).
    apply Forall_forall with (x := nth 3 (AGENTS E) (mkAgent EmptyString EmptyString
            (Path_of EmptyString) EmptyString None None None)) in Hall.
    + exfalso. apply Hall. reflexivity.
    + apply list_elem_of_In, nth_In. simpl. lia.
Defined.

(** X4 on a sparse checkout that succeeds and on a download that succeeds. *)
Lemma temporary_directory_removed_witness :
  let dest := Path_of "/home/u/.cursor/skills/search" in
  fs (install_git_sparse (Demo.env_of Demo.sw_git) Demo.src dest Demo.w0).2
    !! (Demo.tmp ++ ["repo"])%list = None
  /\ fs (install_download (Demo.env_of Demo.sw_archive) Demo.src dest Demo.w0).2
       !! Demo.tmp = None.
Proof.
  intros dest. split.
  - apply (proj1 (temporary_directory_removed (Demo.env_of Demo.sw_git) Demo.src dest
                    Demo.w0 (Demo.tmp ++ ["repo"])%list 0 EmptyString EmptyString eq_refl)).
    reflexivity.
  - apply (proj2 (temporary_directory_removed (Demo.env_of Demo.sw_archive) Demo.src dest
                    Demo.w0 Demo.tmp 200 "OK" "PK" eq_refl)); [reflexivity|lia].
Defined.

(** X5 without [git], and with a clone that exits with 1. *)
Lemma install_git_sparse_clean_failures_witness :
  let dest := Path_of "/home/u/.cursor/skills/search" in
  install_git_sparse (Demo.env_of Demo.sw_offline) Demo.src dest Demo.w0
  = (Ok false, mkWorld Demo.fs0 [CallGitSparse Demo.src dest])
  /\ install_git_sparse (Demo.env_of Demo.sw_clone_fails) Demo.src dest Demo.w0
     = (Ok false,
        mkWorld (Fs.prune (<[Demo.tmp := Fs.Dir]> Demo.fs0) Demo.tmp)
          [CallGitSparse Demo.src dest]).
Proof.
  intros dest. split.
  - apply (proj1 (install_git_sparse_clean_failures (Demo.env_of Demo.sw_offline) Demo.src
                    dest Demo.w0 0 0 EmptyString Demo.fs0)).
    reflexivity.
  - apply (proj2 (install_git_sparse_clean_failures (Demo.env_of Demo.sw_clone_fails)
                    Demo.src dest Demo.w0 1 1 EmptyString (<[Demo.tmp := Fs.Dir]> Demo.fs0)));
      [reflexivity|reflexivity|lia|lia].
Defined.

(** X6 on a host that answers 200 with a page. *)
Lemma install_download_bad_archive_witness :
  let E := Demo.env_of Demo.sw_bad_zip in
  let dest := Path_of "/home/u/.cursor/skills/search" in
  (install_download E Demo.src dest Demo.w0).1 = Raise BadZipFile
  /\ fs (install_download E Demo.src dest Demo.w0).2 !! ["home"; "u"; ".cursor"]
     = Some Fs.Dir.
Proof.
  intros E dest.
  destruct (install_download_bad_archive E Demo.src dest Demo.w0 200 "OK" "<html>")
    as [Hraise Hkeep]; [reflexivity|lia|reflexivity|reflexivity|reflexivity|].
  split; [exact Hraise|]. rewrite Hkeep by reflexivity. reflexivity.
Defined.

(** X7 on a local path that does not exist, and on the local skill of the
    working directory linked into Cursor's skills directory. *)
Lemma install_local_outcomes_witness :
  let E := Demo.env_of Demo.sw_offline in
  let dest := Path_of "/home/u/.cursor/skills/my-skill" in
  install_local E (Path_of "nowhere") dest false Demo.w0
  = (Ok false, mkWorld Demo.fs0 [CallLocal (Path_of "nowhere") dest false])
  /\ Fs.is_symlink
       (fs (Demo.after (install_local E (Path_of "my-skill") dest true) Demo.w_installed))
       ["home"; "u"; ".cursor"; "skills"; "my-skill"] = true.
Proof.
  intros E dest. split.
  - apply (proj1 (install_local_outcomes E (Path_of "nowhere") dest false Demo.w0 Demo.w0)).
    reflexivity.
  - apply (proj2 (install_local_outcomes E (Path_of "my-skill") dest true Demo.w_installed
                    (Demo.after (install_local E (Path_of "my-skill") dest true)
                       Demo.w_installed))).
    vm_compute. reflexivity.
Defined.

(** X8 on a link that leads nowhere in Cursor's skills directory. *)
Lemma install_local_dangling_link_witness :
  let E := Demo.env_of Demo.sw_offline in
  let dest := Path_of "/home/u/.cursor/skills/my-skill" in
  install_local E (Path_of "my-skill") dest true Demo.w_dangling
  = (Raise FileExistsError,
     mkWorld (fs Demo.w_dangling)
       (calls Demo.w_dangling ++ [CallLocal (Path_of "my-skill") dest true])).
Proof.
  intros E dest.
  apply (install_local_dangling_link E (Path_of "my-skill") dest Demo.w_dangling).
  - vm_compute. reflexivity.
  - apply (mkdirs_noop _ [] ["home"; "u"; ".cursor"; "skills"]).
    intros i Hi. do 5 (destruct i as [|i]; [vm_compute; reflexivity|]).
    simpl in Hi. lia.
  - vm_compute. reflexivity.
  - vm_compute. reflexivity.
Defined.

(** X9 on a shorthand without a slash. *)
Lemma install_skill_invalid_source_witness :
  let E := Demo.env_of Demo.sw_git in
  main E (AGENTS E) (mkArgs "acme" "all" false false "auto" "text") Demo.w0
  = (Ok 1, Demo.w0).
Proof.
  intros E.
  apply (proj2 (install_skill_invalid_source E (AGENTS E)
                  (mkArgs "acme" "all" false false "auto" "text")
                  "Invalid shorthand. Use: owner/repo[/path/to/skill]"
                  Demo.w0 Demo.w0 ltac:(vm_compute; reflexivity))).
Defined.

(** X10 on a run that installs by sparse checkout for the one agent
    detected. *)
Lemma install_skill_one_outcome_per_target_witness :
  let E := Demo.env_of Demo.sw_git in
  one_outcome_each
    (mkResults [mkInstalled "cursor" "/home/u/.cursor/skills/search" (Some "git")] [] [])
    ["cursor"].
Proof.
  intros E.
  destruct (install_skill_one_outcome_per_target E (AGENTS E) "acme/toolkit/packs/search"
              (Some ["all"]) false "auto" false
              (mkResults [mkInstalled "cursor" "/home/u/.cursor/skills/search" (Some "git")]
                 [] [])
              Demo.w0
              (Demo.after (install_skill E (AGENTS E) "acme/toolkit/packs/search"
                             (Some ["all"]) false "auto" false) Demo.w0))
    as (found & w1 & Hdet & _ & Hone).
  - vm_compute. reflexivity.
  - assert (Hc : detect_all E (AGENTS E) Demo.w0 = (Ok [Demo.cursor], Demo.w0))
      by (vm_compute; reflexivity).
    rewrite Hc in Hdet. injection Hdet as <- <-. exact Hone.
Defined.

(** X11 on the removal of a skill directory of Cursor. *)
Lemma uninstall_skill_one_outcome_per_target_witness :
  let E := Demo.env_of Demo.sw_offline in
  let run := uninstall_skill E (AGENTS E) "search" (Some (agents_of "all")) in
  uninstall_main E (AGENTS E) "search" "all" Demo.w_installed
  = (Ok 0, Demo.after run Demo.w_installed).
Proof.
  intros E run.
  destruct (uninstall_skill_one_outcome_per_target E (AGENTS E) "search" "all"
              (mkUResults [mkRemoved "cursor" "/home/u/.cursor/skills/search" (Some "file")]
                 [])
              Demo.w_installed (Demo.after run Demo.w_installed))
    as (_ & code & Hmain & Hzero & _).
  - vm_compute. reflexivity.
  - rewrite Hmain. f_equal. f_equal. apply Hzero. discriminate.
Defined.

(** X12 on the same removal, run twice. *)
Lemma uninstall_twice_not_found_witness :
  let E := Demo.env_of Demo.sw_offline in
  let body := uninstall_from_agent E "search" (mkUResults [] []) "cursor" Demo.cursor in
  let w1 := Demo.after body Demo.w_installed in
  Fs.exists_ (fs w1) ["home"; "u"; ".cursor"; "skills"; "search"] = false
  /\ body w1
     = (Ok (mkUResults [] [mkNotFound "cursor" "/home/u/.cursor/skills/search"]), w1).
Proof.
  intros E body w1.
  apply (uninstall_twice_not_found E "search" (mkUResults [] [])
           (mkUResults [mkRemoved "cursor" "/home/u/.cursor/skills/search" (Some "file")] [])
           (mkUResults [] []) "cursor" Demo.cursor Demo.w_installed w1).
  - reflexivity.
  - vm_compute. reflexivity.
Defined.

(** X13 on a skill installed by sparse checkout. *)
Lemma install_then_uninstall_witness :
  let E := Demo.env_of Demo.sw_git in
  let k := ["home"; "u"; ".cursor"; "skills"; "search"] in
  let w1 := Demo.after
              (install_to_agent E (Path_of "acme/toolkit/packs/search") (Some Demo.src)
                 "search" false "auto" false (mkResults [] [] []) "cursor" Demo.cursor)
              Demo.w0 in
  Fs.exists_ (fs w1) k = true
  /\ uninstall_from_agent E "search" (mkUResults [] []) "cursor" Demo.cursor w1
     = (Ok (mkUResults [mkRemoved "cursor" "/home/u/.cursor/skills/search" (Some "file")] []),
        set_fs w1 (Fs.prune (fs w1) k))
  /\ Fs.exists_ (Fs.prune (fs w1) k) k = false.
Proof.
  intros E k w1.
  destruct (install_then_uninstall E (Path_of "acme/toolkit/packs/search") (Some Demo.src)
              "search" "auto" (mkResults [] [] [])
              (mkResults [mkInstalled "cursor" "/home/u/.cursor/skills/search" (Some "git")]
                 [] [])
              (mkUResults [] []) "cursor" Demo.cursor (Some "git") Demo.w0 w1)
    as (Hrun & Hgone & _).
  - reflexivity.
  - intros m. reflexivity.
  - vm_compute. reflexivity.
  - reflexivity.
  - vm_compute. reflexivity.
  - split; [vm_compute; reflexivity|]. split; [exact Hrun|exact Hgone].
Defined.

(** X17 on Cursor's skills directory: the linked skill is listed, as a
    link, and the regular file is not. *)
Lemma skills_of_listing_witness :
  let E := Demo.env_of Demo.sw_offline in
  exists l,
    skills_of E Demo.cursor Demo.w_installed = (Ok l, Demo.w_installed)
    /\ mkSkill "linked" "/home/u/.cursor/skills/linked" true ∈ l
    /\ forall s, s ∈ l -> k_name s <> "notes".
Proof.
  intros E.
  destruct (skills_of_listing E Demo.cursor Demo.w_installed
              ["home"; "u"; ".cursor"; "skills"])
    as (l & Hrun & _ & _ & Hmem); [reflexivity|reflexivity|].
  exists l. split; [exact Hrun|]. split.
  - apply Hmem. exists ["work"; "my-skill"]. vm_compute. repeat split; reflexivity.
  - intros s Hs Hname. apply Hmem in Hs. destruct Hs as (d & Hd & Hdir & _).
    rewrite Hname in Hd. vm_compute in Hd. injection Hd as <-. vm_compute in Hdir.
    discriminate.
Defined.

(** X18 on the local skill of the working directory, copied into Cursor's
    skills directory, which the install creates. *)
Lemma installed_skill_is_listed_witness :
  let E := Demo.env_of Demo.sw_offline in
  let dest := Path_div (Path_of "/home/u/.cursor/skills") "my-skill" in
  let w1 := Demo.after (install_local E (Path_of "my-skill") dest false) Demo.w0 in
  exists l,
    skills_of E Demo.cursor w1 = (Ok l, w1)
    /\ mkSkill "my-skill" "/home/u/.cursor/skills/my-skill" false ∈ l.
Proof.
  intros E dest w1.
  apply (installed_skill_is_listed E (Path_of "my-skill") Demo.cursor "my-skill"
           "name: my-skill" ["work"; "my-skill"] Demo.w0 w1);
    first [reflexivity|discriminate|vm_compute; reflexivity].
Defined.

(** X19 on the removal of a skill directory of Cursor. *)
Lemma uninstalled_skill_not_listed_witness :
  let E := Demo.env_of Demo.sw_offline in
  let w1 := Demo.after
              (uninstall_from_agent E "search" (mkUResults [] []) "cursor" Demo.cursor)
              Demo.w_installed in
  exists l,
    skills_of E Demo.cursor w1 = (Ok l, w1) /\ forall s, s ∈ l -> k_name s <> "search".
Proof.
  intros E w1.
  apply (uninstalled_skill_not_listed E "search" (mkUResults [] [])
           (mkUResults [mkRemoved "cursor" "/home/u/.cursor/skills/search" (Some "file")] [])
           "cursor" Demo.cursor Demo.w_installed w1);
    first [reflexivity|discriminate|vm_compute; reflexivity].
Defined.

(** X20 on the listing of Cursor, the one agent detected. *)
Lemma list_skills_entries_witness :
  let E := Demo.env_of Demo.sw_offline in
  let res :=
    [("cursor",
      mkListing "Cursor" "/home/u/.cursor/skills"
        [mkSkill "linked" "/home/u/.cursor/skills/linked" true;
         mkSkill "search" "/home/u/.cursor/skills/search" false])] in
  list_skills E (AGENTS E) (Some "cursor") Demo.w_installed = (Ok res, Demo.w_installed)
  /\ NoDup res.*1
  /\ forall n, n ∈ res.*1 -> n = "cursor".
Proof.
  intros E res.
  assert (Hrun : list_skills E (AGENTS E) (Some "cursor") Demo.w_installed
                 = (Ok res, Demo.w_installed)) by (vm_compute; reflexivity).
  destruct (list_skills_entries E (AGENTS E) (Some "cursor") res Demo.w_installed
              Demo.w_installed Hrun) as (found & _ & Hnd & Hkeys & _).
  split; [exact Hrun|]. split; [exact Hnd|].
  intros n Hn. apply Hkeys in Hn. destruct Hn as [_ Hf]. apply Hf. reflexivity.
Defined.

(** X21 on a plain URL and on a tree URL. *)
Lemma parsers_agree_witness :
  parse_github_url Demo.urlparse_simple
    "https://github.com/acme/toolkit/packs/search" "main"
  = parse_shorthand "acme/toolkit/packs/search" "main"
  /\ parse_github_url Demo.urlparse_simple
       "https://github.com/acme/toolkit/tree/dev/packs/search" "main"
     = parse_shorthand "acme/toolkit/packs/search" "dev".
Proof.
  destruct (parsers_agree Demo.urlparse_simple
              "https://github.com/acme/toolkit/packs/search" "main" "acme" "toolkit"
              ["packs"; "search"]) as [Hplain _];
    [reflexivity|repeat constructor|].
  destruct (parsers_agree Demo.urlparse_simple
              "https://github.com/acme/toolkit/tree/dev/packs/search" "main" "acme" "toolkit"
              ["packs"; "search"]) as [_ Hmarked];
    [reflexivity|repeat constructor|].
  split.
  - apply Hplain; reflexivity.
  - apply (Hmarked "tree" "dev"); [reflexivity|repeat constructor|reflexivity].
Defined.

(** X22 on a whole repository: the packs are copied, [.git] is not. *)
Lemma install_git_sparse_drops_git_dir_witness :
  let E := Demo.env_of Demo.sw_git in
  let whole := mkSource "acme" "toolkit" "main" EmptyString "toolkit" in
  let dest := Path_of "/home/u/.cursor/skills/toolkit" in
  let w1 := Demo.after (install_git_sparse E whole dest) Demo.w0 in
  Fs.exists_ (fs w1) ["home"; "u"; ".cursor"; "skills"; "toolkit"; "packs"] = true
  /\ Fs.exists_ (fs w1) ["home"; "u"; ".cursor"; "skills"; "toolkit"; ".git"] = false.
Proof.
  intros E whole dest w1. split; [vm_compute; reflexivity|].
  apply (install_git_sparse_drops_git_dir E whole dest Demo.w0 w1).
  vm_compute. reflexivity.
Defined.
